(** * FareShare persistence layer: connection manager and entity schemas

    A shallow embedding of [backend/src/config/db.py],
    [backend/src/models/booking.py] and [backend/src/models/review.py],
    followed by the properties of the specification stated over it. *)

From Stdlib Require Import String Ascii List ZArith Lia Bool Arith.
Import ListNotations.

Local Open Scope string_scope.

(** ** Python [str] operations used by [db.py] *)

Module PyStr.

(** [s.startswith(prefix)] *)
Fixpoint startswith (s prefix : string) {struct prefix} : bool :=
  match prefix with
  | EmptyString => true
  | String p prefix' =>
      match s with
      | EmptyString => false
      | String c s' => Ascii.eqb c p && startswith s' prefix'
      end
  end.

(** [sub in s] *)
Fixpoint contains (sub s : string) : bool :=
  startswith s sub ||
  match s with
  | EmptyString => false
  | String _ s' => contains sub s'
  end.

(** The scan behind [s.replace(old, new)] for a non-empty [old]:
    occurrences are found left to right and do not overlap; [skip] counts
    the characters of the occurrence just replaced that are still to be
    passed over. *)
Fixpoint replace_from (old new : string) (skip : nat) (s : string) : string :=
  match s with
  | EmptyString => EmptyString
  | String c s' =>
      match skip with
      | S k => replace_from old new k s'
      | O =>
          if startswith s old
          then new ++ replace_from old new (String.length old - 1) s'
          else String c (replace_from old new 0 s')
      end
  end.

(** [s.replace(old, new)], [old] non-empty. *)
Definition replace (s old new : string) : string :=
  replace_from old new 0 s.

(** The scan behind [s.split(sep)] for a non-empty [sep]; the result is
    never the empty list. *)
Fixpoint split_from (sep : string) (skip : nat) (s : string) : list string :=
  match s with
  | EmptyString => [EmptyString]
  | String c s' =>
      match skip with
      | S k => split_from sep k s'
      | O =>
          if startswith s sep
          then EmptyString :: split_from sep (String.length sep - 1) s'
          else match split_from sep 0 s' with
               | piece :: rest => String c piece :: rest
               | [] => [String c EmptyString]
               end
      end
  end.

(** [s.split(sep)], [sep] non-empty. *)
Definition split (s sep : string) : list string :=
  split_from sep 0 s.

(** [l[0]] on a list of strings; [None] stands for [IndexError]. *)
Definition item0 (l : list string) : option string :=
  match l with
  | [] => None
  | x :: _ => Some x
  end.

(** Python truthiness of a [str]: the empty string is false. *)
Definition truthy (s : string) : bool :=
  match s with
  | EmptyString => false
  | String _ _ => true
  end.

(** [s[n:]] *)
Fixpoint drop (n : nat) (s : string) : string :=
  match n, s with
  | O, _ => s
  | S _, EmptyString => EmptyString
  | S k, String _ s' => drop k s'
  end.

(** The part of [s] before the first occurrence of [sep] (all of [s] when
    there is none). *)
Fixpoint before_first (sep s : string) : string :=
  match s with
  | EmptyString => EmptyString
  | String c s' =>
      if startswith s sep then EmptyString
      else String c (before_first sep s')
  end.

End PyStr.

(** ** [config/db.py]: the connection manager *)

Module Db.
Import PyStr.

(** *** Exceptions *)

(** The exception classes that matter to the control flow of [db.py]:
    the ones it raises itself, any other class deriving from [Exception],
    and the classes deriving from [BaseException] only
    ([asyncio.CancelledError], [KeyboardInterrupt], [SystemExit],
    [GeneratorExit]). *)
Inductive ExcClass : Type :=
| ValueError
| RuntimeError
| IndexError
| OtherException (name : string)
| OtherBaseException (name : string).

Record PyExc : Type := mkExc { exc_class : ExcClass; exc_args : string }.

(** [isinstance(e, Exception)], the test made by [except Exception:]. *)
Definition isinstance_Exception (e : PyExc) : bool :=
  match exc_class e with
  | OtherBaseException _ => false
  | _ => true
  end.

Inductive result (A : Type) : Type :=
| Returned (a : A)
| Raised (e : PyExc).
Arguments Returned {A} a.
Arguments Raised {A} e.

(** *** Module-level configuration (lines 19-43) *)

(** [os.environ] *)
Definition Environ : Type := list (string * string).

(** [os.getenv(key)] *)
Fixpoint getenv (environ : Environ) (key : string) : option string :=
  match environ with
  | [] => None
  | (k, v) :: rest => if String.eqb k key then Some v else getenv rest key
  end.

(** [if DATABASE_URL.startswith("postgresql://"): ... else: ...] *)
Definition rewrite_scheme (DATABASE_URL : string) : string :=
  if startswith DATABASE_URL "postgresql://"
  then replace DATABASE_URL "postgresql://" "postgresql+asyncpg://"
  else DATABASE_URL.

(** [url.split(marker)[0]] *)
Definition split_head (url marker : string) : result string :=
  match item0 (split url marker) with
  | Some piece => Returned piece
  | None => Raised (mkExc IndexError "list index out of range")
  end.

(** [if "render.com" in ASYNC_DATABASE_URL: ...] (lines 36-41) *)
Definition strip_sslmode (ASYNC_DATABASE_URL : string) : result string :=
  if contains "render.com" ASYNC_DATABASE_URL then
    if contains "?sslmode=" ASYNC_DATABASE_URL then
      split_head ASYNC_DATABASE_URL "?sslmode="
    else if contains "&sslmode=" ASYNC_DATABASE_URL then
      split_head ASYNC_DATABASE_URL "&sslmode="
    else Returned ASYNC_DATABASE_URL
  else Returned ASYNC_DATABASE_URL.

(** *** Engine, session factory and the module's globals *)

(** An [AsyncEngine] object: the arguments it was created with and the
    number of [dispose()] calls it has received. *)
Record AsyncEngine : Type := mkEngine {
  engine_url : string;
  echo : bool;
  pool_size : Z;
  max_overflow : Z;
  pool_pre_ping : bool;
  pool_recycle : Z;
  connect_args : list (string * bool);
  dispose_calls : nat
}.

(** An [async_sessionmaker]: it refers to its engine by address. *)
Record async_sessionmaker : Type := mkSessionmaker {
  bind : nat;
  class_ : string;
  expire_on_commit : bool
}.

(** The module after import: its globals, and the engine objects created so
    far ([heap], addressed by position), which [async_engine] and the
    factory's [bind] share. *)
Record ModuleState : Type := mkModule {
  DATABASE_URL : string;
  ASYNC_DATABASE_URL : string;
  async_engine : option nat;
  async_session_factory : option async_sessionmaker;
  Base_toJson : bool;
  heap : list AsyncEngine
}.

(** [d[key] = value] on a dict kept as an association list. *)
Fixpoint dict_set (d : list (string * bool)) (key : string) (value : bool)
  : list (string * bool) :=
  match d with
  | [] => [(key, value)]
  | (k, v) :: rest =>
      if String.eqb k key then (k, value) :: rest
      else (k, v) :: dict_set rest key value
  end.

(** [connect_args] as [init_db] builds it (lines 69-73). *)
Definition init_connect_args (url : string) : list (string * bool) :=
  let connect_args := [] in
  if contains "render.com" url then dict_set connect_args "ssl" true
  else connect_args.

(** [engine.dispose()] on the engine at [addr]. *)
Fixpoint dispose_at (addr : nat) (h : list AsyncEngine) : list AsyncEngine :=
  match h, addr with
  | [], _ => []
  | e :: rest, O =>
      mkEngine (engine_url e) (echo e) (pool_size e) (max_overflow e)
               (pool_pre_ping e) (pool_recycle e) (connect_args e)
               (S (dispose_calls e)) :: rest
  | e :: rest, S a => e :: dispose_at a rest
  end.

(** [close_db] (lines 94-102). An engine object is always truthy, so
    [if async_engine:] tests for [None]. *)
Definition close_db (m : ModuleState) : ModuleState :=
  match async_engine m with
  | Some addr =>
      mkModule (DATABASE_URL m) (ASYNC_DATABASE_URL m) (async_engine m)
               (async_session_factory m) (Base_toJson m)
               (dispose_at addr (heap m))
  | None => m
  end.

(** What holds of the globals in every state of a process. *)
Definition coupled (D A : string) (st : ModuleState) : Prop :=
  DATABASE_URL st = D
  /\ ASYNC_DATABASE_URL st = A
  /\ match async_session_factory st with
     | None => async_engine st = None /\ heap st = []
     | Some f =>
         async_engine st = Some (bind f)
         /\ class_ f = "AsyncSession"
         /\ expire_on_commit f = false
         /\ exists engine,
              nth_error (heap st) (bind f) = Some engine
              /\ engine_url engine = A
              /\ echo engine = false
              /\ pool_size engine = 20%Z
              /\ max_overflow engine = 10%Z
              /\ pool_pre_ping engine = true
              /\ pool_recycle engine = 3600%Z
              /\ connect_args engine = init_connect_args A
     end.

(** *** Sessions *)

(** The calls a session object receives from [get_async_session]: the
    three methods the function calls itself, and [__aexit__], which the
    [async with] statement calls on leaving ([__aenter__] returns the
    session itself). What each of them does to the database is the ORM's
    business; the model records them in order. *)
Inductive SessionCall : Type := Commit | Rollback | Close | AExit.

Definition SessionCall_eq_dec (a b : SessionCall) : {a = b} + {a <> b}.
Proof. decide equality. Defined.

(** An [AsyncSession] object: what it was made from, the work done on it by
    the enclosed block ([statements], left abstract as a count), and the
    calls received so far, oldest first. *)
Record AsyncSession : Type := mkSession {
  session_bind : nat;
  session_expire_on_commit : bool;
  statements : nat;
  calls : list SessionCall
}.

(** [async_session_factory()] *)
Definition new_session (f : async_sessionmaker) : AsyncSession :=
  mkSession (bind f) (expire_on_commit f) 0 [].

(** The enclosed block of [async with get_async_session() as session:]. It
    works on the session and either completes or raises. *)
Definition Body : Type := AsyncSession -> AsyncSession * result unit.

(** How [async with get_async_session() as session: body] ends: either an
    exception before anything is yielded (the block never runs), or the
    block has run on a session, which is returned as it was left, with the
    way the whole statement completes. *)
Inductive ScopeOutcome : Type :=
| NotYielded (e : PyExc)
| Yielded (session : AsyncSession) (r : result unit).

Section Library.

(** The collaborators the module calls into. [load_dotenv] updates the
    environment from a [.env] file; [create_async_engine_raises] is the
    exception [create_async_engine] raises for a URL, if any;
    [session_raises c done] is the exception the call [c] raises on a
    session that has already received [done], if any. *)
Variable load_dotenv : Environ -> Environ.
Variable create_async_engine_raises : string -> option PyExc.
Variable session_raises : SessionCall -> list SessionCall -> option PyExc.

(** Import of the module (lines 19-50). *)
Definition load_module (environ : Environ) : result ModuleState :=
  match getenv (load_dotenv environ) "DATABASE_URL" with
  | None =>
      Raised (mkExc ValueError "DATABASE_URL environment variable is required")
  | Some url =>
      if negb (truthy url) then
        Raised (mkExc ValueError "DATABASE_URL environment variable is required")
      else
        match strip_sslmode (rewrite_scheme url) with
        | Raised e => Raised e
        | Returned async_url =>
            Returned (mkModule url async_url None None false [])
        end
  end.

(** [init_db] (lines 53-91). The two globals are assigned only after
    [create_async_engine] has returned. *)
Definition init_db (m : ModuleState) : ModuleState * result unit :=
  let connect_args := init_connect_args (ASYNC_DATABASE_URL m) in
  match create_async_engine_raises (ASYNC_DATABASE_URL m) with
  | Some e =>
      (mkModule (DATABASE_URL m) (ASYNC_DATABASE_URL m) (async_engine m)
                (async_session_factory m) true (heap m),
       Raised e)
  | None =>
      let addr := List.length (heap m) in
      let engine :=
        mkEngine (ASYNC_DATABASE_URL m) false 20 10 true 3600 connect_args 0 in
      (mkModule (DATABASE_URL m) (ASYNC_DATABASE_URL m) (Some addr)
                (Some (mkSessionmaker addr "AsyncSession" false)) true
                (heap m ++ [engine]),
       Returned tt)
  end.

(** A call on the session: recorded, then it returns or raises. *)
Definition call (c : SessionCall) (s : AsyncSession)
  : AsyncSession * result unit :=
  let s' := mkSession (session_bind s) (session_expire_on_commit s)
                      (statements s) (calls s ++ [c]) in
  match session_raises c (calls s) with
  | Some e => (s', Raised e)
  | None => (s', Returned tt)
  end.

(** [try: yield session; await session.commit()] *)
Definition try_suite (body : Body) (s : AsyncSession)
  : AsyncSession * result unit :=
  match body s with
  | (s1, Returned _) => call Commit s1
  | (s1, Raised e) => (s1, Raised e)
  end.

(** [except Exception: await session.rollback(); raise] *)
Definition except_Exception (sr : AsyncSession * result unit)
  : AsyncSession * result unit :=
  match sr with
  | (s, Returned u) => (s, Returned u)
  | (s, Raised e) =>
      if isinstance_Exception e then
        match call Rollback s with
        | (s1, Returned _) => (s1, Raised e)
        | (s1, Raised e') => (s1, Raised e')
        end
      else (s, Raised e)
  end.

(** A clean-up call made whatever the outcome so far: an exception it
    raises replaces the pending one. Used for [finally: await
    session.close()] and for the [__aexit__] of [async with], which does
    not suppress exceptions. *)
Definition and_finally (c : SessionCall) (sr : AsyncSession * result unit)
  : AsyncSession * result unit :=
  match call c (fst sr) with
  | (s1, Returned _) => (s1, snd sr)
  | (s1, Raised e') => (s1, Raised e')
  end.

(** [get_async_session] (lines 105-128), run around [body]. *)
Definition get_async_session (m : ModuleState) (body : Body) : ScopeOutcome :=
  match async_session_factory m with
  | None =>
      NotYielded (mkExc RuntimeError "Database not initialized. Call init_db() first.")
  | Some factory =>
      let session := new_session factory in
      let sr := and_finally AExit
                  (and_finally Close
                     (except_Exception (try_suite body session))) in
      Yielded (fst sr) (snd sr)
  end.

(** [get_db] (lines 131-145), the dependency of the route handlers, run
    around a handler. The handler runs while the generator is suspended at
    [yield session], inside the [async with] of [get_async_session]; an
    exception of the handler is thrown into the generator at that point. *)
Definition get_db (m : ModuleState) (handler : Body) : ScopeOutcome :=
  get_async_session m (fun session => handler session).

(** *** The life of the process *)

Inductive Op : Type :=
| OpInit
| OpClose
| OpSession (body : Body).

Definition step (m : ModuleState) (op : Op) : ModuleState :=
  match op with
  | OpInit => fst (init_db m)
  | OpClose => close_db m
  | OpSession _ => m
  end.

Definition run (ops : list Op) (m : ModuleState) : ModuleState :=
  fold_left step ops m.

(** [init_db] has completed at some point of [ops]. *)
Fixpoint initialized_by (ops : list Op) (m : ModuleState) : bool :=
  match ops with
  | [] => false
  | OpInit :: rest =>
      match snd (init_db m) with
      | Returned _ => true
      | Raised _ => initialized_by rest (fst (init_db m))
      end
  | op :: rest => initialized_by rest (step m op)
  end.

End Library.

End Db.

(** ** [models/booking.py] and [models/review.py]: the entity schemas *)

Module Models.

Local Open Scope Z_scope.

(** *** Column types *)

(** [UUID(as_uuid=True)] *)
Definition UUID : Type := N.

(** A finite decimal number, as a Python [Decimal] or a numeric literal
    holds it: [coefficient * 10 ^ exponent] ([31.00] is [3100] at exponent
    [-2], [-0.001] is [-1] at exponent [-3]). *)
Record Decimal : Type := mkDecimal {
  coefficient : Z;
  exponent : Z
}.

(** An amount in hundredths. *)
Definition cents (h : Z) : Decimal := mkDecimal h (-2).

(** [d] as a whole number of units of [10 ^ - scale], rounded half away
    from zero, which is how the store rounds a numeric to a column's
    scale. *)
Definition rescale (scale : Z) (d : Decimal) : Z :=
  if - scale <=? exponent d then coefficient d * 10 ^ (exponent d + scale)
  else
    let p := 10 ^ (- exponent d - scale) in
    Z.sgn (coefficient d) * ((2 * Z.abs (coefficient d) + p) / (2 * p)).

(** [Numeric(6, 2)]: what is stored has two decimals and is below
    [10000] in absolute value. *)
Definition Numeric_6_2 : Type := Decimal.

(** What a column type makes of a value written to it; [None] is the
    store's data error. [Numeric(precision, scale)] rounds to the scale and
    then refuses what needs more than [precision] digits. *)
Definition as_Numeric (precision scale : Z) (d : Decimal) : option Decimal :=
  let u := rescale scale d in
  if Z.abs u <? 10 ^ precision then Some (mkDecimal u (- scale)) else None.

(** [Integer]: the driver refuses to encode what is not a 32-bit signed
    integer. *)
Definition as_Integer (z : Z) : option Z :=
  if (- 2 ^ 31 <=? z) && (z <? 2 ^ 31) then Some z else None.

Fixpoint all_spaces (s : string) : bool :=
  match s with
  | EmptyString => true
  | String c s' => Ascii.eqb c " " && all_spaces s'
  end.

(** [String(n)]: a longer string is refused, unless what exceeds [n]
    characters is all spaces, which are then cut off. *)
Definition as_String (n : nat) (s : string) : option string :=
  if (String.length s <=? n)%nat then Some s
  else if all_spaces (String.substring n (String.length s - n) s)
       then Some (String.substring 0 n s)
       else None.

(** [UUID], [Text] and [DateTime] take a value as it is. *)
Definition as_is {T : Type} (x : T) : option T := Some x.

(** [DateTime(timezone=True)] *)
Definition DateTime : Type := Z.

(** *** Declarations *)

Inductive OnDelete : Type := CASCADE | RESTRICT | SET_NULL | NO_ACTION.

(** [ForeignKey("rides.id", ondelete="CASCADE")] *)
Record ForeignKey : Type := mkForeignKey {
  target : string;
  ondelete : OnDelete
}.

(** What the server supplies while it executes one statement:
    the value of [gen_random_uuid()] and of [now()]. *)
Record Server : Type := mkServer {
  gen_random_uuid : UUID;
  now : DateTime
}.

(** [Column(type, ...)] with the keyword arguments the two models use. *)
Record Column (T : Type) : Type := mkColumn {
  column_type : T -> option T;
  primary_key : bool;
  foreign_key : option ForeignKey;
  nullable : bool;
  index : bool;
  server_default : option (Server -> T)
}.
Arguments mkColumn {T} _ _ _ _ _ _.
Arguments column_type {T} _.
Arguments primary_key {T} _.
Arguments foreign_key {T} _.
Arguments nullable {T} _.
Arguments index {T} _.
Arguments server_default {T} _.

(** The entries of [__table_args__]. A constraint carries its SQL text or
    column names as written in the source, and what they mean on a row. *)
Inductive TableArg (Row : Type) : Type :=
| CheckConstraint (sqltext : string) (holds : Row -> bool) (name : string)
| UniqueConstraint (columns : list string) (key : Row -> list UUID) (name : string).
Arguments CheckConstraint {Row} _ _ _.
Arguments UniqueConstraint {Row} _ _ _.

(** The failures of a write: a data error, when a value does not fit the
    type of its column, or one of the store's constraint violations. *)
Inductive StoreError : Type :=
| DataError (column : string)
| NotNullViolation (column : string)
| CheckViolation (constraint : string)
| UniqueViolation (constraint : string)
| ForeignKeyViolation (column : string).

Definition is_data_error (e : StoreError) : bool :=
  match e with DataError _ => true | _ => false end.

Definition is_check_violation (e : StoreError) : bool :=
  match e with CheckViolation _ => true | _ => false end.

Definition is_unique_violation (e : StoreError) : bool :=
  match e with UniqueViolation _ => true | _ => false end.

(** A foreign-key column of a table: its name, its declaration and the
    value it has in a row. *)
Record ForeignKeyColumn (Row : Type) : Type := mkFKC {
  fk_column : string;
  fk : ForeignKey;
  fk_value : Row -> UUID
}.
Arguments mkFKC {Row} _ _ _.
Arguments fk_column {Row} _.
Arguments fk {Row} _.
Arguments fk_value {Row} _.

(** A mapped table as the store sees it. *)
Record Table (Row : Type) : Type := mkTable {
  tablename : string;
  pkey : Row -> UUID;
  foreign_keys : list (ForeignKeyColumn Row);
  table_args : list (TableArg Row)
}.
Arguments mkTable {Row} _ _ _ _.
Arguments tablename {Row} _.
Arguments pkey {Row} _.
Arguments foreign_keys {Row} _.
Arguments table_args {Row} _.

(** The value stored for a column: the one supplied, else the server
    default, else NULL ([None]). *)
Definition store_value {T : Type} (c : Column T) (srv : Server) (v : option T)
  : option T :=
  match v with
  | Some x => Some x
  | None =>
      match server_default c with
      | Some d => Some (d srv)
      | None => None
      end
  end.

(** A value handed to a column, as its type takes it; an attribute that
    is not set is not sent. *)
Definition typed {T : Type} (column : string) (c : Column T) (v : option T)
  : StoreError + option T :=
  match v with
  | None => inr None
  | Some x =>
      match column_type c x with
      | Some y => inr (Some y)
      | None => inl (DataError column)
      end
  end.

(** The value stored for a [nullable=False] column. *)
Definition required {T : Type} (column : string) (c : Column T) (srv : Server)
  (v : option T) : StoreError + T :=
  match store_value c srv v with
  | Some x => inr x
  | None => inl (NotNullViolation column)
  end.

(** [SET col = v] of an UPDATE: a column that is not assigned keeps its
    value. *)
Definition assign {T : Type} (old : T) (v : option T) : T :=
  match v with
  | Some x => x
  | None => old
  end.

Fixpoint key_eqb (a b : list UUID) : bool :=
  match a, b with
  | [], [] => true
  | x :: a', y :: b' => N.eqb x y && key_eqb a' b'
  | _, _ => false
  end.

Definition mem (k : UUID) (l : list UUID) : bool := existsb (N.eqb k) l.

(** *** [class Booking(Base)] *)

Module Booking.

Definition __tablename__ : string := "bookings".

(** The attributes of a [Booking]. With [F := option] it is the mapped
    object handed to the session ([None]: attribute not set); with the
    identity it is a stored row. *)
Record t (F : Type -> Type) : Type := mk {
  id : F UUID;
  ride_id : F UUID;
  passenger_id : F UUID;
  seats_reserved : F Z;
  amount_paid : F Numeric_6_2;
  status : F string;
  booked_at : F DateTime
}.
Arguments mk {F} _ _ _ _ _ _ _.
Arguments id {F} _.
Arguments ride_id {F} _.
Arguments passenger_id {F} _.
Arguments seats_reserved {F} _.
Arguments amount_paid {F} _.
Arguments status {F} _.
Arguments booked_at {F} _.

Definition Row : Type := t (fun T => T).
Definition Instance : Type := t option.

Definition id_column : Column UUID :=
  mkColumn as_is true None false false (Some gen_random_uuid).

Definition ride_id_column : Column UUID :=
  mkColumn as_is false (Some (mkForeignKey "rides.id" CASCADE)) false true None.

Definition passenger_id_column : Column UUID :=
  mkColumn as_is false (Some (mkForeignKey "users.id" CASCADE)) false true None.

Definition seats_reserved_column : Column Z :=
  mkColumn as_Integer false None false false None.

(** [server_default="0.00"] *)
Definition amount_paid_column : Column Numeric_6_2 :=
  mkColumn (as_Numeric 6 2) false None false false (Some (fun _ => cents 0)).

Definition status_column : Column string :=
  mkColumn (as_String 20) false None false true (Some (fun _ => "pending"%string)).

Definition booked_at_column : Column DateTime :=
  mkColumn as_is false None false true (Some now).

Definition __table_args__ : list (TableArg Row) :=
  [ CheckConstraint "seats_reserved > 0"
      (fun r => 0 <? seats_reserved r)
      "check_seats_reserved_positive";
    CheckConstraint "amount_paid >= 0"
      (fun r => 0 <=? coefficient (amount_paid r))
      "check_amount_positive";
    CheckConstraint "status IN ('pending', 'confirmed', 'cancelled', 'completed')"
      (fun r => existsb (String.eqb (status r))
                  ["pending"; "confirmed"; "cancelled"; "completed"]%string)
      "check_booking_status" ].

(** The referenced table and action of a foreign-key column; a column
    declared without [ForeignKey] refers to nothing. *)
Definition fk_of {T : Type} (c : Column T) : ForeignKey :=
  match foreign_key c with
  | Some f => f
  | None => mkForeignKey "" NO_ACTION
  end.

Definition table : Table Row :=
  mkTable __tablename__ id
    [ mkFKC "ride_id" (fk_of ride_id_column) ride_id;
      mkFKC "passenger_id" (fk_of passenger_id_column) passenger_id ]
    __table_args__.

(** The values of [b] as the columns take them: the first value that
    does not fit its column type is a data error. *)
Definition as_sent (b : Instance) : StoreError + Instance :=
  match typed "id" id_column (id b) with inl e => inl e | inr v_id =>
  match typed "ride_id" ride_id_column (ride_id b) with inl e => inl e | inr v_ride =>
  match typed "passenger_id" passenger_id_column (passenger_id b) with inl e => inl e | inr v_pass =>
  match typed "seats_reserved" seats_reserved_column (seats_reserved b) with inl e => inl e | inr v_seats =>
  match typed "amount_paid" amount_paid_column (amount_paid b) with inl e => inl e | inr v_amount =>
  match typed "status" status_column (status b) with inl e => inl e | inr v_status =>
  match typed "booked_at" booked_at_column (booked_at b) with inl e => inl e | inr v_at =>
  inr (mk (F := option) v_id v_ride v_pass v_seats v_amount v_status v_at)
  end end end end end end end.

(** The row made of values that fit their columns: server defaults fill
    what is not set, and a [nullable=False] column left without a value is
    a NOT NULL violation. *)
Definition fill (srv : Server) (b : Instance) : StoreError + Row :=
  match required "id" id_column srv (id b) with inl e => inl e | inr v_id =>
  match required "ride_id" ride_id_column srv (ride_id b) with inl e => inl e | inr v_ride =>
  match required "passenger_id" passenger_id_column srv (passenger_id b) with inl e => inl e | inr v_pass =>
  match required "seats_reserved" seats_reserved_column srv (seats_reserved b) with inl e => inl e | inr v_seats =>
  match required "amount_paid" amount_paid_column srv (amount_paid b) with inl e => inl e | inr v_amount =>
  match required "status" status_column srv (status b) with inl e => inl e | inr v_status =>
  match required "booked_at" booked_at_column srv (booked_at b) with inl e => inl e | inr v_at =>
  inr (mk (F := fun T => T) v_id v_ride v_pass v_seats v_amount v_status v_at)
  end end end end end end end.

(** The row an INSERT of the object [b] tries to store: the values must fit
    their column types before anything else is looked at. *)
Definition to_row (srv : Server) (b : Instance) : StoreError + Row :=
  match as_sent b with
  | inl e => inl e
  | inr sent => fill srv sent
  end.

(** The row an UPDATE with the assignments [b], which fit their columns,
    tries to store in place of [old]. *)
Definition updated (old : Row) (b : Instance) : Row :=
  mk (F := fun T => T)
     (assign (id old) (id b))
     (assign (ride_id old) (ride_id b))
     (assign (passenger_id old) (passenger_id b))
     (assign (seats_reserved old) (seats_reserved b))
     (assign (amount_paid old) (amount_paid b))
     (assign (status old) (status b))
     (assign (booked_at old) (booked_at b)).

(** A row within the types of its columns: [Integer], [Numeric(6, 2)],
    which goes up to [9999.99], and [String(20)]. *)
Definition within_columns (row : Row) : Prop :=
  - 2 ^ 31 <= seats_reserved row < 2 ^ 31
  /\ exponent (amount_paid row) = -2
  /\ Z.abs (coefficient (amount_paid row)) < 10 ^ 6
  /\ (String.length (status row) <= 20)%nat.

End Booking.

(** *** [class Review(Base)] *)

Module Review.

Definition __tablename__ : string := "reviews".

(** The attributes of a [Review]; [comment] is the one nullable column, so
    its value is an [option] in a stored row too. *)
Record t (F : Type -> Type) : Type := mk {
  id : F UUID;
  ride_id : F UUID;
  reviewer_id : F UUID;
  reviewee_id : F UUID;
  rating : F Z;
  comment : F (option string);
  created_at : F DateTime
}.
Arguments mk {F} _ _ _ _ _ _ _.
Arguments id {F} _.
Arguments ride_id {F} _.
Arguments reviewer_id {F} _.
Arguments reviewee_id {F} _.
Arguments rating {F} _.
Arguments comment {F} _.
Arguments created_at {F} _.

Definition Row : Type := t (fun T => T).
Definition Instance : Type := t option.

Definition id_column : Column UUID :=
  mkColumn as_is true None false false (Some gen_random_uuid).

Definition ride_id_column : Column UUID :=
  mkColumn as_is false (Some (mkForeignKey "rides.id" CASCADE)) false true None.

Definition reviewer_id_column : Column UUID :=
  mkColumn as_is false (Some (mkForeignKey "users.id" CASCADE)) false true None.

Definition reviewee_id_column : Column UUID :=
  mkColumn as_is false (Some (mkForeignKey "users.id" CASCADE)) false true None.

Definition rating_column : Column Z :=
  mkColumn as_Integer false None false false None.

Definition comment_column : Column string :=
  mkColumn as_is false None true false None.

Definition created_at_column : Column DateTime :=
  mkColumn as_is false None false false (Some now).

Definition __table_args__ : list (TableArg Row) :=
  [ CheckConstraint "rating >= 1 AND rating <= 5"
      (fun r => (1 <=? rating r) && (rating r <=? 5))
      "check_rating_range";
    UniqueConstraint ["ride_id"; "reviewer_id"; "reviewee_id"]%string
      (fun r => [ride_id r; reviewer_id r; reviewee_id r])
      "unique_review_per_ride_pair" ].

Definition fk_of {T : Type} (c : Column T) : ForeignKey :=
  match foreign_key c with
  | Some f => f
  | None => mkForeignKey "" NO_ACTION
  end.

Definition table : Table Row :=
  mkTable __tablename__ id
    [ mkFKC "ride_id" (fk_of ride_id_column) ride_id;
      mkFKC "reviewer_id" (fk_of reviewer_id_column) reviewer_id;
      mkFKC "reviewee_id" (fk_of reviewee_id_column) reviewee_id ]
    __table_args__.

(** The value stored for the nullable [comment]: an attribute that is not
    set, or set to [None], is stored as NULL. *)
Definition comment_value (srv : Server) (v : option (option string))
  : option string :=
  match v with
  | Some (Some text) => store_value comment_column srv (Some text)
  | _ => store_value comment_column srv None
  end.

(** The values of [r] as the columns take them; [rating] is the one
    column whose type can refuse a value. *)
Definition as_sent (r : Instance) : StoreError + Instance :=
  match typed "id" id_column (id r) with inl e => inl e | inr v_id =>
  match typed "ride_id" ride_id_column (ride_id r) with inl e => inl e | inr v_ride =>
  match typed "reviewer_id" reviewer_id_column (reviewer_id r) with inl e => inl e | inr v_er =>
  match typed "reviewee_id" reviewee_id_column (reviewee_id r) with inl e => inl e | inr v_ee =>
  match typed "rating" rating_column (rating r) with inl e => inl e | inr v_rating =>
  match typed "created_at" created_at_column (created_at r) with inl e => inl e | inr v_at =>
  inr (mk (F := option) v_id v_ride v_er v_ee v_rating (comment r) v_at)
  end end end end end end.

Definition fill (srv : Server) (r : Instance) : StoreError + Row :=
  match required "id" id_column srv (id r) with inl e => inl e | inr v_id =>
  match required "ride_id" ride_id_column srv (ride_id r) with inl e => inl e | inr v_ride =>
  match required "reviewer_id" reviewer_id_column srv (reviewer_id r) with inl e => inl e | inr v_er =>
  match required "reviewee_id" reviewee_id_column srv (reviewee_id r) with inl e => inl e | inr v_ee =>
  match required "rating" rating_column srv (rating r) with inl e => inl e | inr v_rating =>
  match required "created_at" created_at_column srv (created_at r) with inl e => inl e | inr v_at =>
  inr (mk (F := fun T => T) v_id v_ride v_er v_ee v_rating (comment_value srv (comment r)) v_at)
  end end end end end end.

Definition to_row (srv : Server) (r : Instance) : StoreError + Row :=
  match as_sent r with
  | inl e => inl e
  | inr sent => fill srv sent
  end.

Definition updated (old : Row) (r : Instance) : Row :=
  mk (F := fun T => T)
     (assign (id old) (id r))
     (assign (ride_id old) (ride_id r))
     (assign (reviewer_id old) (reviewer_id r))
     (assign (reviewee_id old) (reviewee_id r))
     (assign (rating old) (rating r))
     (assign (comment old) (comment r))
     (assign (created_at old) (created_at r)).

End Review.

(** *** The store *)

(** The tables live in the database server, which is not code of these
    files. What follows gives the declarations above their meaning there:
    the column types decide first whether the values can be written at all,
    [nullable=False] and [server_default] then decide the row an INSERT tries
    to store, CHECK and UNIQUE constraints and the primary key decide whether
    a row may enter a table, a foreign key must find the row it refers to, and
    its [ondelete] says what happens to the referring rows when that row is
    deleted. A statement that is refused changes nothing. *)

(** Modelled from the spec: the [Ride] and [User] models, which the
    foreign keys refer to as [rides.id] and [users.id], are not part of
    these files; a ride or a user is its primary key, and no foreign key
    between rides and users is modelled. *)
Record Database : Type := mkDatabase {
  rides : list UUID;
  users : list UUID;
  bookings : list Booking.Row;
  reviews : list Review.Row
}.

Definition empty : Database := mkDatabase [] [] [] [].

(** Whether the row a foreign key refers to exists. *)
Definition parent_exists (db : Database) (tgt : string) (k : UUID) : bool :=
  if String.eqb tgt "rides.id" then mem k (rides db)
  else if String.eqb tgt "users.id" then mem k (users db)
  else false.

Definition arg_name {Row : Type} (a : TableArg Row) : string :=
  match a with
  | CheckConstraint _ _ name => name
  | UniqueConstraint _ _ name => name
  end.

Fixpoint insert_by_name {Row : Type} (a : TableArg Row)
  (sorted : list (TableArg Row)) : list (TableArg Row) :=
  match sorted with
  | [] => [a]
  | x :: rest =>
      if String.leb (arg_name a) (arg_name x) then a :: x :: rest
      else x :: insert_by_name a rest
  end.

(** The constraints in the alphabetical order of their names, the order
    in which the store tests the CHECK constraints of a table. *)
Definition by_name {Row : Type} (args : list (TableArg Row))
  : list (TableArg Row) :=
  fold_right insert_by_name [] args.

Fixpoint first_failed_check {Row : Type} (args : list (TableArg Row))
  (row : Row) : option StoreError :=
  match args with
  | [] => None
  | CheckConstraint _ holds name :: rest =>
      if holds row then first_failed_check rest row
      else Some (CheckViolation name)
  | UniqueConstraint _ _ _ :: rest => first_failed_check rest row
  end.

(** The CHECK constraint of [args] that [row] is reported to fail: the
    first one by name. *)
Definition check_violation {Row : Type} (args : list (TableArg Row)) (row : Row)
  : option StoreError :=
  first_failed_check (by_name args) row.

Definition pkey_violation {Row : Type} (T : Table Row) (others : list Row)
  (row : Row) : option StoreError :=
  if mem (pkey T row) (map (pkey T) others)
  then Some (UniqueViolation (tablename T ++ "_pkey")%string)
  else None.

(** The first UNIQUE constraint of [args] on which [row] collides with one
    of [others]. *)
Fixpoint unique_violation {Row : Type} (args : list (TableArg Row))
  (others : list Row) (row : Row) : option StoreError :=
  match args with
  | [] => None
  | UniqueConstraint _ key name :: rest =>
      if existsb (fun o => key_eqb (key o) (key row)) others
      then Some (UniqueViolation name)
      else unique_violation rest others row
  | CheckConstraint _ _ _ :: rest => unique_violation rest others row
  end.

(** The first foreign key of [row] that refers to no existing row. *)
Fixpoint fk_violation {Row : Type} (parent : string -> UUID -> bool)
  (fks : list (ForeignKeyColumn Row)) (row : Row) : option StoreError :=
  match fks with
  | [] => None
  | c :: rest =>
      if parent (target (fk c)) (fk_value c row)
      then fk_violation parent rest row
      else Some (ForeignKeyViolation (fk_column c))
  end.

(** The constraint, if any, that keeps [row], whose values fit the column
    types, out of a table holding [others]: CHECK constraints first, then
    the primary key and the UNIQUE constraints, then the foreign keys. *)
Definition violation {Row : Type} (T : Table Row)
  (parent : string -> UUID -> bool) (others : list Row) (row : Row)
  : option StoreError :=
  match check_violation (table_args T) row with
  | Some e => Some e
  | None =>
      match pkey_violation T others row with
      | Some e => Some e
      | None =>
          match unique_violation (table_args T) others row with
          | Some e => Some e
          | None => fk_violation parent (foreign_keys T) row
          end
      end
  end.

Definition insert_row {Row : Type} (T : Table Row)
  (parent : string -> UUID -> bool) (rows : list Row) (row : Row)
  : StoreError + list Row :=
  match violation T parent rows row with
  | Some e => inl e
  | None => inr (rows ++ [row])%list
  end.

Fixpoint replace_row {Row : Type} (T : Table Row) (k : UUID) (new : Row)
  (rows : list Row) : list Row :=
  match rows with
  | [] => []
  | r :: rest =>
      if N.eqb (pkey T r) k then new :: rest
      else r :: replace_row T k new rest
  end.

Definition without {Row : Type} (T : Table Row) (k : UUID) (rows : list Row)
  : list Row :=
  filter (fun r => negb (N.eqb (pkey T r) k)) rows.

(** [UPDATE ... WHERE id = k]: nothing happens when no row has that key. *)
Definition update_row {Row : Type} (T : Table Row)
  (parent : string -> UUID -> bool) (rows : list Row) (k : UUID)
  (change : Row -> Row) : StoreError + list Row :=
  match find (fun r => N.eqb (pkey T r) k) rows with
  | None => inr rows
  | Some old =>
      match violation T parent (without T k rows) (change old) with
      | Some e => inl e
      | None => inr (replace_row T k (change old) rows)
      end
  end.

(** What the removal of the row [k] of the table behind [tgt] does to the
    rows of a referring table, one foreign key after the other. The columns
    are [nullable=False], so SET NULL cannot be applied to a referring
    row. *)
Fixpoint on_parent_delete {Row : Type} (tgt : string) (k : UUID)
  (fks : list (ForeignKeyColumn Row)) (rows : list Row)
  : StoreError + list Row :=
  match fks with
  | [] => inr rows
  | c :: rest =>
      if String.eqb (target (fk c)) tgt then
        match ondelete (fk c) with
        | CASCADE =>
            on_parent_delete tgt k rest
              (filter (fun r => negb (N.eqb (fk_value c r) k)) rows)
        | SET_NULL =>
            if existsb (fun r => N.eqb (fk_value c r) k) rows
            then inl (NotNullViolation (fk_column c))
            else on_parent_delete tgt k rest rows
        | RESTRICT | NO_ACTION =>
            if existsb (fun r => N.eqb (fk_value c r) k) rows
            then inl (ForeignKeyViolation (fk_column c))
            else on_parent_delete tgt k rest rows
        end
      else on_parent_delete tgt k rest rows
  end.

Definition remove_key (k : UUID) (l : list UUID) : list UUID :=
  filter (fun x => negb (N.eqb x k)) l.

(** *** Statements *)

Definition insert_ride (db : Database) (k : UUID) : StoreError + Database :=
  if mem k (rides db) then inl (UniqueViolation "rides_pkey")
  else inr (mkDatabase (rides db ++ [k])%list (users db) (bookings db) (reviews db)).

Definition insert_user (db : Database) (k : UUID) : StoreError + Database :=
  if mem k (users db) then inl (UniqueViolation "users_pkey")
  else inr (mkDatabase (rides db) (users db ++ [k])%list (bookings db) (reviews db)).

Definition delete_parent (tgt : string) (db : Database) (k : UUID)
  : StoreError + (list Booking.Row * list Review.Row) :=
  match on_parent_delete tgt k (foreign_keys Booking.table) (bookings db) with
  | inl e => inl e
  | inr bs =>
      match on_parent_delete tgt k (foreign_keys Review.table) (reviews db) with
      | inl e => inl e
      | inr rs => inr (bs, rs)
      end
  end.

Definition delete_ride (db : Database) (k : UUID) : StoreError + Database :=
  match delete_parent "rides.id" db k with
  | inl e => inl e
  | inr (bs, rs) => inr (mkDatabase (remove_key k (rides db)) (users db) bs rs)
  end.

Definition delete_user (db : Database) (k : UUID) : StoreError + Database :=
  match delete_parent "users.id" db k with
  | inl e => inl e
  | inr (bs, rs) => inr (mkDatabase (rides db) (remove_key k (users db)) bs rs)
  end.

Definition with_bookings (db : Database) (w : StoreError + list Booking.Row)
  : StoreError + Database :=
  match w with
  | inl e => inl e
  | inr bs => inr (mkDatabase (rides db) (users db) bs (reviews db))
  end.

Definition with_reviews (db : Database) (w : StoreError + list Review.Row)
  : StoreError + Database :=
  match w with
  | inl e => inl e
  | inr rs => inr (mkDatabase (rides db) (users db) (bookings db) rs)
  end.

Definition insert_booking (srv : Server) (db : Database) (b : Booking.Instance)
  : StoreError + Database :=
  match Booking.to_row srv b with
  | inl e => inl e
  | inr row =>
      with_bookings db
        (insert_row Booking.table (parent_exists db) (bookings db) row)
  end.

Definition update_booking (db : Database) (k : UUID) (b : Booking.Instance)
  : StoreError + Database :=
  match Booking.as_sent b with
  | inl e => inl e
  | inr sent =>
      with_bookings db
        (update_row Booking.table (parent_exists db) (bookings db) k
           (fun old => Booking.updated old sent))
  end.

Definition insert_review (srv : Server) (db : Database) (r : Review.Instance)
  : StoreError + Database :=
  match Review.to_row srv r with
  | inl e => inl e
  | inr row =>
      with_reviews db
        (insert_row Review.table (parent_exists db) (reviews db) row)
  end.

Definition update_review (db : Database) (k : UUID) (r : Review.Instance)
  : StoreError + Database :=
  match Review.as_sent r with
  | inl e => inl e
  | inr sent =>
      with_reviews db
        (update_row Review.table (parent_exists db) (reviews db) k
           (fun old => Review.updated old sent))
  end.

Inductive Statement : Type :=
| InsertRide (k : UUID)
| InsertUser (k : UUID)
| DeleteRide (k : UUID)
| DeleteUser (k : UUID)
| InsertBooking (srv : Server) (b : Booking.Instance)
| UpdateBooking (k : UUID) (b : Booking.Instance)
| DeleteBooking (k : UUID)
| InsertReview (srv : Server) (r : Review.Instance)
| UpdateReview (k : UUID) (r : Review.Instance)
| DeleteReview (k : UUID).

Definition execute (db : Database) (st : Statement) : StoreError + Database :=
  match st with
  | InsertRide k => insert_ride db k
  | InsertUser k => insert_user db k
  | DeleteRide k => delete_ride db k
  | DeleteUser k => delete_user db k
  | InsertBooking srv b => insert_booking srv db b
  | UpdateBooking k b => update_booking db k b
  | DeleteBooking k =>
      inr (mkDatabase (rides db) (users db)
             (without Booking.table k (bookings db)) (reviews db))
  | InsertReview srv r => insert_review srv db r
  | UpdateReview k r => update_review db k r
  | DeleteReview k =>
      inr (mkDatabase (rides db) (users db) (bookings db)
             (without Review.table k (reviews db)))
  end.

(** A statement that fails leaves the database as it was. *)
Definition apply (db : Database) (st : Statement) : Database :=
  match execute db st with
  | inr db' => db'
  | inl _ => db
  end.

Definition run (sts : list Statement) (db : Database) : Database :=
  fold_left apply sts db.

(** *** What the constraints promise of a stored table *)

Definition checks_hold {Row : Type} (T : Table Row) (rows : list Row) : Prop :=
  Forall (fun row => check_violation (table_args T) row = None) rows.

Definition pkey_unique {Row : Type} (T : Table Row) (rows : list Row) : Prop :=
  NoDup (map (pkey T) rows).

Definition unique_arg {Row : Type} (rows : list Row) (a : TableArg Row) : Prop :=
  match a with
  | UniqueConstraint _ key _ => NoDup (map key rows)
  | CheckConstraint _ _ _ => True
  end.

Definition uniques_hold {Row : Type} (T : Table Row) (rows : list Row) : Prop :=
  Forall (unique_arg rows) (table_args T).

Definition references_exist {Row : Type} (T : Table Row) (db : Database)
  (rows : list Row) : Prop :=
  Forall (fun row => fk_violation (parent_exists db) (foreign_keys T) row = None)
         rows.

Definition table_ok {Row : Type} (T : Table Row) (db : Database)
  (rows : list Row) : Prop :=
  checks_hold T rows /\ pkey_unique T rows /\ uniques_hold T rows
  /\ references_exist T db rows.

Definition consistent (db : Database) : Prop :=
  table_ok Booking.table db (bookings db) /\ table_ok Review.table db (reviews db).

(** No stored booking or review refers to a ride or a user that does not
    exist. *)
Definition no_orphans (db : Database) : Prop :=
  (forall b, In b (bookings db) ->
     In (Booking.ride_id b) (rides db) /\ In (Booking.passenger_id b) (users db))
  /\ (forall r, In r (reviews db) ->
        In (Review.ride_id r) (rides db)
        /\ In (Review.reviewer_id r) (users db)
        /\ In (Review.reviewee_id r) (users db)).

End Models.

(** * Properties *)

(** ** Facts about the string operations *)

Section PyStrFacts.
Import PyStr.

Lemma startswith_app (p r : string) : startswith (p ++ r) p = true.
Proof.
  induction p as [|c p IH]; simpl; [reflexivity|].
  now rewrite Ascii.eqb_refl, IH.
Qed.

Lemma startswith_split (s p : string) :
  startswith s p = true -> s = p ++ drop (String.length p) s.
Proof.
  revert s; induction p as [|c p IH]; intros s H; simpl in *.
  - reflexivity.
  - destruct s as [|d s]; [discriminate|].
    apply andb_true_iff in H as [Hc Hp].
    apply Ascii.eqb_eq in Hc; subst d.
    simpl. f_equal. now apply IH.
Qed.

Lemma startswith_prefix (a b p : string) :
  startswith a p = true -> startswith (a ++ b) p = true.
Proof.
  revert a; induction p as [|c p IH]; intros a H; simpl in *; [reflexivity|].
  destruct a as [|d a]; [discriminate|]. simpl.
  apply andb_true_iff in H as [Hc Hp].
  now rewrite Hc, IH.
Qed.

Lemma contains_app_r (sub a b : string) :
  contains sub b = true -> contains sub (a ++ b) = true.
Proof.
  intros H. induction a as [|c a IH]; simpl; [exact H|].
  change (contains sub (a ++ b)) with (contains sub (a ++ b)).
  rewrite IH. apply orb_true_r.
Qed.

Lemma contains_startswith (sub s : string) :
  startswith s sub = true -> contains sub s = true.
Proof. intros H. destruct s; simpl in *; rewrite H; reflexivity. Qed.

(** [s.split(sep)] is never empty, and its first piece is what precedes the
    first occurrence of [sep]. *)
Lemma split_item0 (s sep : string) :
  item0 (split s sep) = Some (before_first sep s).
Proof.
  unfold split. induction s as [|c s IH]; [reflexivity|].
  cbn [split_from before_first].
  destruct (startswith (String c s) sep); [reflexivity|].
  destruct (split_from sep 0 s) as [|piece rest]; [discriminate|].
  simpl in IH. injection IH as ->. reflexivity.
Qed.

Lemma before_first_prefix (sep s : string) :
  exists rest, s = before_first sep s ++ rest.
Proof.
  induction s as [|c s [rest IH]]; [now exists ""|].
  cbn [before_first].
  destruct (startswith (String c s) sep).
  - now exists (String c s).
  - exists rest. simpl. now rewrite <- IH.
Qed.

(** When [sep] occurs in [s], the first piece is followed by [sep]. *)
Lemma before_first_split (sep s : string) :
  contains sep s = true ->
  exists rest, s = before_first sep s ++ sep ++ rest.
Proof.
  induction s as [|c s IH]; intros H.
  - simpl in H. rewrite orb_false_r in H.
    destruct sep; [now exists "" | discriminate].
  - cbn [before_first contains] in *.
    destruct (startswith (String c s) sep) eqn:E.
    + exists (drop (String.length sep) (String c s)). simpl.
      now apply startswith_split.
    + simpl in H. destruct (IH H) as [rest Hr].
      exists rest. simpl. now rewrite <- Hr.
Qed.

(** The first piece holds no occurrence of a non-empty [sep]. *)
Lemma before_first_clean (sep s : string) :
  sep <> "" -> contains sep (before_first sep s) = false.
Proof.
  intros Hsep. induction s as [|c s IH].
  - simpl. destruct sep; [contradiction | reflexivity].
  - cbn [before_first].
    destruct (startswith (String c s) sep) eqn:E.
    + simpl. destruct sep; [contradiction | reflexivity].
    + cbn [contains]. rewrite IH, orb_false_r.
      destruct (startswith (String c (before_first sep s)) sep) eqn:E'; [|reflexivity].
      destruct (before_first_prefix sep s) as [rest Hr].
      apply (startswith_prefix _ rest) in E'. simpl in E'.
      rewrite <- Hr in E'. simpl in E. congruence.
Qed.

Lemma replace_from_skip (old new : string) (k : nat) (s : string) :
  replace_from old new k s = replace_from old new 0 (drop k s).
Proof.
  revert s; induction k as [|k IH]; intros s; [reflexivity|].
  destruct s as [|c s]; [reflexivity|]. simpl. apply IH.
Qed.

(** The two equations of [replace] on a non-empty string. *)
Lemma replace_match (s old new : string) :
  old <> "" -> startswith s old = true ->
  replace s old new = new ++ replace (drop (String.length old) s) old new.
Proof.
  intros Hold H. unfold replace.
  destruct s as [|c s].
  - destruct old; [contradiction | discriminate].
  - cbn [replace_from]. rewrite H, replace_from_skip.
    destruct old as [|o old]; [contradiction|]. simpl.
    now rewrite Nat.sub_0_r.
Qed.

Lemma replace_step (c : ascii) (s old new : string) :
  startswith (String c s) old = false ->
  replace (String c s) old new = String c (replace s old new).
Proof. intros H. unfold replace. cbn [replace_from]. now rewrite H. Qed.

End PyStrFacts.

(** ** The connection string *)

Section ConnectionString.
Import PyStr Db.

Lemma length_drop (n : nat) (s : string) :
  (String.length (drop n s) <= String.length s)%nat.
Proof.
  revert s; induction n as [|n IH]; intros [|c s]; simpl; try lia.
  specialize (IH s). lia.
Qed.

(** [replace] and the occurrences of a string [sub] that cannot overlap an
    occurrence of [old] or of [new]: both start with a character [p] that
    [sub] does not have, and [sub] starts nowhere inside them. *)
Section ReplaceKeepsOccurrences.

Variables (p : ascii) (old' new' sub : string).
Let old := String p old'.
Let new := String p new'.
Hypothesis p_not_in_sub :
  forallb (fun c => negb (Ascii.eqb c p)) (list_ascii_of_string sub) = true.
Hypothesis not_inside_old : forall r, contains sub (old ++ r) = contains sub r.
Hypothesis not_inside_new : forall r, contains sub (new ++ r) = contains sub r.

Lemma startswith_replace_without (q s : string) :
  forallb (fun c => negb (Ascii.eqb c p)) (list_ascii_of_string q) = true ->
  startswith (replace s old new) q = startswith s q.
Proof.
  revert s; induction q as [|c q IH]; intros s Hq; [reflexivity|].
  simpl in Hq. apply andb_true_iff in Hq as [Hc Hq].
  apply negb_true_iff in Hc.
  destruct s as [|d s]; [reflexivity|].
  destruct (startswith (String d s) old) eqn:E.
  - rewrite replace_match by (assumption || discriminate).
    assert (d = p) as ->.
    { unfold old in E. simpl in E. apply andb_true_iff in E as [E _].
      now apply Ascii.eqb_eq in E. }
    unfold new. simpl. rewrite Ascii.eqb_sym, Hc. reflexivity.
  - rewrite replace_step by exact E. simpl. now rewrite IH.
Qed.

Lemma contains_replace_upto (n : nat) (s : string) :
  (String.length s <= n)%nat ->
  contains sub (replace s old new) = contains sub s.
Proof.
  revert s; induction n as [|n IH]; intros s Hlen.
  - destruct s; [reflexivity | simpl in Hlen; lia].
  - destruct s as [|c s]; [reflexivity|].
    destruct (startswith (String c s) old) eqn:E.
    + rewrite replace_match by (assumption || discriminate).
      rewrite not_inside_new, IH.
      * rewrite (startswith_split _ _ E) at 2. now rewrite not_inside_old.
      * pose proof (length_drop (String.length old') s) as Hd.
        simpl in Hlen. unfold old. simpl. lia.
    + rewrite replace_step by exact E. cbn [contains].
      rewrite IH by (simpl in Hlen; lia). f_equal.
      rewrite <- (replace_step c s old new E).
      now apply startswith_replace_without.
Qed.

Lemma contains_replace (s : string) :
  contains sub (replace s old new) = contains sub s.
Proof. now apply (contains_replace_upto (String.length s)). Qed.

End ReplaceKeepsOccurrences.

(** The scheme rewrite neither adds nor removes an occurrence of the Render
    marker or of an sslmode marker. *)
Lemma rewrite_scheme_render (url : string) :
  contains "render.com" (rewrite_scheme url) = contains "render.com" url.
Proof.
  unfold rewrite_scheme. destruct (startswith url "postgresql://"); [|reflexivity].
  now apply (contains_replace "p" "ostgresql://" "ostgresql+asyncpg://").
Qed.

Lemma rewrite_scheme_qmark (url : string) :
  contains "?sslmode=" (rewrite_scheme url) = contains "?sslmode=" url.
Proof.
  unfold rewrite_scheme. destruct (startswith url "postgresql://"); [|reflexivity].
  now apply (contains_replace "p" "ostgresql://" "ostgresql+asyncpg://").
Qed.

Lemma rewrite_scheme_amp (url : string) :
  contains "&sslmode=" (rewrite_scheme url) = contains "&sslmode=" url.
Proof.
  unfold rewrite_scheme. destruct (startswith url "postgresql://"); [|reflexivity].
  now apply (contains_replace "p" "ostgresql://" "ostgresql+asyncpg://").
Qed.

Lemma split_head_eq (url marker : string) :
  split_head url marker = Returned (before_first marker url).
Proof. unfold split_head. now rewrite split_item0. Qed.

(** [strip_sslmode] never fails, and what it returns. *)
Lemma strip_sslmode_eq (u : string) :
  strip_sslmode u =
  Returned
    (if contains "render.com" u then
       if contains "?sslmode=" u then before_first "?sslmode=" u
       else if contains "&sslmode=" u then before_first "&sslmode=" u
       else u
     else u).
Proof.
  unfold strip_sslmode. rewrite !split_head_eq.
  destruct (contains "render.com" u), (contains "?sslmode=" u),
    (contains "&sslmode=" u); reflexivity.
Qed.

End ConnectionString.

(** ** Module import and the connection string (C7, C8, C10) *)

Section ModuleImport.
Import PyStr Db.

(** C7. When [DATABASE_URL] is absent from the environment, or empty, the
    import of the module fails with [ValueError]: no module state, and so no
    engine or session factory, comes into being. *)
Theorem load_module_requires_DATABASE_URL :
  forall (load_dotenv : Environ -> Environ) (environ : Environ),
    getenv (load_dotenv environ) "DATABASE_URL" = None \/
    getenv (load_dotenv environ) "DATABASE_URL" = Some "" ->
    load_module load_dotenv environ
    = Raised (mkExc ValueError "DATABASE_URL environment variable is required")
    /\ forall m, load_module load_dotenv environ <> Returned m.
Proof.
  intros load_dotenv environ H.
  assert (load_module load_dotenv environ
          = Raised (mkExc ValueError "DATABASE_URL environment variable is required")) as E.
  { unfold load_module. destruct H as [-> | ->]; reflexivity. }
  split; [exact E|]. intros m. rewrite E. discriminate.
Qed.

Lemma load_module_requires_DATABASE_URL_witness :
  getenv [("PATH", "/usr/bin"); ("DATABASE_URL", "")] "DATABASE_URL" = Some ""
  /\ load_module (fun e => e) [("PATH", "/usr/bin"); ("DATABASE_URL", "")]
     = Raised (mkExc ValueError "DATABASE_URL environment variable is required").
Proof.
  split; [reflexivity|].
  apply (load_module_requires_DATABASE_URL (fun e => e)
           [("PATH", "/usr/bin"); ("DATABASE_URL", "")]).
  right; reflexivity.
Defined.

(** What a successful import leaves in the module. *)
Lemma load_module_returned (load_dotenv : Environ -> Environ)
  (environ : Environ) (url : string) (m : ModuleState) :
  getenv (load_dotenv environ) "DATABASE_URL" = Some url ->
  load_module load_dotenv environ = Returned m ->
  m = mkModule url
        (if contains "render.com" url then
           if contains "?sslmode=" url then before_first "?sslmode=" (rewrite_scheme url)
           else if contains "&sslmode=" url then before_first "&sslmode=" (rewrite_scheme url)
           else rewrite_scheme url
         else rewrite_scheme url)
        None None false [].
Proof.
  intros Hget Hload. unfold load_module in Hload. rewrite Hget in Hload.
  destruct (negb (truthy url)); [discriminate|].
  rewrite strip_sslmode_eq in Hload.
  rewrite rewrite_scheme_render, rewrite_scheme_qmark, rewrite_scheme_amp in Hload.
  now injection Hload as <-.
Qed.

Lemma load_module_nonempty (load_dotenv : Environ -> Environ)
  (environ : Environ) (url : string) :
  getenv (load_dotenv environ) "DATABASE_URL" = Some url ->
  url <> "" ->
  exists m, load_module load_dotenv environ = Returned m.
Proof.
  intros Hget Hne. unfold load_module. rewrite Hget.
  destruct url; [contradiction|]. simpl negb. cbv iota.
  rewrite strip_sslmode_eq. eauto.
Qed.

(** What a successful [init_db] leaves in the module. *)
Lemma init_db_returned (engine_raises : string -> option PyExc)
  (m m' : ModuleState) :
  init_db engine_raises m = (m', Returned tt) ->
  m' = mkModule (DATABASE_URL m) (ASYNC_DATABASE_URL m)
         (Some (List.length (heap m)))
         (Some (mkSessionmaker (List.length (heap m)) "AsyncSession" false))
         true
         (heap m ++ [mkEngine (ASYNC_DATABASE_URL m) false 20 10 true 3600
                       (init_connect_args (ASYNC_DATABASE_URL m)) 0]).
Proof.
  unfold init_db. destruct (engine_raises (ASYNC_DATABASE_URL m)); intros H.
  - discriminate.
  - now injection H as <-.
Qed.

(** The adaptation of the connection string, as the code has it. A URL
    that starts with [postgresql://] has that
    prefix, and any later occurrence of [postgresql://], rewritten to
    [postgresql+asyncpg://]; any other URL is left as it is. When the URL
    contains [render.com] it is cut at the first [?sslmode=] or, if there is
    none, at the first [&sslmode=]. The engine is created with the resulting
    URL; when [render.com] stands in that resulting URL the engine gets
    [connect_args = {"ssl": True}], and a URL that does not contain
    [render.com] gets empty [connect_args]. *)
Theorem connection_string_adaptation :
  forall (load_dotenv : Environ -> Environ)
         (engine_raises : string -> option PyExc)
         (environ : Environ) (url : string) (m m' : ModuleState),
    getenv (load_dotenv environ) "DATABASE_URL" = Some url ->
    load_module load_dotenv environ = Returned m ->
    init_db engine_raises m = (m', Returned tt) ->
    (forall rest, url = "postgresql://" ++ rest ->
       rewrite_scheme url
       = "postgresql+asyncpg://"
         ++ replace rest "postgresql://" "postgresql+asyncpg://")
    /\ (startswith url "postgresql://" = false -> rewrite_scheme url = url)
    /\ (contains "render.com" url = true ->
        ASYNC_DATABASE_URL m =
          if contains "?sslmode=" url
          then before_first "?sslmode=" (rewrite_scheme url)
          else if contains "&sslmode=" url
               then before_first "&sslmode=" (rewrite_scheme url)
               else rewrite_scheme url)
    /\ (contains "render.com" url = false ->
        ASYNC_DATABASE_URL m = rewrite_scheme url)
    /\ exists addr engine,
         async_engine m' = Some addr
         /\ nth_error (heap m') addr = Some engine
         /\ engine_url engine = ASYNC_DATABASE_URL m
         /\ (contains "render.com" (ASYNC_DATABASE_URL m) = true ->
             connect_args engine = [("ssl", true)])
         /\ (contains "render.com" url = false -> connect_args engine = []).
Proof.
  intros load_dotenv engine_raises environ url m m' Hget Hload Hinit.
  pose proof (load_module_returned _ _ _ _ Hget Hload) as Hm.
  pose proof (init_db_returned _ _ _ Hinit) as Hm'.
  split; [|split; [|split; [|split]]].
  - intros rest ->. unfold rewrite_scheme.
    rewrite startswith_app.
    rewrite replace_match by (discriminate || apply startswith_app).
    reflexivity.
  - intros H. unfold rewrite_scheme. now rewrite H.
  - intros H. rewrite Hm. cbn [ASYNC_DATABASE_URL]. now rewrite H.
  - intros H. rewrite Hm. cbn [ASYNC_DATABASE_URL]. now rewrite H.
  - exists (List.length (heap m)),
      (mkEngine (ASYNC_DATABASE_URL m) false 20 10 true 3600
         (init_connect_args (ASYNC_DATABASE_URL m)) 0).
    rewrite Hm'. cbn [async_engine heap engine_url connect_args].
    split; [reflexivity|]. split; [|split; [reflexivity|split]].
    + rewrite nth_error_app2 by lia. now rewrite Nat.sub_diag.
    + intros H. unfold init_connect_args. now rewrite H.
    + intros H. rewrite Hm. cbn [ASYNC_DATABASE_URL]. rewrite H.
      unfold init_connect_args. now rewrite rewrite_scheme_render, H.
Qed.

Lemma connection_string_adaptation_example :
  exists m m',
    load_module (fun e => e)
      [("DATABASE_URL", "postgresql://fs:pw@dpg-1.oregon-postgres.render.com/fareshare?sslmode=require")]
    = Returned m
    /\ init_db (fun _ => None) m = (m', Returned tt)
    /\ ASYNC_DATABASE_URL m
       = "postgresql+asyncpg://fs:pw@dpg-1.oregon-postgres.render.com/fareshare"
    /\ exists addr engine,
         async_engine m' = Some addr /\
         nth_error (heap m') addr = Some engine /\
         connect_args engine = [("ssl", true)].
Proof.
  eexists. eexists.
  split; [reflexivity|]. split; [reflexivity|]. split; [reflexivity|].
  destruct (connection_string_adaptation (fun e => e) (fun _ => None)
              [("DATABASE_URL", "postgresql://fs:pw@dpg-1.oregon-postgres.render.com/fareshare?sslmode=require")]
              _ _ _ eq_refl eq_refl eq_refl)
    as (_ & _ & _ & _ & addr & engine & Ha & Hn & _ & Hc & _).
  exists addr, engine. split; [exact Ha|]. split; [exact Hn|].
  apply Hc. reflexivity.
Defined.

(** C8. The code departs from what it announces. For a URL that contains
    [render.com], the import removes the [sslmode] parameter, under the
    comment that SSL will be handled by engine parameters instead; but
    [init_db] looks for [render.com] in the URL that is left, and when
    [render.com] stood only after the [sslmode] marker it is gone with it.
    The engine is then created with empty [connect_args], as for a URL that
    never mentioned [render.com]: the [sslmode] parameter is lost and SSL is
    requested nowhere. *)
Theorem ssl_left_off_after_sslmode_cut :
  forall (load_dotenv : Environ -> Environ)
         (engine_raises : string -> option PyExc)
         (environ : Environ) (url : string) (m m' : ModuleState),
    getenv (load_dotenv environ) "DATABASE_URL" = Some url ->
    contains "render.com" url = true ->
    load_module load_dotenv environ = Returned m ->
    contains "render.com" (ASYNC_DATABASE_URL m) = false ->
    init_db engine_raises m = (m', Returned tt) ->
    (exists marker rest,
       (marker = "?sslmode=" \/ marker = "&sslmode=")
       /\ rewrite_scheme url = ASYNC_DATABASE_URL m ++ marker ++ rest)
    /\ exists addr engine,
         async_engine m' = Some addr
         /\ nth_error (heap m') addr = Some engine
         /\ engine_url engine = ASYNC_DATABASE_URL m
         /\ connect_args engine = [].
Proof.
  intros load_dotenv engine_raises environ url m m' Hget Hrender Hload Hgone Hinit.
  pose proof (load_module_returned _ _ _ _ Hget Hload) as Hm.
  pose proof (init_db_returned _ _ _ Hinit) as Hm'.
  rewrite Hrender in Hm. split.
  - destruct (contains "?sslmode=" url) eqn:Hq.
    + exists "?sslmode=". rewrite <- rewrite_scheme_qmark in Hq.
      destruct (before_first_split _ _ Hq) as [rest Hrest].
      exists rest. split; [now left|]. rewrite Hm. exact Hrest.
    + destruct (contains "&sslmode=" url) eqn:Ha.
      * exists "&sslmode=". rewrite <- rewrite_scheme_amp in Ha.
        destruct (before_first_split _ _ Ha) as [rest Hrest].
        exists rest. split; [now right|]. rewrite Hm. exact Hrest.
      * exfalso. rewrite Hm in Hgone. cbn [ASYNC_DATABASE_URL] in Hgone.
        rewrite rewrite_scheme_render in Hgone. congruence.
  - exists (List.length (heap m)),
      (mkEngine (ASYNC_DATABASE_URL m) false 20 10 true 3600
         (init_connect_args (ASYNC_DATABASE_URL m)) 0).
    rewrite Hm'. cbn [async_engine heap engine_url connect_args].
    split; [reflexivity|]. split; [|split; [reflexivity|]].
    + rewrite nth_error_app2 by lia. now rewrite Nat.sub_diag.
    + unfold init_connect_args. now rewrite Hgone.
Qed.

Lemma ssl_left_off_after_sslmode_cut_witness :
  exists m m' addr engine,
    load_module (fun e => e)
      [("DATABASE_URL",
        "postgresql://fs:pw@db.internal:5432/fareshare?sslmode=require&application_name=render.com")]
    = Returned m
    /\ init_db (fun _ => None) m = (m', Returned tt)
    /\ async_engine m' = Some addr
    /\ nth_error (heap m') addr = Some engine
    /\ engine_url engine = "postgresql+asyncpg://fs:pw@db.internal:5432/fareshare"
    /\ connect_args engine = [].
Proof.
  eexists. eexists.
  destruct (ssl_left_off_after_sslmode_cut (fun e => e) (fun _ => None)
              [("DATABASE_URL",
                "postgresql://fs:pw@db.internal:5432/fareshare?sslmode=require&application_name=render.com")]
              _ _ _ eq_refl eq_refl eq_refl eq_refl eq_refl)
    as (_ & addr & engine & Ha & Hn & Hu & Hc).
  exists addr, engine.
  split; [reflexivity|]. split; [reflexivity|].
  split; [exact Ha|]. split; [exact Hn|]. split; [exact Hu | exact Hc].
Defined.

(** The URL at which the claim fails: it contains [render.com], its
    [sslmode] parameter is removed, and yet the engine is created with empty
    [connect_args], because [render.com] stood after the [sslmode] marker
    and was cut off with it. *)
Lemma render_marker_cut_off_with_sslmode :
  contains "render.com"
    "postgresql://fs:pw@db.internal:5432/fareshare?sslmode=require&application_name=render.com"
  = true
  /\ exists m m',
       load_module (fun e => e)
         [("DATABASE_URL",
           "postgresql://fs:pw@db.internal:5432/fareshare?sslmode=require&application_name=render.com")]
       = Returned m
       /\ ASYNC_DATABASE_URL m = "postgresql+asyncpg://fs:pw@db.internal:5432/fareshare"
       /\ init_db (fun _ => None) m = (m', Returned tt)
       /\ heap m'
          = [mkEngine "postgresql+asyncpg://fs:pw@db.internal:5432/fareshare"
               false 20 10 true 3600 [] 0].
Proof.
  split; [reflexivity|].
  eexists. eexists.
  split; [reflexivity|]. split; [reflexivity|]. split; reflexivity.
Qed.

(** C10. For a connection string that contains [render.com] and an sslmode
    marker ([?sslmode=], or [&sslmode=] when there is no [?sslmode=]), the
    import succeeds and [ASYNC_DATABASE_URL] is the part of the rewritten URL
    before the first occurrence of the marker: the marker, the sslmode value
    and everything after them ([rest]) are dropped. *)
Theorem sslmode_strip_truncates :
  forall (load_dotenv : Environ -> Environ) (environ : Environ)
         (url marker : string),
    getenv (load_dotenv environ) "DATABASE_URL" = Some url ->
    contains "render.com" url = true ->
    (marker = "?sslmode=" /\ contains "?sslmode=" url = true) \/
    (marker = "&sslmode=" /\ contains "?sslmode=" url = false
       /\ contains "&sslmode=" url = true) ->
    exists m rest,
      load_module load_dotenv environ = Returned m
      /\ ASYNC_DATABASE_URL m = before_first marker (rewrite_scheme url)
      /\ rewrite_scheme url = ASYNC_DATABASE_URL m ++ marker ++ rest
      /\ contains marker (ASYNC_DATABASE_URL m) = false.
Proof.
  intros load_dotenv environ url marker Hget Hrender Hmarker.
  assert (url <> "") as Hne by (intros ->; discriminate).
  destruct (load_module_nonempty _ _ _ Hget Hne) as [m Hload].
  pose proof (load_module_returned _ _ _ _ Hget Hload) as Hm.
  rewrite Hrender in Hm.
  assert (ASYNC_DATABASE_URL m = before_first marker (rewrite_scheme url)
          /\ contains marker (rewrite_scheme url) = true /\ marker <> "")
    as (Hcut & Hin & Hmne).
  { destruct Hmarker as [(-> & Hq) | (-> & Hq & Ha)]; rewrite Hm;
      cbn [ASYNC_DATABASE_URL]; rewrite Hq; [|rewrite Ha];
      (split; [reflexivity|]); (split; [|discriminate]).
    - now rewrite rewrite_scheme_qmark.
    - now rewrite rewrite_scheme_amp. }
  destruct (before_first_split _ _ Hin) as [rest Hrest].
  exists m, rest. split; [exact Hload|]. split; [exact Hcut|].
  rewrite Hcut. split; [exact Hrest|].
  now apply before_first_clean.
Qed.

Lemma sslmode_strip_truncates_witness :
  exists m,
    load_module (fun e => e)
      [("DATABASE_URL",
        "postgresql://fs:pw@dpg-1.render.com/fareshare?sslmode=require&connect_timeout=10&application_name=api")]
    = Returned m
    /\ ASYNC_DATABASE_URL m = "postgresql+asyncpg://fs:pw@dpg-1.render.com/fareshare".
Proof.
  destruct (sslmode_strip_truncates (fun e => e)
              [("DATABASE_URL",
                "postgresql://fs:pw@dpg-1.render.com/fareshare?sslmode=require&connect_timeout=10&application_name=api")]
              _ "?sslmode=" eq_refl eq_refl (or_introl (conj eq_refl eq_refl)))
    as (m & rest & Hload & Hcut & _).
  exists m. split; [exact Hload|]. rewrite Hcut. reflexivity.
Defined.

End ModuleImport.

(** ** Sessions and the life of the process (C1, C2, C9) *)

Section Sessions.
Import Db.
Local Open Scope list_scope.

Variable session_raises : SessionCall -> list SessionCall -> option PyExc.

Lemma calls_call (c : SessionCall) (s : AsyncSession) :
  calls (fst (call session_raises c s)) = calls s ++ [c].
Proof. unfold call. now destruct (session_raises c (calls s)). Qed.

Lemma calls_and_finally (c : SessionCall) (sr : AsyncSession * result unit) :
  calls (fst (and_finally session_raises c sr)) = calls (fst sr) ++ [c].
Proof.
  unfold and_finally. rewrite <- calls_call.
  now destruct (call session_raises c (fst sr)) as [s1 [u|e]].
Qed.

(** The calls made between the end of the block and [close()]. *)
Lemma calls_except_try (body : Body) (s0 s1 : AsyncSession) (r1 : result unit) :
  body s0 = (s1, r1) ->
  calls (fst (except_Exception session_raises (try_suite session_raises body s0)))
  = calls s1 ++
    match r1 with
    | Returned _ =>
        match session_raises Commit (calls s1) with
        | None => [Commit]
        | Some e => if isinstance_Exception e then [Commit; Rollback] else [Commit]
        end
    | Raised e => if isinstance_Exception e then [Rollback] else []
    end.
Proof.
  intros Hbody. unfold try_suite. rewrite Hbody.
  destruct r1 as [u|e].
  - unfold call at 1.
    destruct (session_raises Commit (calls s1)) as [e|]; cbn [except_Exception fst].
    + destruct (isinstance_Exception e).
      * pose proof (calls_call Rollback
                      (mkSession (session_bind s1) (session_expire_on_commit s1)
                                 (statements s1) (calls s1 ++ [Commit]))) as H.
        destruct (call session_raises Rollback _) as [s2 [u2|e2]];
          cbn [fst calls] in *; rewrite H, <- app_assoc; reflexivity.
      * reflexivity.
    + reflexivity.
  - cbn [except_Exception]. destruct (isinstance_Exception e).
    + pose proof (calls_call Rollback s1) as H.
      destruct (call session_raises Rollback s1) as [s2 [u2|e2]];
        cbn [fst] in *; exact H.
    + cbn [fst]. now rewrite app_nil_r.
Qed.

(** How the statement completes when [rollback()], [close()] and
    [__aexit__] do not raise. *)
Lemma outcome_quiet_cleanup (body : Body) (s0 s1 : AsyncSession) (r1 : result unit) :
  body s0 = (s1, r1) ->
  (forall c done, c <> Commit -> session_raises c done = None) ->
  snd (and_finally session_raises AExit
         (and_finally session_raises Close
            (except_Exception session_raises (try_suite session_raises body s0))))
  = match r1 with
    | Returned _ =>
        match session_raises Commit (calls s1) with
        | None => Returned tt
        | Some e => Raised e
        end
    | Raised e => Raised e
    end.
Proof.
  intros Hbody Hquiet.
  assert (forall c sr, c <> Commit ->
            snd (and_finally session_raises c sr) = snd sr) as Hfin.
  { intros c sr Hc. unfold and_finally, call.
    now rewrite (Hquiet c _ Hc). }
  rewrite !Hfin by discriminate.
  unfold try_suite. rewrite Hbody. destruct r1 as [[]|e].
  - unfold call at 1.
    destruct (session_raises Commit (calls s1)) as [e|]; cbn [except_Exception snd];
      [|reflexivity].
    destruct (isinstance_Exception e); [|reflexivity].
    unfold call. now rewrite (Hquiet Rollback) by discriminate.
  - cbn [except_Exception]. destruct (isinstance_Exception e); [|reflexivity].
    unfold call. now rewrite (Hquiet Rollback) by discriminate.
Qed.

(** C1, as the code has it. Around a block run on a session of an
    initialised module: if the block completes, [commit()] is called exactly
    once; if the block raises an instance of [Exception], [rollback()] is
    called; if it raises an exception that is not an instance of [Exception]
    (a cancellation, say), neither is called; in every case [close()] is
    called exactly once, after them and before [__aexit__] ends the scope.
    When [rollback()], [close()] and [__aexit__] do not raise themselves, the
    statement completes as the block did: normally after a successful
    commit, and otherwise with the very exception that the block, or
    [commit()], raised. *)
Theorem scoped_session_contract :
  forall (m : ModuleState) (factory : async_sessionmaker) (body : Body)
         (s1 : AsyncSession) (r1 : result unit),
    async_session_factory m = Some factory ->
    body (new_session factory) = (s1, r1) ->
    exists s r mid,
      get_async_session session_raises m body = Yielded s r
      /\ calls s = calls s1 ++ mid ++ [Close; AExit]
      /\ count_occ SessionCall_eq_dec (mid ++ [Close; AExit]) Close = 1%nat
      /\ match r1 with
         | Returned _ =>
             count_occ SessionCall_eq_dec mid Commit = 1%nat
             /\ (session_raises Commit (calls s1) = None -> mid = [Commit])
         | Raised e =>
             mid = if isinstance_Exception e then [Rollback] else []
         end
      /\ ((forall c done, c <> Commit -> session_raises c done = None) ->
          r = match r1 with
              | Returned _ =>
                  match session_raises Commit (calls s1) with
                  | None => Returned tt
                  | Some e => Raised e
                  end
              | Raised e => Raised e
              end).
Proof.
  intros m factory body s1 r1 Hf Hbody.
  unfold get_async_session. rewrite Hf. cbv zeta.
  do 2 eexists.
  exists (match r1 with
          | Returned _ =>
              match session_raises Commit (calls s1) with
              | None => [Commit]
              | Some e => if isinstance_Exception e then [Commit; Rollback] else [Commit]
              end
          | Raised e => if isinstance_Exception e then [Rollback] else []
          end).
  split; [reflexivity|].
  split.
  { rewrite !calls_and_finally, (calls_except_try _ _ _ _ Hbody).
    now rewrite <- !app_assoc. }
  split.
  { destruct r1 as [u|e];
      [destruct (session_raises Commit (calls s1)) as [e|]|];
      try destruct (isinstance_Exception e); reflexivity. }
  split.
  { destruct r1 as [u|e]; [|reflexivity].
    split; [|intros ->; reflexivity].
    destruct (session_raises Commit (calls s1)) as [e|];
      try destruct (isinstance_Exception e); reflexivity. }
  intros Hquiet. now apply outcome_quiet_cleanup.
Qed.

(** The session factory is set by a completed [init_db] and by nothing
    else, and nothing unsets it. *)
Lemma factory_after_run (engine_raises : string -> option PyExc)
  (ops : list Op) (m : ModuleState) :
  async_session_factory (run engine_raises ops m) = None <->
  async_session_factory m = None /\ initialized_by engine_raises ops m = false.
Proof.
  revert m; induction ops as [|op ops IH]; intros m.
  - simpl. intuition.
  - unfold run in *. cbn [fold_left initialized_by]. rewrite IH.
    destruct op as [| |b]; cbn [step].
    + unfold init_db.
      destruct (engine_raises (ASYNC_DATABASE_URL m)); cbn [fst snd async_session_factory].
      * reflexivity.
      * split; [intros [H _]; discriminate | intros [_ H]; discriminate].
    + unfold close_db. destruct (async_engine m); reflexivity.
    + reflexivity.
Qed.

(** With the factory set, a session request runs the block on a session
    made by the factory. *)
Lemma get_async_session_runs_block (m : ModuleState)
  (factory : async_sessionmaker) (body : Body) :
  async_session_factory m = Some factory ->
  exists s r mid,
    get_async_session session_raises m body = Yielded s r
    /\ calls s = calls (fst (body (new_session factory))) ++ mid.
Proof.
  intros Hf.
  destruct (body (new_session factory)) as [s1 r1] eqn:Hbody.
  pose proof (calls_except_try body _ _ _ Hbody) as Hc.
  unfold get_async_session. rewrite Hf. cbv zeta.
  set (sr := except_Exception session_raises
               (try_suite session_raises body (new_session factory))) in *.
  exists (fst (and_finally session_raises AExit
                 (and_finally session_raises Close sr))),
         (snd (and_finally session_raises AExit
                 (and_finally session_raises Close sr))).
  eexists. split; [reflexivity|].
  rewrite !calls_and_finally, Hc. cbn [fst].
  rewrite <- !app_assoc. reflexivity.
Qed.

(** C2. From the state a successful import leaves, and through any
    sequence of [init_db], [close_db] and session requests: as long as no
    [init_db] has completed, a session request raises the not-initialized
    [RuntimeError] and the block is not run; once an [init_db] has completed,
    a session request runs the block on a session made by the factory. *)
Theorem session_needs_init_db :
  forall (load_dotenv : Environ -> Environ)
         (engine_raises : string -> option PyExc)
         (environ : Environ) (m : ModuleState) (ops : list Op) (body : Body),
    load_module load_dotenv environ = Returned m ->
    (initialized_by engine_raises ops m = false ->
     get_async_session session_raises (run engine_raises ops m) body
     = NotYielded (mkExc RuntimeError "Database not initialized. Call init_db() first."))
    /\ (initialized_by engine_raises ops m = true ->
        exists factory s r mid,
          async_session_factory (run engine_raises ops m) = Some factory
          /\ get_async_session session_raises (run engine_raises ops m) body
             = Yielded s r
          /\ calls s = calls (fst (body (new_session factory))) ++ mid).
Proof.
  intros load_dotenv engine_raises environ m ops body Hload.
  assert (async_session_factory m = None) as Hnone.
  { unfold load_module in Hload.
    destruct (getenv (load_dotenv environ) "DATABASE_URL") as [url|]; [|discriminate].
    destruct (negb (PyStr.truthy url)); [discriminate|].
    destruct (strip_sslmode (rewrite_scheme url)); [|discriminate].
    now injection Hload as <-. }
  pose proof (factory_after_run engine_raises ops m) as Hrun.
  split; intros Hinit.
  - unfold get_async_session.
    now rewrite (proj2 Hrun (conj Hnone Hinit)).
  - destruct (async_session_factory (run engine_raises ops m)) as [factory|] eqn:Hf.
    + destruct (get_async_session_runs_block _ _ body Hf) as (s & r & mid & Hget & Hcalls).
      exists factory, s, r, mid. auto.
    + destruct (proj1 Hrun eq_refl) as [_ H]. congruence.
Qed.

Lemma dispose_at_last (h : list AsyncEngine) (e : AsyncEngine) :
  dispose_at (List.length h) (h ++ [e])
  = h ++ [mkEngine (engine_url e) (echo e) (pool_size e) (max_overflow e)
            (pool_pre_ping e) (pool_recycle e) (connect_args e)
            (S (dispose_calls e))].
Proof. induction h as [|x h IH]; simpl; [reflexivity | now rewrite IH]. Qed.

(** C9. [close_db] changes neither [async_engine] nor
    [async_session_factory]. So after [init_db] and then [close_db], the
    factory is still set: a session request does not raise the
    not-initialized error but runs the block on a session made by that
    factory, whose engine is the one that has just been disposed. *)
Theorem close_db_keeps_globals :
  forall (engine_raises : string -> option PyExc) (m m' : ModuleState)
         (body : Body),
    async_engine (close_db m) = async_engine m
    /\ async_session_factory (close_db m) = async_session_factory m
    /\ (init_db engine_raises m = (m', Returned tt) ->
        exists factory engine s r mid,
          async_session_factory (close_db m') = Some factory
          /\ async_engine (close_db m') = Some (bind factory)
          /\ nth_error (heap (close_db m')) (bind factory) = Some engine
          /\ dispose_calls engine = 1%nat
          /\ session_bind (new_session factory) = bind factory
          /\ get_async_session session_raises (close_db m') body = Yielded s r
          /\ calls s = calls (fst (body (new_session factory))) ++ mid).
Proof.
  intros engine_raises m m' body.
  assert (forall x, async_engine (close_db x) = async_engine x
                    /\ async_session_factory (close_db x) = async_session_factory x)
    as Hkeep.
  { intros x. unfold close_db.
    destruct (async_engine x) eqn:E; split; cbn; congruence. }
  split; [apply Hkeep|]. split; [apply Hkeep|].
  intros Hinit. apply init_db_returned in Hinit.
  set (factory := mkSessionmaker (List.length (heap m)) "AsyncSession" false) in *.
  assert (async_session_factory (close_db m') = Some factory) as Hf.
  { rewrite (proj2 (Hkeep m')), Hinit. reflexivity. }
  destruct (get_async_session_runs_block _ _ body Hf) as (s & r & mid & Hget & Hcalls).
  exists factory,
    (mkEngine (ASYNC_DATABASE_URL m) false 20 10 true 3600
       (init_connect_args (ASYNC_DATABASE_URL m)) 1), s, r, mid.
  split; [exact Hf|].
  split; [rewrite (proj1 (Hkeep m')), Hinit; reflexivity|].
  split.
  { rewrite Hinit. unfold close_db. cbn [async_engine heap bind factory].
    rewrite dispose_at_last, nth_error_app2 by lia.
    now rewrite Nat.sub_diag. }
  split; [reflexivity|]. split; [reflexivity|]. split; assumption.
Qed.

End Sessions.

Section SessionExamples.
Import Db.
Local Open Scope list_scope.

Lemma scoped_session_contract_witness :
  (exists s r,
     get_async_session (fun _ _ => None)
       (mkModule "postgresql://fs:pw@localhost/fareshare"
          "postgresql+asyncpg://fs:pw@localhost/fareshare"
          (Some 0%nat) (Some (mkSessionmaker 0 "AsyncSession" false)) true
          [mkEngine "postgresql+asyncpg://fs:pw@localhost/fareshare"
             false 20 10 true 3600 [] 0])
       (fun s => (mkSession (session_bind s) (session_expire_on_commit s) 1 (calls s),
                  Raised (mkExc (OtherException "IntegrityError") "check_rating_range")))
     = Yielded s r
     /\ calls s = [Rollback; Close; AExit]
     /\ r = Raised (mkExc (OtherException "IntegrityError") "check_rating_range"))
  /\ (exists s r,
        get_async_session (fun _ _ => None)
          (mkModule "postgresql://fs:pw@localhost/fareshare"
             "postgresql+asyncpg://fs:pw@localhost/fareshare"
             (Some 0%nat) (Some (mkSessionmaker 0 "AsyncSession" false)) true
             [mkEngine "postgresql+asyncpg://fs:pw@localhost/fareshare"
                false 20 10 true 3600 [] 0])
          (fun s => (mkSession (session_bind s) (session_expire_on_commit s) 1 (calls s),
                     Returned tt))
        = Yielded s r
        /\ calls s = [Commit; Close; AExit]
        /\ r = Returned tt).
Proof.
  split.
  - destruct (scoped_session_contract (fun _ _ => None)
                (mkModule "postgresql://fs:pw@localhost/fareshare"
                   "postgresql+asyncpg://fs:pw@localhost/fareshare"
                   (Some 0%nat) (Some (mkSessionmaker 0 "AsyncSession" false)) true
                   [mkEngine "postgresql+asyncpg://fs:pw@localhost/fareshare"
                      false 20 10 true 3600 [] 0])
                (mkSessionmaker 0 "AsyncSession" false)
                (fun s => (mkSession (session_bind s) (session_expire_on_commit s) 1 (calls s),
                           Raised (mkExc (OtherException "IntegrityError") "check_rating_range")))
                _ _ eq_refl eq_refl)
      as (s & r & mid & Hget & Hcalls & _ & Hmid & Hr).
    exists s, r. split; [exact Hget|]. split.
    + rewrite Hcalls, Hmid. reflexivity.
    + apply Hr. intros c done _. reflexivity.
  - destruct (scoped_session_contract (fun _ _ => None)
                (mkModule "postgresql://fs:pw@localhost/fareshare"
                   "postgresql+asyncpg://fs:pw@localhost/fareshare"
                   (Some 0%nat) (Some (mkSessionmaker 0 "AsyncSession" false)) true
                   [mkEngine "postgresql+asyncpg://fs:pw@localhost/fareshare"
                      false 20 10 true 3600 [] 0])
                (mkSessionmaker 0 "AsyncSession" false)
                (fun s => (mkSession (session_bind s) (session_expire_on_commit s) 1 (calls s),
                           Returned tt))
                _ _ eq_refl eq_refl)
      as (s & r & mid & Hget & Hcalls & _ & (_ & Hmid) & Hr).
    exists s, r. split; [exact Hget|]. split.
    + rewrite Hcalls, (Hmid eq_refl). reflexivity.
    + apply Hr. intros c done _. reflexivity.
Defined.

(** C1 as stated fails for an exception that is not an instance of
    [Exception]: when the block is cancelled, the session is closed and the
    cancellation propagates, but [rollback()] is not called. *)
Lemma cancelled_block_is_not_rolled_back :
  get_async_session (fun _ _ => None)
    (mkModule "postgresql://fs:pw@localhost/fareshare"
       "postgresql+asyncpg://fs:pw@localhost/fareshare"
       (Some 0%nat) (Some (mkSessionmaker 0 "AsyncSession" false)) true
       [mkEngine "postgresql+asyncpg://fs:pw@localhost/fareshare"
          false 20 10 true 3600 [] 0])
    (fun s => (mkSession (session_bind s) (session_expire_on_commit s) 1 (calls s),
               Raised (mkExc (OtherBaseException "CancelledError") "")))
  = Yielded (mkSession 0 false 1 [Close; AExit])
            (Raised (mkExc (OtherBaseException "CancelledError") ""))
  /\ ~ In Rollback [Close; AExit].
Proof.
  split; [reflexivity|].
  intros [H|[H|[]]]; discriminate.
Qed.

Lemma session_needs_init_db_witness :
  (exists m,
     load_module (fun e => e) [("DATABASE_URL", "postgresql://fs:pw@localhost/fareshare")]
     = Returned m
     /\ get_async_session (fun _ _ => None)
          (run (fun _ => None) [OpClose; OpSession (fun s => (s, Returned tt))] m)
          (fun s => (s, Returned tt))
        = NotYielded (mkExc RuntimeError "Database not initialized. Call init_db() first."))
  /\ (exists m s r,
        load_module (fun e => e) [("DATABASE_URL", "postgresql://fs:pw@localhost/fareshare")]
        = Returned m
        /\ get_async_session (fun _ _ => None)
             (run (fun _ => None) [OpInit; OpClose] m) (fun s => (s, Returned tt))
           = Yielded s r).
Proof.
  split.
  - eexists. split; [reflexivity|].
    apply (proj1 (session_needs_init_db (fun _ _ => None) (fun e => e) (fun _ => None)
                    [("DATABASE_URL", "postgresql://fs:pw@localhost/fareshare")]
                    _ [OpClose; OpSession (fun s => (s, Returned tt))]
                    (fun s => (s, Returned tt)) eq_refl)).
    reflexivity.
  - destruct (proj2 (session_needs_init_db (fun _ _ => None) (fun e => e) (fun _ => None)
                       [("DATABASE_URL", "postgresql://fs:pw@localhost/fareshare")]
                       _ [OpInit; OpClose] (fun s => (s, Returned tt)) eq_refl)
                eq_refl)
      as (factory & s & r & mid & _ & Hget & _).
    eexists. exists s, r. split; [reflexivity|]. exact Hget.
Defined.

Lemma close_db_keeps_globals_witness :
  exists m' factory,
    init_db (fun _ => None)
      (mkModule "postgresql://fs:pw@localhost/fareshare"
         "postgresql+asyncpg://fs:pw@localhost/fareshare" None None false [])
    = (m', Returned tt)
    /\ async_session_factory (close_db m') = Some factory
    /\ exists s r,
         get_async_session (fun _ _ => None) (close_db m') (fun s => (s, Returned tt))
         = Yielded s r.
Proof.
  eexists.
  destruct (proj2 (proj2 (close_db_keeps_globals (fun _ _ => None) (fun _ => None)
              (mkModule "postgresql://fs:pw@localhost/fareshare"
                 "postgresql+asyncpg://fs:pw@localhost/fareshare" None None false [])
              _ (fun s => (s, Returned tt)))) eq_refl)
    as (factory & engine & s & r & mid & Hf & _ & _ & _ & _ & Hget & _).
  exists factory. split; [reflexivity|]. split; [exact Hf|].
  exists s, r. exact Hget.
Defined.

End SessionExamples.

(** ** The store: constraints as invariants of the tables *)

Section StoreFacts.
Import Models.
Local Open Scope list_scope.

Lemma key_eqb_eq (a b : list UUID) : key_eqb a b = true <-> a = b.
Proof.
  revert b; induction a as [|x a IH]; intros [|y b]; simpl;
    try (split; (reflexivity || discriminate)).
  rewrite andb_true_iff, N.eqb_eq, IH.
  split; [intros [-> ->]; reflexivity | intros H; injection H; auto].
Qed.

Lemma mem_In (k : UUID) (l : list UUID) : mem k l = true <-> In k l.
Proof.
  unfold mem. rewrite existsb_exists. split.
  - intros (x & Hx & E). apply N.eqb_eq in E. now subst.
  - intros H. exists k. split; [exact H | apply N.eqb_refl].
Qed.

Variable Row : Type.
Variable T : Table Row.

Lemma first_failed_check_kind (args : list (TableArg Row)) (row : Row)
  (e : StoreError) :
  first_failed_check args row = Some e -> is_check_violation e = true.
Proof.
  induction args as [|[sql holds name | cols key name] args IH]; simpl.
  - discriminate.
  - destruct (holds row); [exact IH | intros H; now injection H as <-].
  - exact IH.
Qed.

Lemma check_violation_kind (args : list (TableArg Row)) (row : Row)
  (e : StoreError) :
  check_violation args row = Some e -> is_check_violation e = true.
Proof. apply first_failed_check_kind. Qed.

(** A row that fails a CHECK constraint is kept out whatever else holds. *)
Lemma violation_of_check (parent : string -> UUID -> bool) (others : list Row)
  (row : Row) (e : StoreError) :
  check_violation (table_args T) row = Some e ->
  violation T parent others row = Some e.
Proof. intros H. unfold violation. now rewrite H. Qed.

Lemma violation_None (parent : string -> UUID -> bool) (others : list Row)
  (row : Row) :
  violation T parent others row = None <->
  check_violation (table_args T) row = None
  /\ pkey_violation T others row = None
  /\ unique_violation (table_args T) others row = None
  /\ fk_violation parent (foreign_keys T) row = None.
Proof.
  unfold violation.
  destruct (check_violation (table_args T) row),
    (pkey_violation T others row),
    (unique_violation (table_args T) others row);
    intuition discriminate.
Qed.

Lemma pkey_violation_None (others : list Row) (row : Row) :
  pkey_violation T others row = None <-> ~ In (pkey T row) (map (pkey T) others).
Proof.
  unfold pkey_violation. rewrite <- mem_In.
  destruct (mem (pkey T row) (map (pkey T) others)); split;
    congruence || discriminate || auto.
Qed.

Lemma unique_violation_None (args : list (TableArg Row)) (others : list Row)
  (row : Row) :
  unique_violation args others row = None <->
  Forall (fun a => match a with
                   | UniqueConstraint _ key _ => ~ In (key row) (map key others)
                   | CheckConstraint _ _ _ => True
                   end) args.
Proof.
  induction args as [|[sql holds name | cols key name] args IH]; simpl.
  - split; auto.
  - rewrite IH. split; [auto | intros H; now inversion H].
  - destruct (existsb (fun o => key_eqb (key o) (key row)) others) eqn:E.
    + split; [discriminate|]. intros H. inversion H as [|? ? Hk _]; subst.
      exfalso. apply Hk. apply existsb_exists in E as (o & Ho & Eo).
      apply key_eqb_eq in Eo. rewrite <- Eo. now apply in_map.
    + rewrite IH. split; [|intros H; now inversion H].
      intros H. constructor; [|exact H].
      intros Hin. apply in_map_iff in Hin as (o & Eo & Ho).
      assert (existsb (fun o => key_eqb (key o) (key row)) others = true) as C.
      { apply existsb_exists. exists o. split; [exact Ho | now apply key_eqb_eq]. }
      congruence.
Qed.

(** Removing rows cannot make two keys collide. *)
Lemma NoDup_map_filter (B : Type) (key : Row -> B) (keep : Row -> bool)
  (rows : list Row) :
  NoDup (map key rows) -> NoDup (map key (filter keep rows)).
Proof.
  induction rows as [|r rows IH]; simpl; intros H; [constructor|].
  inversion H as [|? ? Hn Hd]; subst.
  destruct (keep r); [|auto]. simpl. constructor; [|auto].
  intros Hin. apply Hn. apply in_map_iff in Hin as (x & E & Hx).
  apply filter_In in Hx as [Hx _]. rewrite <- E. now apply in_map.
Qed.

Lemma NoDup_map_snoc (B : Type) (key : Row -> B) (rows : list Row) (row : Row) :
  NoDup (map key rows) -> ~ In (key row) (map key rows) ->
  NoDup (map key (rows ++ [row])).
Proof.
  intros Hd Hn. rewrite map_app. simpl.
  apply NoDup_Add with (a := key row) (l := map key rows).
  - rewrite <- (app_nil_r (map key rows)) at 1. apply Add_app.
  - split; assumption.
Qed.

(** Where the row with key [k] stands in a table with a primary key. *)
Lemma find_row_split (k : UUID) (new : Row) (rows : list Row) (old : Row) :
  pkey_unique T rows ->
  find (fun r => N.eqb (pkey T r) k) rows = Some old ->
  exists l1 l2,
    rows = l1 ++ old :: l2
    /\ pkey T old = k
    /\ without T k rows = l1 ++ l2
    /\ replace_row T k new rows = l1 ++ new :: l2.
Proof.
  unfold pkey_unique, without.
  induction rows as [|r rows IH]; simpl; intros Hd Hf; [discriminate|].
  inversion Hd as [|? ? Hn Hd']; subst.
  destruct (N.eqb (pkey T r) k) eqn:E.
  - injection Hf as ->. apply N.eqb_eq in E.
    exists [], rows. simpl. repeat split; [exact E|].
    apply forallb_filter_id. apply forallb_forall. intros x Hx.
    apply negb_true_iff, N.eqb_neq. intros Ex. apply Hn.
    rewrite E, <- Ex. now apply in_map.
  - destruct (IH Hd' Hf) as (l1 & l2 & -> & Hk & Hw & Hr).
    exists (r :: l1), l2. simpl. rewrite Hw, Hr. auto.
Qed.

Lemma NoDup_map_replace (B : Type) (f : Row -> B) (l1 l2 : list Row)
  (old new : Row) :
  NoDup (map f (l1 ++ old :: l2)) ->
  ~ In (f new) (map f (l1 ++ l2)) ->
  NoDup (map f (l1 ++ new :: l2)).
Proof.
  rewrite !map_app. simpl. intros Hd Hn.
  apply NoDup_remove_1 in Hd.
  apply NoDup_Add with (a := f new) (l := map f l1 ++ map f l2).
  - apply Add_app.
  - split; assumption.
Qed.

End StoreFacts.

Section TableInvariant.
Import Models.
Local Open Scope list_scope.

Variable Row : Type.
Variable T : Table Row.

Lemma Forall_replace (P : Row -> Prop) (l1 l2 : list Row) (old new : Row) :
  Forall P (l1 ++ old :: l2) -> P new -> Forall P (l1 ++ new :: l2).
Proof.
  rewrite !Forall_app. intros [H1 H2] Hn. inversion H2; subst.
  split; [assumption | now constructor].
Qed.

Lemma uniques_hold_insert (args : list (TableArg Row)) (rows : list Row)
  (row : Row) :
  Forall (unique_arg rows) args ->
  unique_violation args rows row = None ->
  Forall (unique_arg (rows ++ [row])) args.
Proof.
  intros Hu Hv. apply unique_violation_None in Hv.
  induction args as [|a args IH]; [constructor|].
  inversion Hu; inversion Hv; subst.
  constructor; [|now apply IH].
  destruct a as [sql holds name | cols key name]; simpl in *; [exact I|].
  now apply NoDup_map_snoc.
Qed.

Lemma uniques_hold_replace (args : list (TableArg Row)) (l1 l2 : list Row)
  (old new : Row) :
  Forall (unique_arg (l1 ++ old :: l2)) args ->
  unique_violation args (l1 ++ l2) new = None ->
  Forall (unique_arg (l1 ++ new :: l2)) args.
Proof.
  intros Hu Hv. apply unique_violation_None in Hv.
  induction args as [|a args IH]; [constructor|].
  inversion Hu; inversion Hv; subst.
  constructor; [|now apply IH].
  destruct a as [sql holds name | cols key name]; simpl in *; [exact I|].
  now apply NoDup_map_replace with (old := old).
Qed.

Lemma uniques_hold_filter (args : list (TableArg Row)) (p : Row -> bool)
  (rows : list Row) :
  Forall (unique_arg rows) args -> Forall (unique_arg (filter p rows)) args.
Proof.
  apply Forall_impl. intros [sql holds name | cols key name]; simpl; [auto|].
  apply NoDup_map_filter.
Qed.

(** An accepted INSERT keeps the table within its constraints. *)
Lemma table_ok_insert (db : Database) (rows : list Row) (row : Row) :
  table_ok T db rows ->
  violation T (parent_exists db) rows row = None ->
  table_ok T db (rows ++ [row]).
Proof.
  intros (Hc & Hp & Hu & Hr) Hv.
  apply violation_None in Hv as (Vc & Vp & Vu & Vf).
  repeat split.
  - apply Forall_app. split; [exact Hc | now constructor].
  - apply NoDup_map_snoc; [exact Hp | now apply pkey_violation_None].
  - now apply uniques_hold_insert.
  - apply Forall_app. split; [exact Hr | now constructor].
Qed.

(** An accepted UPDATE keeps the table within its constraints. *)
Lemma table_ok_update (db : Database) (rows rows' : list Row) (k : UUID)
  (change : Row -> Row) :
  table_ok T db rows ->
  update_row T (parent_exists db) rows k change = inr rows' ->
  table_ok T db rows'.
Proof.
  intros Hok Hup. unfold update_row in Hup.
  destruct (find (fun r => N.eqb (pkey T r) k) rows) as [old|] eqn:Hf.
  - destruct (violation T (parent_exists db) (without T k rows) (change old))
      eqn:Hv; [discriminate|].
    injection Hup as <-.
    destruct Hok as (Hc & Hp & Hu & Hr).
    destruct (find_row_split _ T k (change old) rows old Hp Hf)
      as (l1 & l2 & E & _ & Hw & ->).
    rewrite Hw in Hv. apply violation_None in Hv as (Vc & Vp & Vu & Vf).
    unfold checks_hold, pkey_unique, uniques_hold, references_exist in *.
    rewrite E in Hc, Hp, Hu, Hr.
    repeat split.
    + now apply Forall_replace with (old := old).
    + apply NoDup_map_replace with (old := old); [exact Hp|].
      now apply pkey_violation_None.
    + now apply uniques_hold_replace with (old := old).
    + now apply Forall_replace with (old := old).
  - now injection Hup as <-.
Qed.

(** Removing rows keeps the table within its constraints. *)
Lemma table_ok_filter (db : Database) (p : Row -> bool) (rows : list Row) :
  table_ok T db rows -> table_ok T db (filter p rows).
Proof.
  intros (Hc & Hp & Hu & Hr). repeat split.
  - apply Forall_forall. intros x Hx. apply filter_In in Hx as [Hx _].
    revert x Hx. now apply Forall_forall.
  - now apply NoDup_map_filter.
  - now apply uniques_hold_filter.
  - apply Forall_forall. intros x Hx. apply filter_In in Hx as [Hx _].
    revert x Hx. now apply Forall_forall.
Qed.

(** A change of the referenced tables under which the rows still find what
    they refer to. *)
Lemma table_ok_parents (db db' : Database) (rows : list Row) :
  table_ok T db rows ->
  references_exist T db' rows ->
  table_ok T db' rows.
Proof. intros (Hc & Hp & Hu & _) Hr. repeat split; assumption. Qed.

Lemma fk_violation_mono (parent parent' : string -> UUID -> bool)
  (fks : list (ForeignKeyColumn Row)) (row : Row) :
  (forall tgt k, parent tgt k = true -> parent' tgt k = true) ->
  fk_violation parent fks row = None ->
  fk_violation parent' fks row = None.
Proof.
  intros Hm. induction fks as [|c fks IH]; simpl; [reflexivity|].
  destruct (parent (target (fk c)) (fk_value c row)) eqn:E; [|discriminate].
  now rewrite (Hm _ _ E).
Qed.

End TableInvariant.

(** ** The two tables *)

Section Tables.
Import Models.
Local Open Scope list_scope.
Local Open Scope Z_scope.

(** The CHECK constraints of [bookings] are tested by name: the amount
    first, then the status, then the seats. *)
Lemma booking_check_order :
  map arg_name (by_name (table_args Booking.table))
  = ["check_amount_positive"; "check_booking_status";
     "check_seats_reserved_positive"]%string.
Proof. reflexivity. Qed.

Lemma booking_check_violation (row : Booking.Row) :
  check_violation (table_args Booking.table) row
  = if 0 <=? coefficient (Booking.amount_paid row) then
      if existsb (String.eqb (Booking.status row))
           ["pending"; "confirmed"; "cancelled"; "completed"]%string then
        if 0 <? Booking.seats_reserved row then None
        else Some (CheckViolation "check_seats_reserved_positive")
      else Some (CheckViolation "check_booking_status")
    else Some (CheckViolation "check_amount_positive").
Proof. reflexivity. Qed.

Lemma review_check_violation (row : Review.Row) :
  check_violation (table_args Review.table) row
  = if (1 <=? Review.rating row) && (Review.rating row <=? 5) then None
    else Some (CheckViolation "check_rating_range").
Proof. reflexivity. Qed.

(** Which CHECK constraint of [bookings] a row is reported to fail. *)
Lemma booking_check_failure (row : Booking.Row) :
  (coefficient (Booking.amount_paid row) < 0 ->
   check_violation (table_args Booking.table) row
   = Some (CheckViolation "check_amount_positive"))
  /\ (0 <= coefficient (Booking.amount_paid row) ->
      ~ In (Booking.status row)
          ["pending"; "confirmed"; "cancelled"; "completed"]%string ->
      check_violation (table_args Booking.table) row
      = Some (CheckViolation "check_booking_status"))
  /\ (0 <= coefficient (Booking.amount_paid row) ->
      In (Booking.status row)
        ["pending"; "confirmed"; "cancelled"; "completed"]%string ->
      Booking.seats_reserved row <= 0 ->
      check_violation (table_args Booking.table) row
      = Some (CheckViolation "check_seats_reserved_positive")).
Proof.
  rewrite booking_check_violation.
  assert (existsb (String.eqb (Booking.status row))
            ["pending"; "confirmed"; "cancelled"; "completed"]%string = true
          <-> In (Booking.status row)
                ["pending"; "confirmed"; "cancelled"; "completed"]%string) as Hs.
  { rewrite existsb_exists. split.
    - intros (x & Hx & E). apply String.eqb_eq in E. now subst.
    - intros H. exists (Booking.status row). split; [exact H | apply String.eqb_refl]. }
  destruct (0 <=? coefficient (Booking.amount_paid row)) eqn:Ea.
  - apply Z.leb_le in Ea.
    destruct (existsb (String.eqb (Booking.status row)) _) eqn:Es.
    + destruct (0 <? Booking.seats_reserved row) eqn:Ez.
      * apply Z.ltb_lt in Ez. split; [lia|]. split; [|lia].
        intros _ H. exfalso. apply H. now apply Hs.
      * split; [lia|]. split; [|reflexivity].
        intros _ H. exfalso. apply H. now apply Hs.
    + split; [lia|]. split; [reflexivity|].
      intros _ H. apply Hs in H. discriminate.
  - apply Z.leb_gt in Ea. split; [reflexivity|]. split; lia.
Qed.

(** The three CHECK constraints of [bookings], spelled out. *)
Lemma booking_checks (row : Booking.Row) :
  check_violation (table_args Booking.table) row = None <->
  0 < Booking.seats_reserved row
  /\ 0 <= coefficient (Booking.amount_paid row)
  /\ In (Booking.status row) ["pending"; "confirmed"; "cancelled"; "completed"]%string.
Proof.
  rewrite booking_check_violation.
  assert (existsb (String.eqb (Booking.status row))
            ["pending"; "confirmed"; "cancelled"; "completed"]%string = true
          <-> In (Booking.status row)
                ["pending"; "confirmed"; "cancelled"; "completed"]%string) as Hs.
  { rewrite existsb_exists. split.
    - intros (x & Hx & E). apply String.eqb_eq in E. now subst.
    - intros H. exists (Booking.status row). split; [exact H | apply String.eqb_refl]. }
  rewrite <- Hs, <- Z.ltb_lt, <- Z.leb_le.
  destruct (0 <? Booking.seats_reserved row),
    (0 <=? coefficient (Booking.amount_paid row)),
    (existsb (String.eqb (Booking.status row))
       ["pending"; "confirmed"; "cancelled"; "completed"]%string);
    intuition discriminate.
Qed.

(** The CHECK constraint of [reviews], spelled out. *)
Lemma review_checks (row : Review.Row) :
  check_violation (table_args Review.table) row = None <->
  1 <= Review.rating row <= 5.
Proof.
  rewrite review_check_violation.
  rewrite <- Z.leb_le, <- (Z.leb_le (Review.rating row)).
  destruct (1 <=? Review.rating row), (Review.rating row <=? 5);
    intuition discriminate.
Qed.


(** The foreign keys of a booking and of a review, spelled out. *)
Lemma booking_references (db : Database) (row : Booking.Row) :
  fk_violation (parent_exists db) (foreign_keys Booking.table) row = None <->
  In (Booking.ride_id row) (rides db) /\ In (Booking.passenger_id row) (users db).
Proof.
  rewrite <- !mem_In.
  cbn. destruct (mem (Booking.ride_id row) (rides db)),
    (mem (Booking.passenger_id row) (users db)); intuition discriminate.
Qed.

Lemma review_references (db : Database) (row : Review.Row) :
  fk_violation (parent_exists db) (foreign_keys Review.table) row = None <->
  In (Review.ride_id row) (rides db)
  /\ In (Review.reviewer_id row) (users db)
  /\ In (Review.reviewee_id row) (users db).
Proof.
  rewrite <- !mem_In.
  cbn. destruct (mem (Review.ride_id row) (rides db)),
    (mem (Review.reviewer_id row) (users db)),
    (mem (Review.reviewee_id row) (users db)); intuition discriminate.
Qed.

(** The unique constraint of [reviews], spelled out. *)
Lemma review_unique (rows : list Review.Row) :
  uniques_hold Review.table rows <->
  NoDup (map (fun r => [Review.ride_id r; Review.reviewer_id r; Review.reviewee_id r])
             rows).
Proof.
  unfold uniques_hold. cbn [table_args Review.table Review.__table_args__].
  split.
  - intros H. inversion H as [|? ? _ H']; subst. inversion H'; subst. assumption.
  - intros H. repeat constructor. exact H.
Qed.

(** With every foreign key declared [ondelete="CASCADE"], the removal of a
    ride or of a user is never refused, and removes the referring rows. *)
Lemma delete_ride_eq (db : Database) (k : UUID) :
  delete_ride db k
  = inr (mkDatabase (remove_key k (rides db)) (users db)
           (filter (fun b => negb (N.eqb (Booking.ride_id b) k)) (bookings db))
           (filter (fun r => negb (N.eqb (Review.ride_id r) k)) (reviews db))).
Proof. reflexivity. Qed.

Lemma delete_user_eq (db : Database) (k : UUID) :
  delete_user db k
  = inr (mkDatabase (rides db) (remove_key k (users db))
           (filter (fun b => negb (N.eqb (Booking.passenger_id b) k)) (bookings db))
           (filter (fun r => negb (N.eqb (Review.reviewee_id r) k))
              (filter (fun r => negb (N.eqb (Review.reviewer_id r) k)) (reviews db)))).
Proof. reflexivity. Qed.

Lemma In_remove_key (x k : UUID) (l : list UUID) :
  In x (remove_key k l) <-> In x l /\ x <> k.
Proof.
  unfold remove_key. rewrite filter_In, negb_true_iff, N.eqb_neq. tauto.
Qed.

End Tables.

Section Consistency.
Import Models.
Local Open Scope list_scope.

Lemma table_ok_more_parents (Row : Type) (T : Table Row) (db db' : Database)
  (rows : list Row) :
  (forall x, In x (rides db) -> In x (rides db')) ->
  (forall x, In x (users db) -> In x (users db')) ->
  table_ok T db rows -> table_ok T db' rows.
Proof.
  intros Hrides Husers Hok. apply (table_ok_parents _ _ db); [exact Hok|].
  destruct Hok as (_ & _ & _ & Hr).
  revert Hr. apply Forall_impl. intros row.
  apply fk_violation_mono. intros tgt k. unfold parent_exists.
  destruct (String.eqb tgt "rides.id"); [|destruct (String.eqb tgt "users.id")];
    rewrite ?mem_In; auto.
Qed.

Lemma consistent_delete_ride (db : Database) (k : UUID) :
  consistent db ->
  consistent
    (mkDatabase (remove_key k (rides db)) (users db)
       (filter (fun b => negb (N.eqb (Booking.ride_id b) k)) (bookings db))
       (filter (fun r => negb (N.eqb (Review.ride_id r) k)) (reviews db))).
Proof.
  intros [Hb Hr]. split; cbn [bookings reviews].
  - apply (table_ok_parents _ _ db); [now apply table_ok_filter|].
    destruct Hb as (_ & _ & _ & Hb). apply Forall_forall. intros x Hx.
    apply filter_In in Hx as [Hx Hk].
    apply negb_true_iff, N.eqb_neq in Hk.
    pose proof (proj1 (Forall_forall _ _) Hb x Hx) as Hfk.
    apply booking_references in Hfk as [H1 H2].
    apply booking_references. cbn [rides users]. rewrite In_remove_key. auto.
  - apply (table_ok_parents _ _ db); [now apply table_ok_filter|].
    destruct Hr as (_ & _ & _ & Hr). apply Forall_forall. intros x Hx.
    apply filter_In in Hx as [Hx Hk].
    apply negb_true_iff, N.eqb_neq in Hk.
    pose proof (proj1 (Forall_forall _ _) Hr x Hx) as Hfk.
    apply review_references in Hfk as (H1 & H2 & H3).
    apply review_references. cbn [rides users]. rewrite In_remove_key. auto.
Qed.

Lemma consistent_delete_user (db : Database) (k : UUID) :
  consistent db ->
  consistent
    (mkDatabase (rides db) (remove_key k (users db))
       (filter (fun b => negb (N.eqb (Booking.passenger_id b) k)) (bookings db))
       (filter (fun r => negb (N.eqb (Review.reviewee_id r) k))
          (filter (fun r => negb (N.eqb (Review.reviewer_id r) k)) (reviews db)))).
Proof.
  intros [Hb Hr]. split; cbn [bookings reviews].
  - apply (table_ok_parents _ _ db); [now apply table_ok_filter|].
    destruct Hb as (_ & _ & _ & Hb). apply Forall_forall. intros x Hx.
    apply filter_In in Hx as [Hx Hk].
    apply negb_true_iff, N.eqb_neq in Hk.
    pose proof (proj1 (Forall_forall _ _) Hb x Hx) as Hfk.
    apply booking_references in Hfk as [H1 H2].
    apply booking_references. cbn [rides users]. rewrite In_remove_key. auto.
  - apply (table_ok_parents _ _ db); [now apply table_ok_filter, table_ok_filter|].
    destruct Hr as (_ & _ & _ & Hr). apply Forall_forall. intros x Hx.
    apply filter_In in Hx as [Hx Hk]. apply filter_In in Hx as [Hx Hk'].
    apply negb_true_iff, N.eqb_neq in Hk, Hk'.
    pose proof (proj1 (Forall_forall _ _) Hr x Hx) as Hfk.
    apply review_references in Hfk as (H1 & H2 & H3).
    apply review_references. cbn [rides users]. rewrite !In_remove_key. auto.
Qed.

(** Every statement, accepted or refused, keeps the database within the
    declared constraints. *)
Lemma consistent_apply (db : Database) (st : Statement) :
  consistent db -> consistent (apply db st).
Proof.
  intros Hok. unfold apply.
  destruct (execute db st) as [e|db'] eqn:Hex; [exact Hok|].
  destruct Hok as [Hb Hr].
  destruct st as [k|k|k|k|srv b|k b|k|srv r|k r|k]; cbn [execute] in Hex.
  - unfold insert_ride in Hex. destruct (mem k (rides db)); [discriminate|].
    injection Hex as <-.
    split; cbn [bookings reviews];
      [apply (table_ok_more_parents _ _ db) | apply (table_ok_more_parents _ _ db)];
      cbn [rides users]; auto; intros x Hx; apply in_or_app; auto.
  - unfold insert_user in Hex. destruct (mem k (users db)); [discriminate|].
    injection Hex as <-.
    split; cbn [bookings reviews];
      [apply (table_ok_more_parents _ _ db) | apply (table_ok_more_parents _ _ db)];
      cbn [rides users]; auto; intros x Hx; apply in_or_app; auto.
  - rewrite delete_ride_eq in Hex. injection Hex as <-.
    now apply consistent_delete_ride.
  - rewrite delete_user_eq in Hex. injection Hex as <-.
    now apply consistent_delete_user.
  - unfold insert_booking in Hex.
    destruct (Booking.to_row srv b) as [e|row]; [discriminate|].
    unfold insert_row in Hex.
    destruct (violation Booking.table (parent_exists db) (bookings db) row) eqn:Hv;
      [discriminate|].
    injection Hex as <-. split; cbn [bookings reviews].
    + apply (table_ok_more_parents _ _ db); cbn [rides users]; auto.
      now apply table_ok_insert.
    + apply (table_ok_more_parents _ _ db); cbn [rides users]; auto.
  - unfold update_booking in Hex.
    destruct (Booking.as_sent b) as [e|sent]; [discriminate|].
    destruct (update_row Booking.table (parent_exists db) (bookings db) k
                (fun old => Booking.updated old sent)) as [e|rows'] eqn:Hup;
      [discriminate|].
    injection Hex as <-. split; cbn [bookings reviews].
    + apply (table_ok_more_parents _ _ db); cbn [rides users]; auto.
      now apply (table_ok_update _ _ _ _ _ _ _ Hb Hup).
    + apply (table_ok_more_parents _ _ db); cbn [rides users]; auto.
  - injection Hex as <-. split; cbn [bookings reviews].
    + apply (table_ok_more_parents _ _ db); cbn [rides users]; auto.
      now apply table_ok_filter.
    + apply (table_ok_more_parents _ _ db); cbn [rides users]; auto.
  - unfold insert_review in Hex.
    destruct (Review.to_row srv r) as [e|row]; [discriminate|].
    unfold insert_row in Hex.
    destruct (violation Review.table (parent_exists db) (reviews db) row) eqn:Hv;
      [discriminate|].
    injection Hex as <-. split; cbn [bookings reviews].
    + apply (table_ok_more_parents _ _ db); cbn [rides users]; auto.
    + apply (table_ok_more_parents _ _ db); cbn [rides users]; auto.
      now apply table_ok_insert.
  - unfold update_review in Hex.
    destruct (Review.as_sent r) as [e|sent]; [discriminate|].
    destruct (update_row Review.table (parent_exists db) (reviews db) k
                (fun old => Review.updated old sent)) as [e|rows'] eqn:Hup;
      [discriminate|].
    injection Hex as <-. split; cbn [bookings reviews].
    + apply (table_ok_more_parents _ _ db); cbn [rides users]; auto.
    + apply (table_ok_more_parents _ _ db); cbn [rides users]; auto.
      now apply (table_ok_update _ _ _ _ _ _ _ Hr Hup).
  - injection Hex as <-. split; cbn [bookings reviews].
    + apply (table_ok_more_parents _ _ db); cbn [rides users]; auto.
    + apply (table_ok_more_parents _ _ db); cbn [rides users]; auto.
      now apply table_ok_filter.
Qed.

Lemma consistent_empty : consistent empty.
Proof.
  split; repeat split; cbn; repeat constructor.
Qed.

Lemma consistent_run (sts : list Statement) (db : Database) :
  consistent db -> consistent (run sts db).
Proof.
  revert db; induction sts as [|st sts IH]; intros db H; [exact H|].
  unfold run. cbn [fold_left]. apply IH. now apply consistent_apply.
Qed.

End Consistency.

(** ** Column types: what can be written at all *)

Section ColumnTypes.
Import Models.
Local Open Scope list_scope.
Local Open Scope Z_scope.

Lemma as_Integer_fits (z : Z) :
  - 2 ^ 31 <= z < 2 ^ 31 -> as_Integer z = Some z.
Proof.
  intros H. unfold as_Integer.
  assert ((- 2 ^ 31 <=? z) && (z <? 2 ^ 31) = true) as ->; [|reflexivity].
  apply andb_true_iff. split; [apply Z.leb_le | apply Z.ltb_lt]; lia.
Qed.

Lemma as_Integer_Some (z y : Z) :
  as_Integer z = Some y -> y = z /\ - 2 ^ 31 <= z < 2 ^ 31.
Proof.
  unfold as_Integer.
  destruct ((- 2 ^ 31 <=? z) && (z <? 2 ^ 31)) eqn:E; [|discriminate].
  intros H. injection H as <-. apply andb_true_iff in E as [E1 E2].
  apply Z.leb_le in E1. apply Z.ltb_lt in E2. lia.
Qed.

Lemma as_Integer_unfit (z : Z) :
  ~ - 2 ^ 31 <= z < 2 ^ 31 -> as_Integer z = None.
Proof.
  intros H. destruct (as_Integer z) as [y|] eqn:E; [|reflexivity].
  apply as_Integer_Some in E. tauto.
Qed.

Lemma as_Numeric_Some (precision scale : Z) (d y : Decimal) :
  as_Numeric precision scale d = Some y ->
  y = mkDecimal (rescale scale d) (- scale)
  /\ Z.abs (rescale scale d) < 10 ^ precision.
Proof.
  unfold as_Numeric.
  destruct (Z.abs (rescale scale d) <? 10 ^ precision) eqn:E; [|discriminate].
  intros H. injection H as <-. apply Z.ltb_lt in E. auto.
Qed.

Lemma as_Numeric_unfit (precision scale : Z) (d : Decimal) :
  10 ^ precision <= Z.abs (rescale scale d) -> as_Numeric precision scale d = None.
Proof.
  intros H. unfold as_Numeric.
  assert ((Z.abs (rescale scale d) <? 10 ^ precision) = false) as ->; [|reflexivity].
  apply Z.ltb_ge. exact H.
Qed.

(** An amount written with two decimals is stored as it is. *)
Lemma rescale_cents (h : Z) : rescale 2 (cents h) = h.
Proof. unfold rescale, cents. cbn. lia. Qed.

Lemma length_substring_le (n : nat) (s : string) :
  (String.length (String.substring 0 n s) <= n)%nat.
Proof.
  revert s; induction n as [|n IH]; intros [|c s]; cbn; try lia.
  specialize (IH s). lia.
Qed.

Lemma as_String_Some (n : nat) (s y : string) :
  as_String n s = Some y -> (String.length y <= n)%nat.
Proof.
  unfold as_String. destruct (String.length s <=? n)%nat eqn:E.
  - intros H. injection H as <-. now apply Nat.leb_le.
  - destruct (all_spaces _); [|discriminate].
    intros H. injection H as <-. apply length_substring_le.
Qed.

Lemma as_String_fits (n : nat) (s : string) :
  (String.length s <= n)%nat -> as_String n s = Some s.
Proof. intros H. unfold as_String. apply Nat.leb_le in H. now rewrite H. Qed.

Lemma as_String_status (s : string) :
  In s ["pending"; "confirmed"; "cancelled"; "completed"]%string ->
  as_String 20 s = Some s.
Proof.
  intros [<-|[<-|[<-|[<-|[]]]]]; reflexivity.
Qed.

Lemma typed_as_is (T : Type) (column : string) (c : Column T) (v : option T) :
  column_type c = as_is -> typed column c v = inr v.
Proof. intros H. unfold typed. destruct v; [rewrite H|]; reflexivity. Qed.

Lemma typed_inl (T : Type) (column : string) (c : Column T) (v : option T)
  (e : StoreError) :
  typed column c v = inl e -> e = DataError column.
Proof.
  unfold typed. destruct v as [x|]; [|discriminate].
  destruct (column_type c x); [discriminate|]. intros H. now injection H.
Qed.

Lemma typed_inr (T : Type) (column : string) (c : Column T) (v w : option T) :
  typed column c v = inr w ->
  match v with
  | Some x => column_type c x = w /\ column_type c x <> None
  | None => w = None
  end.
Proof.
  unfold typed. destruct v as [x|].
  - destruct (column_type c x); [|discriminate].
    intros H. injection H as <-. split; [reflexivity | discriminate].
  - intros H. now injection H as <-.
Qed.

(** *** Reviews *)

(** [rating] is the one value of a review that may fail to fit. *)
Lemma review_as_sent (r : Review.Instance) :
  Review.as_sent r
  = match Review.rating r with
    | Some z =>
        match as_Integer z with
        | Some _ => inr r
        | None => inl (DataError "rating")
        end
    | None => inr r
    end.
Proof.
  destruct r as [i rd er ee ra c t]. unfold Review.as_sent.
  rewrite (typed_as_is _ "id" Review.id_column),
    (typed_as_is _ "ride_id" Review.ride_id_column),
    (typed_as_is _ "reviewer_id" Review.reviewer_id_column),
    (typed_as_is _ "reviewee_id" Review.reviewee_id_column),
    (typed_as_is _ "created_at" Review.created_at_column) by reflexivity.
  cbn [Review.id Review.ride_id Review.reviewer_id Review.reviewee_id
       Review.rating Review.comment Review.created_at].
  destruct ra as [z|]; [|reflexivity].
  unfold typed. cbn [column_type Review.rating_column].
  destruct (as_Integer z) as [y|] eqn:E; [|reflexivity].
  apply as_Integer_Some in E as [-> _]. reflexivity.
Qed.

Lemma review_as_sent_inr (r sent : Review.Instance) :
  Review.as_sent r = inr sent ->
  sent = r /\ forall z, Review.rating r = Some z -> - 2 ^ 31 <= z < 2 ^ 31.
Proof.
  rewrite review_as_sent. destruct (Review.rating r) as [z|].
  - destruct (as_Integer z) as [y|] eqn:E; [|discriminate].
    intros H. injection H as <-. split; [reflexivity|].
    intros z' Hz. injection Hz as <-. now apply as_Integer_Some in E.
  - intros H. injection H as <-. split; [reflexivity | discriminate].
Qed.

Lemma review_as_sent_fits (r : Review.Instance) :
  (forall z, Review.rating r = Some z -> - 2 ^ 31 <= z < 2 ^ 31) ->
  Review.as_sent r = inr r.
Proof.
  intros H. rewrite review_as_sent. destruct (Review.rating r) as [z|]; [|reflexivity].
  now rewrite (as_Integer_fits z (H z eq_refl)).
Qed.


(** A review that becomes a row is made of values that fit. *)
Lemma review_to_row_fill (srv : Server) (r : Review.Instance) (row : Review.Row) :
  Review.to_row srv r = inr row ->
  Review.fill srv r = inr row
  /\ forall z, Review.rating r = Some z -> - 2 ^ 31 <= z < 2 ^ 31.
Proof.
  unfold Review.to_row. destruct (Review.as_sent r) as [e|sent] eqn:E; [discriminate|].
  apply review_as_sent_inr in E as [-> Hz]. auto.
Qed.

Lemma review_to_row_fits (srv : Server) (r : Review.Instance) :
  (forall z, Review.rating r = Some z -> - 2 ^ 31 <= z < 2 ^ 31) ->
  Review.to_row srv r = Review.fill srv r.
Proof. intros H. unfold Review.to_row. now rewrite (review_as_sent_fits r H). Qed.

(** What an accepted row holds of the object it was made from. *)
Lemma review_to_row_fields (srv : Server) (r : Review.Instance) (row : Review.Row) :
  Review.to_row srv r = inr row ->
  Review.ride_id r = Some (Review.ride_id row)
  /\ Review.reviewer_id r = Some (Review.reviewer_id row)
  /\ Review.reviewee_id r = Some (Review.reviewee_id row)
  /\ Review.rating r = Some (Review.rating row).
Proof.
  intros H. apply review_to_row_fill in H as [H _]. unfold Review.fill in H.
  destruct (required "id" Review.id_column srv (Review.id r)); [discriminate|].
  destruct (Review.ride_id r), (Review.reviewer_id r), (Review.reviewee_id r),
    (Review.rating r); try discriminate.
  cbn [required store_value] in H.
  destruct (required "created_at" Review.created_at_column srv (Review.created_at r));
    [discriminate|].
  now injection H as <-.
Qed.

(** *** Bookings *)

(** [seats_reserved], [amount_paid] and [status] are the values of a
    booking that may fail to fit, and are looked at in this order. *)
Lemma booking_as_sent (b : Booking.Instance) :
  Booking.as_sent b
  = match typed "seats_reserved" Booking.seats_reserved_column
            (Booking.seats_reserved b) with
    | inl e => inl e
    | inr v_seats =>
    match typed "amount_paid" Booking.amount_paid_column (Booking.amount_paid b) with
    | inl e => inl e
    | inr v_amount =>
    match typed "status" Booking.status_column (Booking.status b) with
    | inl e => inl e
    | inr v_status =>
        inr (Booking.mk (F := option) (Booking.id b) (Booking.ride_id b)
               (Booking.passenger_id b) v_seats v_amount v_status
               (Booking.booked_at b))
    end end end.
Proof.
  unfold Booking.as_sent.
  rewrite (typed_as_is _ "id" Booking.id_column),
    (typed_as_is _ "ride_id" Booking.ride_id_column),
    (typed_as_is _ "passenger_id" Booking.passenger_id_column),
    (typed_as_is _ "booked_at" Booking.booked_at_column) by reflexivity.
  reflexivity.
Qed.

Lemma booking_as_sent_inl (b : Booking.Instance) (e : StoreError) :
  Booking.as_sent b = inl e -> is_data_error e = true.
Proof.
  rewrite booking_as_sent.
  destruct (typed "seats_reserved" _ _) eqn:E1;
    [intros H; injection H as <-; now apply typed_inl in E1 as ->|].
  destruct (typed "amount_paid" _ _) eqn:E2;
    [intros H; injection H as <-; now apply typed_inl in E2 as ->|].
  destruct (typed "status" _ _) eqn:E3;
    [intros H; injection H as <-; now apply typed_inl in E3 as ->|].
  discriminate.
Qed.

(** The values that fit, as they are sent on. *)
Lemma booking_as_sent_inr (b sent : Booking.Instance) :
  Booking.as_sent b = inr sent ->
  Booking.id sent = Booking.id b
  /\ Booking.ride_id sent = Booking.ride_id b
  /\ Booking.passenger_id sent = Booking.passenger_id b
  /\ Booking.seats_reserved sent = Booking.seats_reserved b
  /\ Booking.booked_at sent = Booking.booked_at b
  /\ (forall z, Booking.seats_reserved b = Some z -> - 2 ^ 31 <= z < 2 ^ 31)
  /\ match Booking.amount_paid b with
     | Some d =>
         Booking.amount_paid sent = Some (mkDecimal (rescale 2 d) (-2))
         /\ Z.abs (rescale 2 d) < 10 ^ 6
     | None => Booking.amount_paid sent = None
     end
  /\ match Booking.status b with
     | Some s => Booking.status sent = as_String 20 s /\ as_String 20 s <> None
     | None => Booking.status sent = None
     end.
Proof.
  rewrite booking_as_sent.
  destruct (typed "seats_reserved" _ _) as [e|v_seats] eqn:E1; [discriminate|].
  destruct (typed "amount_paid" _ _) as [e|v_amount] eqn:E2; [discriminate|].
  destruct (typed "status" _ _) as [e|v_status] eqn:E3; [discriminate|].
  intros H. injection H as <-.
  apply typed_inr in E1, E2, E3.
  cbn [Booking.id Booking.ride_id Booking.passenger_id Booking.seats_reserved
       Booking.amount_paid Booking.status Booking.booked_at].
  cbn [column_type Booking.seats_reserved_column Booking.amount_paid_column
       Booking.status_column] in E1, E2, E3.
  split; [reflexivity|]. split; [reflexivity|]. split; [reflexivity|].
  assert (v_seats = Booking.seats_reserved b
          /\ forall z, Booking.seats_reserved b = Some z -> - 2 ^ 31 <= z < 2 ^ 31)
    as [Hs Hz].
  { destruct (Booking.seats_reserved b) as [z|].
    - destruct E1 as [E1 Hne]. destruct (as_Integer z) as [y|] eqn:Ez;
        [|contradiction].
      apply as_Integer_Some in Ez as [-> Hz]. split; [now rewrite <- E1|].
      intros z' Hz'. now injection Hz' as <-.
    - split; [exact E1 | discriminate]. }
  split; [exact Hs|]. split; [reflexivity|]. split; [exact Hz|]. split.
  - destruct (Booking.amount_paid b) as [d|]; [|exact E2].
    destruct E2 as [E2 Hne]. destruct (as_Numeric 6 2 d) as [y|] eqn:Ed;
      [|contradiction].
    apply as_Numeric_Some in Ed as [-> Hd]. split; [now rewrite <- E2 | exact Hd].
  - destruct (Booking.status b) as [s|]; [|exact E3].
    destruct E3 as [E3 Hne]. rewrite <- E3. split; [reflexivity | exact Hne].
Qed.

(** A number of seats that is not a 32-bit integer is refused before any
    other value is looked at. *)
Lemma booking_seats_unfit (b : Booking.Instance) (z : Z) :
  Booking.seats_reserved b = Some z -> ~ - 2 ^ 31 <= z < 2 ^ 31 ->
  Booking.as_sent b = inl (DataError "seats_reserved").
Proof.
  intros Hz H. rewrite booking_as_sent, Hz. unfold typed at 1.
  cbn [column_type Booking.seats_reserved_column].
  now rewrite (as_Integer_unfit z H).
Qed.

Lemma booking_amount_unfit (b : Booking.Instance) (d : Decimal) :
  Booking.amount_paid b = Some d -> 10 ^ 6 <= Z.abs (rescale 2 d) ->
  exists e, Booking.as_sent b = inl e.
Proof.
  intros Hd H. rewrite booking_as_sent, Hd.
  destruct (typed "seats_reserved" _ _); [eauto|].
  unfold typed at 1. cbn [column_type Booking.amount_paid_column].
  rewrite (as_Numeric_unfit 6 2 d H). eauto.
Qed.

Lemma booking_status_unfit (b : Booking.Instance) (s : string) :
  Booking.status b = Some s -> as_String 20 s = None ->
  exists e, Booking.as_sent b = inl e.
Proof.
  intros Hs H. rewrite booking_as_sent, Hs.
  destruct (typed "seats_reserved" _ _); [eauto|].
  destruct (typed "amount_paid" _ _); [eauto|].
  unfold typed. cbn [column_type Booking.status_column].
  rewrite H. eauto.
Qed.

(** An assignment of a status alone, to one of the four values, fits. *)
Lemma booking_status_as_sent (s : string) :
  In s ["pending"; "confirmed"; "cancelled"; "completed"]%string ->
  Booking.as_sent (Booking.mk (F := option) None None None None None (Some s) None)
  = inr (Booking.mk (F := option) None None None None None (Some s) None).
Proof.
  intros H. rewrite booking_as_sent. unfold typed.
  cbn [column_type Booking.status_column Booking.status Booking.seats_reserved
       Booking.amount_paid Booking.id Booking.ride_id Booking.passenger_id
       Booking.booked_at].
  now rewrite (as_String_status s H).
Qed.

Lemma booking_to_row_inr (srv : Server) (b : Booking.Instance) (row : Booking.Row) :
  Booking.to_row srv b = inr row ->
  exists sent, Booking.as_sent b = inr sent /\ Booking.fill srv sent = inr row.
Proof.
  unfold Booking.to_row. destruct (Booking.as_sent b) as [e|sent]; [discriminate|].
  eauto.
Qed.

Lemma booking_fill_fields (srv : Server) (sent : Booking.Instance)
  (row : Booking.Row) :
  Booking.fill srv sent = inr row ->
  Booking.ride_id sent = Some (Booking.ride_id row)
  /\ Booking.passenger_id sent = Some (Booking.passenger_id row)
  /\ Booking.seats_reserved sent = Some (Booking.seats_reserved row)
  /\ Booking.id row
     = match Booking.id sent with Some v => v | None => gen_random_uuid srv end
  /\ Booking.amount_paid row
     = match Booking.amount_paid sent with Some v => v | None => cents 0 end
  /\ Booking.status row
     = match Booking.status sent with Some v => v | None => "pending"%string end.
Proof.
  destruct sent as [i r p s a st t].
  destruct r, p, s, i, a, st, t; intros H; try discriminate;
    injection H as <-; repeat split.
Qed.

(** What an accepted row holds of the object it was made from: the
    amount is the one given, rounded to two decimals, and every value is
    within its column type. *)
Lemma booking_to_row_fields (srv : Server) (b : Booking.Instance)
  (row : Booking.Row) :
  Booking.to_row srv b = inr row ->
  Booking.ride_id b = Some (Booking.ride_id row)
  /\ Booking.passenger_id b = Some (Booking.passenger_id row)
  /\ Booking.seats_reserved b = Some (Booking.seats_reserved row)
  /\ Booking.id row
     = match Booking.id b with Some v => v | None => gen_random_uuid srv end
  /\ Booking.amount_paid row
     = match Booking.amount_paid b with
       | Some d => mkDecimal (rescale 2 d) (-2)
       | None => cents 0
       end
  /\ match Booking.status b with
     | Some s => as_String 20 s = Some (Booking.status row)
     | None => Booking.status row = "pending"%string
     end
  /\ - 2 ^ 31 <= Booking.seats_reserved row < 2 ^ 31
  /\ exponent (Booking.amount_paid row) = -2
  /\ Z.abs (coefficient (Booking.amount_paid row)) < 10 ^ 6
  /\ (String.length (Booking.status row) <= 20)%nat.
Proof.
  intros H. apply booking_to_row_inr in H as (sent & Hs & Hf).
  apply booking_as_sent_inr in Hs as (E1 & E2 & E3 & E4 & E5 & Hz & Ha & Hst).
  apply booking_fill_fields in Hf as (F1 & F2 & F3 & F4 & F5 & F6).
  rewrite <- E2, <- E3, <- E4, <- E1.
  split; [exact F1|]. split; [exact F2|]. split; [exact F3|]. split; [exact F4|].
  assert (Booking.amount_paid row
          = match Booking.amount_paid b with
            | Some d => mkDecimal (rescale 2 d) (-2)
            | None => cents 0
            end
          /\ exponent (Booking.amount_paid row) = -2
          /\ Z.abs (coefficient (Booking.amount_paid row)) < 10 ^ 6)
    as (A1 & A2 & A3).
  { rewrite F5. destruct (Booking.amount_paid b) as [d|].
    - destruct Ha as [-> Hd]. cbn. auto.
    - rewrite Ha. cbn. repeat split; lia. }
  assert (match Booking.status b with
          | Some s => as_String 20 s = Some (Booking.status row)
          | None => Booking.status row = "pending"%string
          end
          /\ (String.length (Booking.status row) <= 20)%nat) as (S1 & S2).
  { rewrite F6. destruct (Booking.status b) as [s|].
    - destruct Hst as [-> Hne]. destruct (as_String 20 s) as [y|] eqn:Es;
        [|contradiction]. split; [reflexivity|]. now apply as_String_Some in Es.
    - rewrite Hst. split; [reflexivity | cbn; lia]. }
  split; [exact A1|]. split; [exact S1|]. split.
  - apply Hz. rewrite <- E4. exact F3.
  - auto.
Qed.

Lemma booking_to_row_again (srv1 srv2 : Server) (b : Booking.Instance)
  (row1 : Booking.Row) :
  Booking.id b = None ->
  Booking.to_row srv1 b = inr row1 ->
  exists row2,
    Booking.to_row srv2 b = inr row2
    /\ Booking.id row1 = gen_random_uuid srv1
    /\ Booking.id row2 = gen_random_uuid srv2
    /\ Booking.ride_id row2 = Booking.ride_id row1
    /\ Booking.passenger_id row2 = Booking.passenger_id row1
    /\ Booking.seats_reserved row2 = Booking.seats_reserved row1
    /\ Booking.amount_paid row2 = Booking.amount_paid row1
    /\ Booking.status row2 = Booking.status row1.
Proof.
  intros Hid H. unfold Booking.to_row in *.
  destruct (Booking.as_sent b) as [e|sent] eqn:Hs; [discriminate|].
  apply booking_as_sent_inr in Hs as (E1 & _). rewrite Hid in E1.
  destruct sent as [i r p s a st t]. cbn [Booking.id] in E1. subst i.
  destruct r, p, s, a, st, t; try discriminate;
    injection H as <-; eexists; repeat split.
Qed.

End ColumnTypes.

(** ** Bookings and reviews at the storage boundary (C3, C4, C5, C6) *)

Section EntityClaims.
Import Models.
Local Open Scope list_scope.
Local Open Scope Z_scope.

(** C3. A write to [bookings], INSERT or UPDATE, one of whose values does
    not fit its column type is refused with a data error before any
    constraint is tested: [seats_reserved] must be a 32-bit integer,
    [amount_paid], rounded to two decimals, must stay below [10000] in
    absolute value, and [status] must hold in 20 characters. A write whose
    values fit is refused with a CHECK violation unless the row it stores has
    [seats_reserved > 0], [amount_paid >= 0] for the amount as rounded, and a
    status among the four values. A booking inserted with
    [seats_reserved = 1] and neither [amount_paid] nor [status] set, for an
    existing ride and passenger, is stored with [amount_paid = 0.00] and
    [status = 'pending']. So every booking the statements can store has the
    three properties. *)
Theorem booking_constraints :
  forall (srv : Server) (db : Database) (b : Booking.Instance) (k : UUID),
    (forall e,
       Booking.as_sent b = inl e ->
       is_data_error e = true
       /\ insert_booking srv db b = inl e
       /\ update_booking db k b = inl e)
    /\ ((forall z,
           Booking.seats_reserved b = Some z -> ~ - 2 ^ 31 <= z < 2 ^ 31 ->
           Booking.as_sent b = inl (DataError "seats_reserved"))
        /\ (forall d,
              Booking.amount_paid b = Some d -> 10 ^ 6 <= Z.abs (rescale 2 d) ->
              exists e, Booking.as_sent b = inl e)
        /\ (forall s,
              Booking.status b = Some s -> as_String 20 s = None ->
              exists e, Booking.as_sent b = inl e))
    /\ (forall row,
          Booking.to_row srv b = inr row ->
          (forall d,
             Booking.amount_paid b = Some d ->
             Booking.amount_paid row = mkDecimal (rescale 2 d) (-2))
          /\ (~ (0 < Booking.seats_reserved row
                 /\ 0 <= coefficient (Booking.amount_paid row)
                 /\ In (Booking.status row)
                      ["pending"; "confirmed"; "cancelled"; "completed"]%string) ->
              exists e,
                insert_booking srv db b = inl e /\ is_check_violation e = true))
    /\ (forall sent old,
          Booking.as_sent b = inr sent ->
          find (fun r => N.eqb (Booking.id r) k) (bookings db) = Some old ->
          ~ (0 < Booking.seats_reserved (Booking.updated old sent)
             /\ 0 <= coefficient (Booking.amount_paid (Booking.updated old sent))
             /\ In (Booking.status (Booking.updated old sent))
                  ["pending"; "confirmed"; "cancelled"; "completed"]%string) ->
          exists e, update_booking db k b = inl e /\ is_check_violation e = true)
    /\ (forall ride passenger,
          In ride (rides db) ->
          In passenger (users db) ->
          ~ In (gen_random_uuid srv) (map Booking.id (bookings db)) ->
          insert_booking srv db
            (Booking.mk (F := option) None (Some ride) (Some passenger)
               (Some 1) None None None)
          = inr (mkDatabase (rides db) (users db)
                   (bookings db ++
                    [Booking.mk (F := fun T => T) (gen_random_uuid srv) ride
                       passenger 1 (cents 0) "pending"%string (now srv)])
                   (reviews db)))
    /\ (forall sts : list Statement,
          Forall (fun row =>
                    0 < Booking.seats_reserved row
                    /\ 0 <= coefficient (Booking.amount_paid row)
                    /\ In (Booking.status row)
                         ["pending"; "confirmed"; "cancelled"; "completed"]%string)
                 (bookings (run sts empty))).
Proof.
  intros srv db b k. split; [|split; [|split; [|split; [|split]]]].
  - intros e He. split; [now apply booking_as_sent_inl in He|].
    unfold insert_booking, Booking.to_row, update_booking. now rewrite He.
  - split; [|split].
    + intros z. apply booking_seats_unfit.
    + intros d. apply booking_amount_unfit.
    + intros s. apply booking_status_unfit.
  - intros row Hrow. split.
    + intros d Hd. apply booking_to_row_fields in Hrow as (_ & _ & _ & _ & Ha & _).
      now rewrite Hd in Ha.
    + intros Hbad.
      destruct (check_violation (table_args Booking.table) row) as [e|] eqn:Hc.
      * exists e. split; [|now apply check_violation_kind in Hc].
        unfold insert_booking, insert_row. rewrite Hrow.
        now rewrite (violation_of_check _ _ _ _ _ _ Hc).
      * exfalso. apply Hbad. now apply booking_checks.
  - intros sent old Hsent Hfind Hbad.
    destruct (check_violation (table_args Booking.table) (Booking.updated old sent))
      as [e|] eqn:Hc.
    + exists e. split; [|now apply check_violation_kind in Hc].
      unfold update_booking, update_row. rewrite Hsent.
      change (find (fun r => N.eqb (pkey Booking.table r) k) (bookings db)
              = Some old) in Hfind.
      rewrite Hfind.
      now rewrite (violation_of_check _ _ _ _ _ _ Hc).
    + exfalso. apply Hbad. now apply booking_checks.
  - intros ride passenger Hride Hpass Hfresh.
    unfold insert_booking.
    assert (Booking.to_row srv
              (Booking.mk (F := option) None (Some ride) (Some passenger)
                 (Some 1) None None None)
            = inr (Booking.mk (F := fun T => T) (gen_random_uuid srv) ride passenger
                     1 (cents 0) "pending"%string (now srv))) as -> by reflexivity.
    unfold insert_row.
    assert (violation Booking.table (parent_exists db) (bookings db)
              (Booking.mk (F := fun T => T) (gen_random_uuid srv) ride passenger
                 1 (cents 0) "pending"%string (now srv)) = None) as ->.
    { apply violation_None. split; [|split; [|split]].
      - reflexivity.
      - apply pkey_violation_None. exact Hfresh.
      - reflexivity.
      - apply booking_references. split; assumption. }
    reflexivity.
  - intros sts.
    destruct (consistent_run sts empty consistent_empty) as [(Hc & _) _].
    revert Hc. apply Forall_impl. intros row. apply booking_checks.
Qed.

Lemma booking_constraints_witness :
  (exists e,
     insert_booking (mkServer 7%N 1000)
       (mkDatabase [1%N] [2%N] [] [])
       (Booking.mk (F := option) None (Some 1%N) (Some 2%N) (Some 0) None None None)
     = inl e /\ is_check_violation e = true)
  /\ (exists e,
        update_booking
          (mkDatabase [1%N] [2%N]
             [Booking.mk (F := fun T => T) 7%N 1%N 2%N 1 (cents 0)
                "pending"%string 1000] [])
          7%N
          (Booking.mk (F := option) None None None None None
             (Some "paid"%string) None)
        = inl e /\ is_check_violation e = true)
  /\ insert_booking (mkServer 7%N 1000)
       (mkDatabase [1%N] [2%N] [] [])
       (Booking.mk (F := option) None (Some 1%N) (Some 2%N) (Some 1) None None None)
     = inr (mkDatabase [1%N] [2%N]
              [Booking.mk (F := fun T => T) 7%N 1%N 2%N 1 (cents 0)
                 "pending"%string 1000]
              [])
  /\ insert_booking (mkServer 7%N 1000)
       (mkDatabase [1%N] [2%N] [] [])
       (Booking.mk (F := option) None (Some 1%N) (Some 2%N) (Some 1)
          (Some (cents 1000000)) None None)
     = inl (DataError "amount_paid").
Proof.
  split; [|split; [|split]].
  - apply (proj2 (proj1 (proj2 (proj2
             (booking_constraints (mkServer 7%N 1000) (mkDatabase [1%N] [2%N] [] [])
                (Booking.mk (F := option) None (Some 1%N) (Some 2%N) (Some 0)
                   None None None) 0%N)))
             (Booking.mk (F := fun T => T) 7%N 1%N 2%N 0 (cents 0)
                "pending"%string 1000)
             eq_refl)).
    cbn. lia.
  - apply (proj1 (proj2 (proj2 (proj2
             (booking_constraints (mkServer 7%N 1000)
                (mkDatabase [1%N] [2%N]
                   [Booking.mk (F := fun T => T) 7%N 1%N 2%N 1 (cents 0)
                      "pending"%string 1000] [])
                (Booking.mk (F := option) None None None None None
                   (Some "paid"%string) None) 7%N))))
             (Booking.mk (F := option) None None None None None
                (Some "paid"%string) None)
             (Booking.mk (F := fun T => T) 7%N 1%N 2%N 1 (cents 0)
                "pending"%string 1000)
             eq_refl eq_refl).
    cbn. intros (_ & _ & H). intuition discriminate.
  - apply (proj1 (proj2 (proj2 (proj2 (proj2
             (booking_constraints (mkServer 7%N 1000)
                (mkDatabase [1%N] [2%N] [] [])
                (Booking.mk (F := option) None None None None None None None)
                0%N))))) 1%N 2%N).
    + cbn. auto.
    + cbn. auto.
    + cbn. auto.
  - apply (proj1 (booking_constraints (mkServer 7%N 1000)
                    (mkDatabase [1%N] [2%N] [] [])
                    (Booking.mk (F := option) None (Some 1%N) (Some 2%N) (Some 1)
                       (Some (cents 1000000)) None None) 0%N)
             (DataError "amount_paid") eq_refl).
Defined.

(** C3 as stated in the specification fails. An amount of [-0.001] is below
    zero and yet the booking is accepted: the column rounds it to [0.00]
    before the CHECK constraint is tested. A status of 23 characters, a
    number of seats below the 32-bit integers and an amount of [-10000.00]
    are refused, but with a data error, not with a constraint violation. *)
Lemma booking_write_outside_check_constraints :
  insert_booking (mkServer 7%N 1000) (mkDatabase [1%N] [2%N] [] [])
    (Booking.mk (F := option) None (Some 1%N) (Some 2%N) (Some 1)
       (Some (mkDecimal (-1) (-3))) None None)
  = inr (mkDatabase [1%N] [2%N]
           [Booking.mk (F := fun T => T) 7%N 1%N 2%N 1 (cents 0)
              "pending"%string 1000] [])
  /\ insert_booking (mkServer 7%N 1000) (mkDatabase [1%N] [2%N] [] [])
       (Booking.mk (F := option) None (Some 1%N) (Some 2%N) (Some 1) None
          (Some "confirmed_by_the_driver"%string) None)
     = inl (DataError "status")
  /\ insert_booking (mkServer 7%N 1000) (mkDatabase [1%N] [2%N] [] [])
       (Booking.mk (F := option) None (Some 1%N) (Some 2%N) (Some (-2147483649))
          None None None)
     = inl (DataError "seats_reserved")
  /\ insert_booking (mkServer 7%N 1000) (mkDatabase [1%N] [2%N] [] [])
       (Booking.mk (F := option) None (Some 1%N) (Some 2%N) (Some 1)
          (Some (mkDecimal (-1000000) (-2))) None None)
     = inl (DataError "amount_paid")
  /\ is_check_violation (DataError "status") = false.
Proof. repeat split. Qed.




Lemma review_duplicate_collides (rows : list Review.Row) (row1 row2 : Review.Row) :
  Review.ride_id row2 = Review.ride_id row1 ->
  Review.reviewer_id row2 = Review.reviewer_id row1 ->
  Review.reviewee_id row2 = Review.reviewee_id row1 ->
  unique_violation (table_args Review.table) (rows ++ [row1]) row2
  = Some (UniqueViolation "unique_review_per_ride_pair").
Proof.
  intros E1 E2 E3.
  cbn [table_args Review.table Review.__table_args__ unique_violation].
  rewrite existsb_app. cbn [existsb]. rewrite E1, E2, E3.
  rewrite (proj2 (key_eqb_eq _ _) eq_refl).
  now rewrite orb_true_r.
Qed.

(** C5. After a review has been stored, an insert with the same
    [(ride_id, reviewer_id, reviewee_id)] is refused and leaves the table as
    it is; for a row that is otherwise well formed (rating present and in
    range) the refusal is a uniqueness violation, that of
    [unique_review_per_ride_pair] unless its explicit [id] is taken too. So
    no two stored reviews share the triple, in any table the statements can
    build. *)
Theorem review_triple_unique :
  forall (srv1 srv2 : Server) (db db1 : Database) (r1 r2 : Review.Instance),
    insert_review srv1 db r1 = inr db1 ->
    Review.ride_id r2 = Review.ride_id r1 ->
    Review.reviewer_id r2 = Review.reviewer_id r1 ->
    Review.reviewee_id r2 = Review.reviewee_id r1 ->
    (exists e,
       insert_review srv2 db1 r2 = inl e
       /\ (forall row2,
             Review.to_row srv2 r2 = inr row2 ->
             1 <= Review.rating row2 <= 5 ->
             is_unique_violation e = true
             /\ (~ In (Review.id row2) (map Review.id (reviews db1)) ->
                 e = UniqueViolation "unique_review_per_ride_pair")))
    /\ apply db1 (InsertReview srv2 r2) = db1
    /\ forall sts : list Statement,
         NoDup (map (fun x => [Review.ride_id x; Review.reviewer_id x;
                               Review.reviewee_id x])
                    (reviews (run sts empty))).
Proof.
  intros srv1 srv2 db db1 r1 r2 Hins E1 E2 E3.
  assert (exists e,
            insert_review srv2 db1 r2 = inl e
            /\ (forall row2,
                  Review.to_row srv2 r2 = inr row2 ->
                  1 <= Review.rating row2 <= 5 ->
                  is_unique_violation e = true
                  /\ (~ In (Review.id row2) (map Review.id (reviews db1)) ->
                      e = UniqueViolation "unique_review_per_ride_pair")))
    as Hrefused.
  { unfold insert_review in Hins.
    destruct (Review.to_row srv1 r1) as [e1|row1] eqn:Hrow1; [discriminate|].
    unfold insert_row in Hins.
    destruct (violation Review.table (parent_exists db) (reviews db) row1);
      [discriminate|].
    injection Hins as <-. cbn [reviews].
    unfold insert_review.
    destruct (Review.to_row srv2 r2) as [e2|row2] eqn:Hrow2.
    - exists e2. split; [reflexivity|]. intros row2 H. discriminate.
    - apply review_to_row_fields in Hrow1 as (A1 & A2 & A3 & _).
      apply review_to_row_fields in Hrow2 as (B1 & B2 & B3 & _).
      assert (Review.ride_id row2 = Review.ride_id row1) as F1 by congruence.
      assert (Review.reviewer_id row2 = Review.reviewer_id row1) as F2 by congruence.
      assert (Review.reviewee_id row2 = Review.reviewee_id row1) as F3 by congruence.
      pose proof (review_duplicate_collides (reviews db) row1 row2 F1 F2 F3) as Hu.
      unfold insert_row, violation. cbn [with_reviews reviews].
      rewrite Hu.
      destruct (check_violation (table_args Review.table) row2) as [ec|] eqn:Hc.
      + exists ec. split; [reflexivity|]. intros row Hrow Hrange.
        injection Hrow as <-. apply review_checks in Hrange. congruence.
      + destruct (pkey_violation Review.table (reviews db ++ [row1]) row2)
          as [ep|] eqn:Hp.
        * exists ep. split; [reflexivity|]. intros row Hrow _.
          injection Hrow as <-. split.
          -- unfold pkey_violation in Hp.
             destruct (mem _ _); [|discriminate]. now injection Hp as <-.
          -- intros Hfresh.
             apply (proj2 (pkey_violation_None _ Review.table _ _)) in Hfresh.
             congruence.
        * exists (UniqueViolation "unique_review_per_ride_pair").
          split; [reflexivity|]. intros; split; reflexivity. }
  split; [exact Hrefused|]. split.
  - destruct Hrefused as (e & He & _). unfold apply. cbn [execute]. now rewrite He.
  - intros sts.
    destruct (consistent_run sts empty consistent_empty) as [_ (_ & _ & Hu & _)].
    now apply review_unique.
Qed.

Lemma review_triple_unique_witness :
  insert_review (mkServer 10%N 2001)
    (mkDatabase [1%N] [2%N; 3%N] []
       [Review.mk (F := fun T => T) 9%N 1%N 2%N 3%N 5 None 2000])
    (Review.mk (F := option) None (Some 1%N) (Some 2%N) (Some 3%N) (Some 4)
       None None)
  = inl (UniqueViolation "unique_review_per_ride_pair").
Proof.
  destruct (review_triple_unique (mkServer 9%N 2000) (mkServer 10%N 2001)
              (mkDatabase [1%N] [2%N; 3%N] [] [])
              (mkDatabase [1%N] [2%N; 3%N] []
                 [Review.mk (F := fun T => T) 9%N 1%N 2%N 3%N 5 None 2000])
              (Review.mk (F := option) None (Some 1%N) (Some 2%N) (Some 3%N)
                 (Some 5) None None)
              (Review.mk (F := option) None (Some 1%N) (Some 2%N) (Some 3%N)
                 (Some 4) None None)
              eq_refl eq_refl eq_refl eq_refl)
    as ((e & He & Hkind) & _).
  rewrite He. f_equal.
  apply (Hkind (Review.mk (F := fun T => T) 10%N 1%N 2%N 3%N 4 None 2001) eq_refl).
  - cbn. lia.
  - cbn. intros [H|[]]. discriminate.
Defined.

(** C6. In every database state, deleting a ride, or a user, is never
    refused: it succeeds, the deleted key is gone, and exactly the bookings
    and reviews whose foreign key refers to the deleted row are removed with
    it. If no booking or review was an orphan before, none is afterwards. *)
Theorem cascade_delete :
  forall (db : Database) (k : UUID),
    (exists db',
       delete_ride db k = inr db'
       /\ ~ In k (rides db')
       /\ users db' = users db
       /\ bookings db'
          = filter (fun b => negb (N.eqb (Booking.ride_id b) k)) (bookings db)
       /\ reviews db'
          = filter (fun r => negb (N.eqb (Review.ride_id r) k)) (reviews db)
       /\ (no_orphans db -> no_orphans db'))
    /\ (exists db',
          delete_user db k = inr db'
          /\ ~ In k (users db')
          /\ rides db' = rides db
          /\ bookings db'
             = filter (fun b => negb (N.eqb (Booking.passenger_id b) k)) (bookings db)
          /\ reviews db'
             = filter (fun r => negb (N.eqb (Review.reviewee_id r) k))
                 (filter (fun r => negb (N.eqb (Review.reviewer_id r) k)) (reviews db))
          /\ (no_orphans db -> no_orphans db')).
Proof.
  intros db k. split.
  - eexists. split; [apply delete_ride_eq|].
    split; [cbn [rides]; rewrite In_remove_key; tauto|].
    split; [reflexivity|]. split; [reflexivity|]. split; [reflexivity|].
    intros [Hb Hr]. split; cbn [bookings reviews rides users].
    + intros b Hin. apply filter_In in Hin as [Hin Hk].
      apply negb_true_iff, N.eqb_neq in Hk.
      destruct (Hb b Hin). rewrite In_remove_key. auto.
    + intros r Hin. apply filter_In in Hin as [Hin Hk].
      apply negb_true_iff, N.eqb_neq in Hk.
      destruct (Hr r Hin) as (? & ? & ?). rewrite In_remove_key. auto.
  - eexists. split; [apply delete_user_eq|].
    split; [cbn [users]; rewrite In_remove_key; tauto|].
    split; [reflexivity|]. split; [reflexivity|]. split; [reflexivity|].
    intros [Hb Hr]. split; cbn [bookings reviews rides users].
    + intros b Hin. apply filter_In in Hin as [Hin Hk].
      apply negb_true_iff, N.eqb_neq in Hk.
      destruct (Hb b Hin). rewrite In_remove_key. auto.
    + intros r Hin. apply filter_In in Hin as [Hin Hk].
      apply filter_In in Hin as [Hin Hk'].
      apply negb_true_iff, N.eqb_neq in Hk, Hk'.
      destruct (Hr r Hin) as (? & ? & ?). rewrite !In_remove_key. auto.
Qed.

Lemma cascade_delete_witness :
  no_orphans
    (mkDatabase [1%N; 4%N] [2%N; 3%N]
       [Booking.mk (F := fun T => T) 7%N 1%N 2%N 1 (cents 0) "pending"%string 1000;
        Booking.mk (F := fun T => T) 8%N 4%N 2%N 2 (cents 3100) "confirmed"%string 1001]
       [Review.mk (F := fun T => T) 9%N 1%N 2%N 3%N 5 None 2000])
  /\ exists db',
       delete_ride
         (mkDatabase [1%N; 4%N] [2%N; 3%N]
            [Booking.mk (F := fun T => T) 7%N 1%N 2%N 1 (cents 0) "pending"%string 1000;
             Booking.mk (F := fun T => T) 8%N 4%N 2%N 2 (cents 3100) "confirmed"%string 1001]
            [Review.mk (F := fun T => T) 9%N 1%N 2%N 3%N 5 None 2000])
         1%N
       = inr db'
       /\ bookings db'
          = [Booking.mk (F := fun T => T) 8%N 4%N 2%N 2 (cents 3100) "confirmed"%string 1001]
       /\ reviews db' = []
       /\ no_orphans db'.
Proof.
  assert (no_orphans
            (mkDatabase [1%N; 4%N] [2%N; 3%N]
               [Booking.mk (F := fun T => T) 7%N 1%N 2%N 1 (cents 0) "pending"%string 1000;
                Booking.mk (F := fun T => T) 8%N 4%N 2%N 2 (cents 3100) "confirmed"%string 1001]
               [Review.mk (F := fun T => T) 9%N 1%N 2%N 3%N 5 None 2000])) as H.
  { split; cbn; intros x Hx; intuition (subst; cbn; auto). }
  split; [exact H|].
  destruct (proj1 (cascade_delete
                     (mkDatabase [1%N; 4%N] [2%N; 3%N]
                        [Booking.mk (F := fun T => T) 7%N 1%N 2%N 1 (cents 0) "pending"%string 1000;
                         Booking.mk (F := fun T => T) 8%N 4%N 2%N 2 (cents 3100) "confirmed"%string 1001]
                        [Review.mk (F := fun T => T) 9%N 1%N 2%N 3%N 5 None 2000])
                     1%N))
    as (db' & Hdel & _ & _ & Hbs & Hrs & Hno).
  exists db'. split; [exact Hdel|]. split; [rewrite Hbs; reflexivity|].
  split; [rewrite Hrs; reflexivity|]. exact (Hno H).
Defined.

End EntityClaims.

(** * Further properties of the code *)

(** ** The connection string, continued *)

Section ConnectionStringMore.
Import PyStr Db.

Lemma append_empty_r (a : string) : a ++ "" = a.
Proof. induction a as [|x a IH]; simpl; [reflexivity | now rewrite IH]. Qed.

Lemma contains_app_l (sub a b : string) :
  contains sub a = true -> contains sub (a ++ b) = true.
Proof.
  induction a as [|c a IH]; simpl; intros H.
  - rewrite orb_false_r in H. destruct sub; [|discriminate].
    destruct b; reflexivity.
  - apply orb_true_iff in H as [H|H].
    + change (String c (a ++ b)) with (String c a ++ b).
      now rewrite (startswith_prefix _ b _ H).
    + rewrite (IH H). apply orb_true_r.
Qed.

(** What [strip_sslmode] returns is the beginning of what it was given. *)
Lemma strip_sslmode_prefix (u : string) :
  exists cut rest, strip_sslmode u = Returned cut /\ u = cut ++ rest.
Proof.
  rewrite strip_sslmode_eq.
  destruct (contains "render.com" u);
    [destruct (contains "?sslmode=" u); [|destruct (contains "&sslmode=" u)]|].
  - destruct (before_first_prefix "?sslmode=" u) as [rest H]. eauto.
  - destruct (before_first_prefix "&sslmode=" u) as [rest H]. eauto.
  - exists u, "". now rewrite append_empty_r.
  - exists u, "". now rewrite append_empty_r.
Qed.

(** X1. Whenever [DATABASE_URL] is set to a non-empty string the import
    succeeds: [split(...)[0]] never raises [IndexError]. The module then holds
    the URL as given, an [ASYNC_DATABASE_URL] that is a beginning of the
    rewritten URL, and neither an engine nor a session factory. *)
Theorem import_succeeds_with_url :
  forall (load_dotenv : Environ -> Environ) (environ : Environ) (url : string),
    getenv (load_dotenv environ) "DATABASE_URL" = Some url ->
    url <> "" ->
    exists m rest,
      load_module load_dotenv environ = Returned m
      /\ DATABASE_URL m = url
      /\ rewrite_scheme url = ASYNC_DATABASE_URL m ++ rest
      /\ async_engine m = None
      /\ async_session_factory m = None
      /\ heap m = [].
Proof.
  intros load_dotenv environ url Hget Hne.
  destruct (strip_sslmode_prefix (rewrite_scheme url)) as (cut & rest & Hcut & Hrest).
  exists (mkModule url cut None None false []), rest.
  split; [|repeat split; exact Hrest].
  unfold load_module. rewrite Hget.
  destruct url; [contradiction|]. simpl negb. cbv iota.
  now rewrite Hcut.
Qed.

Lemma import_succeeds_with_url_witness :
  exists m,
    load_module (fun e => e)
      [("DATABASE_URL", "sqlite+aiosqlite:///fareshare.db?sslmode=off")]
    = Returned m
    /\ ASYNC_DATABASE_URL m = "sqlite+aiosqlite:///fareshare.db?sslmode=off".
Proof.
  destruct (import_succeeds_with_url (fun e => e)
              [("DATABASE_URL", "sqlite+aiosqlite:///fareshare.db?sslmode=off")]
              _ eq_refl)
    as (m & rest & Hload & _).
  - discriminate.
  - exists m. split; [exact Hload|].
    apply (f_equal (fun r => match r with Returned x => ASYNC_DATABASE_URL x | Raised _ => "" end))
      in Hload.
    symmetry. exact Hload.
Defined.

(** X2. The scheme rewrite is idempotent: a URL that has been rewritten
    starts with [postgresql+asyncpg://], not with [postgresql://], and is
    left alone by a second pass. *)
Theorem rewrite_scheme_idempotent :
  forall url : string,
    rewrite_scheme (rewrite_scheme url) = rewrite_scheme url.
Proof.
  intros url.
  destruct (startswith url "postgresql://") eqn:E.
  - assert (rewrite_scheme url
            = "postgresql+asyncpg://"
              ++ replace (drop (String.length "postgresql://") url)
                   "postgresql://" "postgresql+asyncpg://") as ->.
    { unfold rewrite_scheme. rewrite E. apply replace_match; [discriminate|exact E]. }
    reflexivity.
  - unfold rewrite_scheme. now rewrite !E.
Qed.

(** [replace] leaves no occurrence of [old] when [old] and [new] start with
    a character that [old] has nowhere else and [old] starts nowhere in
    [new]. *)
Section ReplaceLeavesNone.

Variables (p : ascii) (old' new' : string).
Let old := String p old'.
Let new := String p new'.
Hypothesis p_once :
  forallb (fun c => negb (Ascii.eqb c p)) (list_ascii_of_string old') = true.
Hypothesis new_is_not_old : forall r, startswith (new ++ r) old = false.
Hypothesis not_inside_new : forall r, contains old (new' ++ r) = contains old r.

Lemma replace_leaves_none_upto (n : nat) (s : string) :
  (String.length s <= n)%nat ->
  contains old (replace s old new) = false.
Proof.
  revert s; induction n as [|n IH]; intros s Hlen.
  - destruct s; [reflexivity | simpl in Hlen; lia].
  - destruct s as [|c s]; [reflexivity|].
    destruct (startswith (String c s) old) eqn:E.
    + rewrite replace_match by (assumption || discriminate).
      set (R := replace (drop (String.length old) (String c s)) old new).
      assert (contains old R = false) as HR.
      { apply IH. pose proof (length_drop (String.length old') s) as Hd.
        simpl in Hlen. unfold old. simpl. lia. }
      change (new ++ R) with (String p (new' ++ R)).
      cbn [contains].
      change (String p (new' ++ R)) with (new ++ R).
      now rewrite new_is_not_old, not_inside_new, HR.
    + rewrite replace_step by exact E. cbn [contains].
      rewrite IH by (simpl in Hlen; lia). rewrite orb_false_r.
      rewrite <- E. unfold old. cbn [startswith]. f_equal.
      now apply startswith_replace_without.
Qed.

End ReplaceLeavesNone.

(** X3. After the rewrite of a URL that starts with [postgresql://], the
    string [postgresql://] occurs nowhere in it any more. *)
Theorem rewrite_scheme_leaves_no_sync_scheme :
  forall url : string,
    startswith url "postgresql://" = true ->
    contains "postgresql://" (rewrite_scheme url) = false.
Proof.
  intros url H. unfold rewrite_scheme. rewrite H.
  now apply (replace_leaves_none_upto "p" "ostgresql://" "ostgresql+asyncpg://"
               eq_refl (fun _ => eq_refl) (fun _ => eq_refl) (String.length url)).
Qed.

Lemma rewrite_scheme_leaves_no_sync_scheme_witness :
  contains "postgresql://"
    (rewrite_scheme "postgresql://fs:pw@localhost/fareshare?fallback=postgresql://replica/fareshare")
  = false.
Proof.
  apply rewrite_scheme_leaves_no_sync_scheme. reflexivity.
Defined.

(** X4. For a URL that contains [render.com], no [?sslmode=] is left in
    [ASYNC_DATABASE_URL]; and if the URL had no [?sslmode=], no [&sslmode=]
    is left either. *)
Theorem render_url_loses_sslmode :
  forall (load_dotenv : Environ -> Environ) (environ : Environ)
         (url : string) (m : ModuleState),
    getenv (load_dotenv environ) "DATABASE_URL" = Some url ->
    load_module load_dotenv environ = Returned m ->
    contains "render.com" url = true ->
    contains "?sslmode=" (ASYNC_DATABASE_URL m) = false
    /\ (contains "?sslmode=" url = false ->
        contains "&sslmode=" (ASYNC_DATABASE_URL m) = false).
Proof.
  intros load_dotenv environ url m Hget Hload Hrender.
  rewrite (load_module_returned _ _ _ _ Hget Hload). cbn [ASYNC_DATABASE_URL].
  rewrite Hrender.
  destruct (contains "?sslmode=" url) eqn:Hq.
  - split; [|discriminate]. apply before_first_clean. discriminate.
  - destruct (contains "&sslmode=" url) eqn:Ha.
    + split; [|intros _; apply before_first_clean; discriminate].
      destruct (contains "?sslmode=" (before_first "&sslmode=" (rewrite_scheme url)))
        eqn:Hc; [|reflexivity].
      destruct (before_first_prefix "&sslmode=" (rewrite_scheme url)) as [rest Hr].
      apply (contains_app_l _ _ rest) in Hc. rewrite <- Hr in Hc.
      rewrite rewrite_scheme_qmark in Hc. congruence.
    + split; [now rewrite rewrite_scheme_qmark | now rewrite rewrite_scheme_amp].
Qed.

Lemma render_url_loses_sslmode_witness :
  exists m,
    load_module (fun e => e)
      [("DATABASE_URL", "postgres://fs:pw@dpg-1.render.com/fareshare?connect_timeout=5&sslmode=require")]
    = Returned m
    /\ contains "?sslmode=" (ASYNC_DATABASE_URL m) = false
    /\ contains "&sslmode=" (ASYNC_DATABASE_URL m) = false.
Proof.
  eexists. split; [reflexivity|].
  destruct (render_url_loses_sslmode (fun e => e)
              [("DATABASE_URL", "postgres://fs:pw@dpg-1.render.com/fareshare?connect_timeout=5&sslmode=require")]
              _ _ eq_refl eq_refl eq_refl) as [H1 H2].
  split; [exact H1 | exact (H2 eq_refl)].
Defined.

End ConnectionStringMore.

(** ** The module's globals over the life of the process *)

Section ProcessLife.
Import Db.
Local Open Scope list_scope.

Variable engine_raises : string -> option PyExc.

Lemma dispose_at_length (a : nat) (h : list AsyncEngine) :
  List.length (dispose_at a h) = List.length h.
Proof.
  revert a; induction h as [|e h IH]; intros [|a]; simpl; auto.
Qed.

Lemma dispose_at_other (a b : nat) (h : list AsyncEngine) :
  a <> b -> nth_error (dispose_at a h) b = nth_error h b.
Proof.
  revert a b; induction h as [|e h IH]; intros [|a] [|b] Hab; simpl; auto;
    contradiction.
Qed.

Lemma dispose_at_same (a : nat) (h : list AsyncEngine) (e : AsyncEngine) :
  nth_error h a = Some e ->
  nth_error (dispose_at a h) a
  = Some (mkEngine (engine_url e) (echo e) (pool_size e) (max_overflow e)
            (pool_pre_ping e) (pool_recycle e) (connect_args e)
            (S (dispose_calls e))).
Proof.
  revert a; induction h as [|x h IH]; intros [|a]; simpl; try discriminate.
  - intros H. now injection H as ->.
  - apply IH.
Qed.

Lemma coupled_step (D A : string) (st : ModuleState) (op : Op) :
  coupled D A st -> coupled D A (step engine_raises st op).
Proof.
  intros (HD & HA & H). destruct op as [| |body]; cbn [step].
  - unfold init_db. rewrite HA.
    destruct (engine_raises A); cbn [fst]; unfold coupled;
      cbn [DATABASE_URL ASYNC_DATABASE_URL async_session_factory async_engine heap
           bind class_ expire_on_commit].
    + auto.
    + split; [exact HD|]. split; [reflexivity|].
      repeat (split; [reflexivity|]).
      eexists. split.
      * rewrite nth_error_app2 by lia. rewrite Nat.sub_diag. reflexivity.
      * repeat split.
  - unfold close_db.
    destruct (async_session_factory st) as [f|] eqn:Hf.
    + destruct H as (He & Hc & Hx & engine & Hn & Hrest).
      rewrite He. unfold coupled.
      cbn [DATABASE_URL ASYNC_DATABASE_URL async_session_factory async_engine heap].
      split; [exact HD|]. split; [exact HA|].
      split; [reflexivity|]. split; [exact Hc|]. split; [exact Hx|].
      eexists. split; [apply (dispose_at_same _ _ _ Hn)|].
      exact Hrest.
    + destruct H as [He Hh]. rewrite He. unfold coupled. rewrite Hf. auto.
  - unfold coupled. auto.
Qed.

(** X5. In every state the process can reach after the import, the two
    globals go together: either both are unset and no engine has been
    created, or the factory is bound to the very engine [async_engine] names,
    and that engine was created for [ASYNC_DATABASE_URL] with pool size 20,
    overflow 10, pre-ping, a recycle time of 3600 and the [connect_args] of
    that URL, the factory making sessions that do not expire on commit. The
    two URLs never change. *)
Theorem globals_stay_coupled :
  forall (load_dotenv : Environ -> Environ) (environ : Environ)
         (m : ModuleState) (ops : list Op),
    load_module load_dotenv environ = Returned m ->
    DATABASE_URL (run engine_raises ops m) = DATABASE_URL m
    /\ ASYNC_DATABASE_URL (run engine_raises ops m) = ASYNC_DATABASE_URL m
    /\ match async_session_factory (run engine_raises ops m) with
       | None =>
           async_engine (run engine_raises ops m) = None
           /\ heap (run engine_raises ops m) = []
       | Some f =>
           async_engine (run engine_raises ops m) = Some (bind f)
           /\ class_ f = "AsyncSession"%string
           /\ expire_on_commit f = false
           /\ exists engine,
                nth_error (heap (run engine_raises ops m)) (bind f) = Some engine
                /\ engine_url engine = ASYNC_DATABASE_URL m
                /\ echo engine = false
                /\ pool_size engine = 20%Z
                /\ max_overflow engine = 10%Z
                /\ pool_pre_ping engine = true
                /\ pool_recycle engine = 3600%Z
                /\ connect_args engine = init_connect_args (ASYNC_DATABASE_URL m)
       end.
Proof.
  intros load_dotenv environ m ops Hload.
  assert (coupled (DATABASE_URL m) (ASYNC_DATABASE_URL m) m) as H0.
  { unfold load_module in Hload.
    destruct (getenv (load_dotenv environ) "DATABASE_URL") as [url|]; [|discriminate].
    destruct (negb (PyStr.truthy url)); [discriminate|].
    destruct (strip_sslmode (rewrite_scheme url)); [|discriminate].
    injection Hload as <-. unfold coupled. cbn. auto. }
  assert (forall st, coupled (DATABASE_URL m) (ASYNC_DATABASE_URL m) st ->
                     coupled (DATABASE_URL m) (ASYNC_DATABASE_URL m)
                       (run engine_raises ops st)) as Hrun.
  { induction ops as [|op ops IH]; intros st Hst; [exact Hst|].
    unfold run. cbn [fold_left]. apply IH. now apply coupled_step. }
  exact (Hrun m H0).
Qed.

Lemma run_cons (op : Op) (ops : list Op) (st : ModuleState) :
  run engine_raises (op :: ops) st
  = run engine_raises ops (step engine_raises st op).
Proof. reflexivity. Qed.

(** An engine that [async_engine] has moved past stays as it is. *)
Lemma left_behind_step (addr0 : nat) (e0 : AsyncEngine) (st : ModuleState)
  (op : Op) :
  (exists a, async_engine st = Some a /\ addr0 < a) ->
  nth_error (heap st) addr0 = Some e0 ->
  (exists a, async_engine (step engine_raises st op) = Some a /\ addr0 < a)
  /\ nth_error (heap (step engine_raises st op)) addr0 = Some e0.
Proof.
  intros (a & Ha & Hlt) Hn.
  assert (addr0 < List.length (heap st)) as Hlen
    by (apply nth_error_Some; congruence).
  destruct op as [| |body]; cbn [step].
  - unfold init_db. destruct (engine_raises (ASYNC_DATABASE_URL st));
      cbn [fst async_engine heap].
    + eauto.
    + split; [eauto|]. now rewrite nth_error_app1.
  - unfold close_db. rewrite Ha. cbn [async_engine heap].
    split; [eauto|]. rewrite dispose_at_other by lia. exact Hn.
  - eauto.
Qed.

(** X6. When [init_db] runs a second time, the engine of the first run is
    left behind: [async_engine] never names it again, so whatever the process
    does afterwards, [close_db] included, that engine is never disposed. *)
Theorem first_engine_is_never_disposed :
  forall (m m1 m2 : ModuleState) (ops : list Op),
    init_db engine_raises m = (m1, Returned tt) ->
    init_db engine_raises m1 = (m2, Returned tt) ->
    async_engine m1 = Some (List.length (heap m))
    /\ async_engine (run engine_raises ops m2) <> Some (List.length (heap m))
    /\ exists engine,
         nth_error (heap (run engine_raises ops m2)) (List.length (heap m))
         = Some engine
         /\ dispose_calls engine = 0%nat.
Proof.
  intros m m1 m2 ops H1 H2.
  apply init_db_returned in H1. apply init_db_returned in H2.
  set (addr0 := List.length (heap m)) in *.
  set (e0 := mkEngine (ASYNC_DATABASE_URL m) false 20 10 true 3600
               (init_connect_args (ASYNC_DATABASE_URL m)) 0) in *.
  assert ((exists a, async_engine m2 = Some a /\ addr0 < a)
          /\ nth_error (heap m2) addr0 = Some e0) as H0.
  { rewrite H2, H1. cbn [async_engine heap]. split.
    - eexists. split; [reflexivity|]. rewrite length_app. simpl. lia.
    - rewrite nth_error_app1 by (rewrite length_app; simpl; lia).
      rewrite nth_error_app2 by lia. unfold addr0. now rewrite Nat.sub_diag. }
  assert (forall st,
            (exists a, async_engine st = Some a /\ addr0 < a)
            /\ nth_error (heap st) addr0 = Some e0 ->
            (exists a, async_engine (run engine_raises ops st) = Some a /\ addr0 < a)
            /\ nth_error (heap (run engine_raises ops st)) addr0 = Some e0) as Hrun.
  { induction ops as [|op ops IH]; intros st Hst; [exact Hst|].
    rewrite run_cons. apply IH. destruct Hst. now apply left_behind_step. }
  destruct (Hrun m2 H0) as [(a & Ha & Hlt) Hn].
  split; [rewrite H1; reflexivity|]. split.
  - rewrite Ha. intros E. injection E as E. lia.
  - exists e0. split; [exact Hn | reflexivity].
Qed.

Lemma close_db_repeated (n : nat) (st : ModuleState) (a : nat) (e : AsyncEngine) :
  async_engine st = Some a ->
  nth_error (heap st) a = Some e ->
  exists e',
    nth_error (heap (run engine_raises (repeat OpClose n) st)) a = Some e'
    /\ dispose_calls e' = (n + dispose_calls e)%nat.
Proof.
  revert st e; induction n as [|n IH]; intros st e Ha Hn.
  - exists e. split; [exact Hn | reflexivity].
  - cbn [repeat]. rewrite run_cons. cbn [step].
    destruct (IH (close_db st)
                (mkEngine (engine_url e) (echo e) (pool_size e) (max_overflow e)
                   (pool_pre_ping e) (pool_recycle e) (connect_args e)
                   (S (dispose_calls e)))) as (e' & He' & Hd).
    + unfold close_db. rewrite Ha. reflexivity.
    + unfold close_db. rewrite Ha. cbn [heap]. now apply dispose_at_same.
    + exists e'. split; [exact He'|]. rewrite Hd. cbn [dispose_calls]. lia.
Qed.

(** X7. [close_db] is not idempotent on a live engine: every call disposes
    the engine again, so after [init_db] and [n] calls of [close_db] the
    engine has been disposed [n] times. *)
Theorem close_db_disposes_every_time :
  forall (m m' : ModuleState) (n : nat),
    init_db engine_raises m = (m', Returned tt) ->
    exists engine,
      nth_error (heap (run engine_raises (repeat OpClose n) m'))
                (List.length (heap m)) = Some engine
      /\ dispose_calls engine = n.
Proof.
  intros m m' n Hinit. apply init_db_returned in Hinit.
  destruct (close_db_repeated n m' (List.length (heap m))
              (mkEngine (ASYNC_DATABASE_URL m) false 20 10 true 3600
                 (init_connect_args (ASYNC_DATABASE_URL m)) 0))
    as (e' & He' & Hd).
  - rewrite Hinit. reflexivity.
  - rewrite Hinit. cbn [heap]. rewrite nth_error_app2 by lia.
    now rewrite Nat.sub_diag.
  - exists e'. split; [exact He'|]. rewrite Hd. cbn [dispose_calls]. lia.
Qed.

(** X8. Until [init_db] is called, [close_db] and session requests change
    nothing in the module: with no engine, there is nothing to dispose. *)
Theorem close_db_before_init_does_nothing :
  forall (load_dotenv : Environ -> Environ) (environ : Environ)
         (m : ModuleState) (ops : list Op),
    load_module load_dotenv environ = Returned m ->
    forallb (fun op => match op with OpInit => false | _ => true end) ops = true ->
    run engine_raises ops m = m.
Proof.
  intros load_dotenv environ m ops Hload.
  assert (async_engine m = None) as Hnone.
  { unfold load_module in Hload.
    destruct (getenv (load_dotenv environ) "DATABASE_URL") as [url|]; [|discriminate].
    destruct (negb (PyStr.truthy url)); [discriminate|].
    destruct (strip_sslmode (rewrite_scheme url)); [|discriminate].
    now injection Hload as <-. }
  induction ops as [|op ops IH]; intros Hops; [reflexivity|].
  cbn [forallb] in Hops. apply andb_true_iff in Hops as [Hop Hops].
  rewrite run_cons.
  destruct op as [| |body]; [discriminate| |]; cbn [step].
  - unfold close_db. rewrite Hnone. now apply IH.
  - now apply IH.
Qed.

End ProcessLife.

Section ProcessLifeExamples.
Import Db.
Local Open Scope list_scope.

Lemma globals_stay_coupled_witness :
  exists m f,
    load_module (fun e => e) [("DATABASE_URL", "postgresql://fs:pw@localhost/fareshare")]
    = Returned m
    /\ async_session_factory
         (run (fun _ => None) [OpInit; OpClose; OpInit] m) = Some f
    /\ async_engine (run (fun _ => None) [OpInit; OpClose; OpInit] m)
       = Some (bind f).
Proof.
  eexists. eexists.
  pose proof (globals_stay_coupled (fun _ => None) (fun e => e)
                [("DATABASE_URL", "postgresql://fs:pw@localhost/fareshare")]
                _ [OpInit; OpClose; OpInit] eq_refl) as (_ & _ & H).
  split; [reflexivity|]. split; [reflexivity|].
  exact (proj1 H).
Defined.

Lemma first_engine_is_never_disposed_witness :
  exists engine,
    nth_error
      (heap (run (fun _ => None) [OpClose; OpClose]
               (fst (init_db (fun _ => None)
                       (fst (init_db (fun _ => None)
                               (mkModule "postgresql://fs:pw@localhost/fareshare"
                                  "postgresql+asyncpg://fs:pw@localhost/fareshare"
                                  None None false []))))))) 0
    = Some engine
    /\ dispose_calls engine = 0%nat.
Proof.
  exact (proj2 (proj2 (first_engine_is_never_disposed (fun _ => None)
           (mkModule "postgresql://fs:pw@localhost/fareshare"
              "postgresql+asyncpg://fs:pw@localhost/fareshare" None None false [])
           _ _ [OpClose; OpClose] eq_refl eq_refl))).
Defined.

Lemma close_db_disposes_every_time_witness :
  exists engine,
    nth_error
      (heap (run (fun _ => None) [OpClose; OpClose; OpClose]
               (fst (init_db (fun _ => None)
                       (mkModule "postgresql://fs:pw@localhost/fareshare"
                          "postgresql+asyncpg://fs:pw@localhost/fareshare"
                          None None false []))))) 0
    = Some engine
    /\ dispose_calls engine = 3%nat.
Proof.
  exact (close_db_disposes_every_time (fun _ => None)
           (mkModule "postgresql://fs:pw@localhost/fareshare"
              "postgresql+asyncpg://fs:pw@localhost/fareshare" None None false [])
           _ 3 eq_refl).
Defined.

Lemma close_db_before_init_does_nothing_witness :
  exists m,
    load_module (fun e => e) [("DATABASE_URL", "postgresql://fs:pw@localhost/fareshare")]
    = Returned m
    /\ run (fun _ => None) [OpClose; OpSession (fun s => (s, Returned tt)); OpClose] m
       = m.
Proof.
  eexists. split; [reflexivity|].
  apply (close_db_before_init_does_nothing (fun _ => None) (fun e => e)
           [("DATABASE_URL", "postgresql://fs:pw@localhost/fareshare")]);
    reflexivity.
Defined.

End ProcessLifeExamples.

(** ** The session scope, continued *)

Section SessionsMore.
Import Db.
Local Open Scope list_scope.

Variable session_raises : SessionCall -> list SessionCall -> option PyExc.

(** X9. The scope never swallows a failure. The statement completes
    normally only if the block completed, and [commit()], [close()] and
    [__aexit__] all returned; the session has then received exactly these
    three calls after the block. *)
Theorem scope_completes_only_if_all_succeed :
  forall (m : ModuleState) (body : Body) (s : AsyncSession),
    get_async_session session_raises m body = Yielded s (Returned tt) ->
    exists factory s1,
      async_session_factory m = Some factory
      /\ body (new_session factory) = (s1, Returned tt)
      /\ session_raises Commit (calls s1) = None
      /\ session_raises Close (calls s1 ++ [Commit]) = None
      /\ session_raises AExit (calls s1 ++ [Commit; Close]) = None
      /\ calls s = calls s1 ++ [Commit; Close; AExit].
Proof.
  intros m body s H. unfold get_async_session in H.
  destruct (async_session_factory m) as [factory|]; [|discriminate].
  exists factory. cbv zeta in H.
  unfold try_suite in H.
  destruct (body (new_session factory)) as [s1 [[]|e]] eqn:Hbody.
  - exists s1. split; [reflexivity|]. split; [reflexivity|].
    unfold and_finally, except_Exception, call in H.
    destruct (session_raises Commit (calls s1)) as [e|] eqn:Hc.
    + exfalso. destruct (isinstance_Exception e); cbn [fst snd calls] in H.
      * destruct (session_raises Rollback (calls s1 ++ [Commit]));
          cbn [fst snd calls] in H;
          destruct (session_raises Close _); cbn [fst snd calls] in H;
          destruct (session_raises AExit _); cbn [fst snd] in H; discriminate.
      * destruct (session_raises Close _); cbn [fst snd calls] in H;
          destruct (session_raises AExit _); cbn [fst snd] in H; discriminate.
    + cbn [fst snd calls] in H.
      destruct (session_raises Close (calls s1 ++ [Commit])) as [e|] eqn:Hcl;
        cbn [fst snd calls] in H.
      * exfalso. destruct (session_raises AExit _); cbn [fst snd] in H; discriminate.
      * rewrite <- app_assoc in H. cbn [app] in H.
        destruct (session_raises AExit (calls s1 ++ [Commit; Close])) as [e|] eqn:Hx;
          cbn [fst snd] in H; [discriminate|].
        injection H as <-. cbn [calls]. rewrite <- !app_assoc.
        repeat split; reflexivity.
  - exfalso. unfold and_finally, except_Exception, call in H.
    destruct (isinstance_Exception e); cbn [fst snd calls] in H.
    + destruct (session_raises Rollback (calls s1)); cbn [fst snd calls] in H;
        destruct (session_raises Close _); cbn [fst snd calls] in H;
        destruct (session_raises AExit _); cbn [fst snd] in H; discriminate.
    + destruct (session_raises Close _); cbn [fst snd calls] in H;
        destruct (session_raises AExit _); cbn [fst snd] in H; discriminate.
Qed.

(** X10. When the block completes but [commit()] raises, an instance of
    [Exception] is followed by [rollback()], any other exception is not; in
    both cases [close()] follows, and with quiet clean-up calls the caller
    gets the exception of [commit()]. *)
Theorem failed_commit_is_rolled_back :
  forall (m : ModuleState) (factory : async_sessionmaker) (body : Body)
         (s1 : AsyncSession) (e : PyExc),
    async_session_factory m = Some factory ->
    body (new_session factory) = (s1, Returned tt) ->
    session_raises Commit (calls s1) = Some e ->
    exists s r,
      get_async_session session_raises m body = Yielded s r
      /\ calls s = calls s1 ++
                   (if isinstance_Exception e
                    then [Commit; Rollback; Close; AExit]
                    else [Commit; Close; AExit])
      /\ ((forall c done, c <> Commit -> session_raises c done = None) ->
          r = Raised e).
Proof.
  intros m factory body s1 e Hf Hbody Hc.
  unfold get_async_session. rewrite Hf. cbv zeta.
  do 2 eexists. split; [reflexivity|]. split.
  - rewrite !calls_and_finally, (calls_except_try _ _ _ _ _ Hbody), Hc.
    destruct (isinstance_Exception e); now rewrite <- !app_assoc.
  - intros Hquiet.
    rewrite (outcome_quiet_cleanup _ _ _ _ _ Hbody Hquiet). now rewrite Hc.
Qed.

(** X11. A clean-up call that raises replaces what was pending. If
    [rollback()] raises, the caller gets its exception and not the one of the
    block; if [close()] raises after a successful [commit()], the caller gets
    an exception although the changes were committed. [close()] and
    [__aexit__] are called all the same. *)
Theorem cleanup_failure_replaces_outcome :
  forall (m : ModuleState) (factory : async_sessionmaker) (body : Body)
         (s1 : AsyncSession) (e' : PyExc),
    async_session_factory m = Some factory ->
    (forall done, session_raises AExit done = None) ->
    (forall e,
       body (new_session factory) = (s1, Raised e) ->
       isinstance_Exception e = true ->
       session_raises Rollback (calls s1) = Some e' ->
       session_raises Close (calls s1 ++ [Rollback]) = None ->
       exists s,
         get_async_session session_raises m body = Yielded s (Raised e')
         /\ calls s = calls s1 ++ [Rollback; Close; AExit])
    /\ (body (new_session factory) = (s1, Returned tt) ->
        session_raises Commit (calls s1) = None ->
        session_raises Close (calls s1 ++ [Commit]) = Some e' ->
        exists s,
          get_async_session session_raises m body = Yielded s (Raised e')
          /\ calls s = calls s1 ++ [Commit; Close; AExit]).
Proof.
  intros m factory body s1 e' Hf Hx. split.
  - intros e Hbody He Hr Hc.
    unfold get_async_session. rewrite Hf. cbv zeta.
    unfold try_suite. rewrite Hbody.
    unfold and_finally, except_Exception, call. rewrite He, Hr.
    cbn [fst snd calls]. rewrite Hc. cbn [fst snd calls]. rewrite Hx.
    cbn [fst snd]. eexists. split; [reflexivity|].
    cbn [calls]. now rewrite <- !app_assoc.
  - intros Hbody Hc Hcl.
    unfold get_async_session. rewrite Hf. cbv zeta.
    unfold try_suite. rewrite Hbody.
    unfold and_finally, except_Exception, call. rewrite Hc.
    cbn [fst snd calls]. rewrite Hcl. cbn [fst snd calls]. rewrite Hx.
    cbn [fst snd]. eexists. split; [reflexivity|].
    cbn [calls]. now rewrite <- !app_assoc.
Qed.

(** X12. [get_db] commits and closes on top of what the handler did: the
    session ends with one [commit()] more than the handler made when the
    handler returned, with none more when it raised, and always with one
    [close()] more. *)
Theorem get_db_adds_to_the_handler :
  forall (m : ModuleState) (factory : async_sessionmaker) (handler : Body)
         (s1 : AsyncSession) (r1 : result unit),
    async_session_factory m = Some factory ->
    handler (new_session factory) = (s1, r1) ->
    exists s r,
      get_db session_raises m handler = Yielded s r
      /\ count_occ SessionCall_eq_dec (calls s) Commit
         = (count_occ SessionCall_eq_dec (calls s1) Commit
            + match r1 with Returned _ => 1 | Raised _ => 0 end)%nat
      /\ count_occ SessionCall_eq_dec (calls s) Close
         = S (count_occ SessionCall_eq_dec (calls s1) Close).
Proof.
  intros m factory handler s1 r1 Hf Hbody.
  unfold get_db, get_async_session. rewrite Hf. cbv zeta.
  do 2 eexists. split; [reflexivity|].
  assert ((fun session => handler session) (new_session factory) = (s1, r1))
    as Hbody' by exact Hbody.
  rewrite !calls_and_finally, (calls_except_try _ _ _ _ _ Hbody').
  rewrite !count_occ_app.
  destruct r1 as [u|e];
    [destruct (session_raises Commit (calls s1)) as [e|]|];
    try destruct (isinstance_Exception e); cbn; split; lia.
Qed.

End SessionsMore.

Section SessionsMoreExamples.
Import Db.
Local Open Scope list_scope.

Lemma scope_completes_only_if_all_succeed_witness :
  exists factory s1,
    async_session_factory
      (mkModule "u" "u" (Some 0%nat) (Some (mkSessionmaker 0 "AsyncSession" false))
         true [mkEngine "u" false 20 10 true 3600 [] 0])
    = Some factory
    /\ (fun s : AsyncSession => (s, Returned tt)) (new_session factory)
       = (s1, Returned tt)
    /\ calls s1 = [].
Proof.
  destruct (scope_completes_only_if_all_succeed (fun _ _ => None)
              (mkModule "u" "u" (Some 0%nat)
                 (Some (mkSessionmaker 0 "AsyncSession" false))
                 true [mkEngine "u" false 20 10 true 3600 [] 0])
              (fun s => (s, Returned tt))
              (mkSession 0 false 0 [Commit; Close; AExit]) eq_refl)
    as (factory & s1 & Hf & Hbody & _).
  exists factory, s1. split; [exact Hf|]. split; [exact Hbody|].
  injection Hf as <-. now injection Hbody as <-.
Defined.

Lemma failed_commit_is_rolled_back_witness :
  exists s,
    get_async_session
      (fun c _ => match c with
                  | Commit => Some (mkExc (OtherException "IntegrityError")
                                      "unique_review_per_ride_pair")
                  | _ => None
                  end)
      (mkModule "u" "u" (Some 0%nat) (Some (mkSessionmaker 0 "AsyncSession" false))
         true [mkEngine "u" false 20 10 true 3600 [] 0])
      (fun s => (s, Returned tt))
    = Yielded s (Raised (mkExc (OtherException "IntegrityError")
                           "unique_review_per_ride_pair"))
    /\ calls s = [Commit; Rollback; Close; AExit].
Proof.
  destruct (failed_commit_is_rolled_back
              (fun c _ => match c with
                          | Commit => Some (mkExc (OtherException "IntegrityError")
                                              "unique_review_per_ride_pair")
                          | _ => None
                          end)
              (mkModule "u" "u" (Some 0%nat)
                 (Some (mkSessionmaker 0 "AsyncSession" false))
                 true [mkEngine "u" false 20 10 true 3600 [] 0])
              (mkSessionmaker 0 "AsyncSession" false)
              (fun s => (s, Returned tt)) _ _ eq_refl eq_refl eq_refl)
    as (s & r & Hget & Hcalls & Hr).
  exists s. split; [|exact Hcalls].
  rewrite Hget. f_equal. apply Hr.
  intros [| | |] done H; reflexivity || (exfalso; now apply H).
Defined.

Lemma cleanup_failure_replaces_outcome_witness :
  (exists s,
     get_async_session
       (fun c _ => match c with
                   | Rollback => Some (mkExc (OtherException "InterfaceError")
                                         "connection is closed")
                   | _ => None
                   end)
       (mkModule "u" "u" (Some 0%nat) (Some (mkSessionmaker 0 "AsyncSession" false))
          true [mkEngine "u" false 20 10 true 3600 [] 0])
       (fun s => (s, Raised (mkExc ValueError "bad seat count")))
     = Yielded s (Raised (mkExc (OtherException "InterfaceError")
                            "connection is closed")))
  /\ (exists s,
        get_async_session
          (fun c _ => match c with
                      | Close => Some (mkExc (OtherException "InterfaceError")
                                         "connection is closed")
                      | _ => None
                      end)
          (mkModule "u" "u" (Some 0%nat) (Some (mkSessionmaker 0 "AsyncSession" false))
             true [mkEngine "u" false 20 10 true 3600 [] 0])
          (fun s => (s, Returned tt))
        = Yielded s (Raised (mkExc (OtherException "InterfaceError")
                               "connection is closed"))
        /\ calls s = [Commit; Close; AExit]).
Proof.
  split.
  - destruct (proj1 (cleanup_failure_replaces_outcome
                       (fun c _ => match c with
                                   | Rollback => Some (mkExc (OtherException "InterfaceError")
                                                         "connection is closed")
                                   | _ => None
                                   end)
                       (mkModule "u" "u" (Some 0%nat)
                          (Some (mkSessionmaker 0 "AsyncSession" false))
                          true [mkEngine "u" false 20 10 true 3600 [] 0])
                       (mkSessionmaker 0 "AsyncSession" false)
                       (fun s => (s, Raised (mkExc ValueError "bad seat count")))
                       _ _ eq_refl (fun _ => eq_refl))
                _ eq_refl eq_refl eq_refl eq_refl) as (s & Hget & _).
    exists s. exact Hget.
  - exact (proj2 (cleanup_failure_replaces_outcome
                    (fun c _ => match c with
                                | Close => Some (mkExc (OtherException "InterfaceError")
                                                   "connection is closed")
                                | _ => None
                                end)
                    (mkModule "u" "u" (Some 0%nat)
                       (Some (mkSessionmaker 0 "AsyncSession" false))
                       true [mkEngine "u" false 20 10 true 3600 [] 0])
                    (mkSessionmaker 0 "AsyncSession" false)
                    (fun s => (s, Returned tt))
                    _ _ eq_refl (fun _ => eq_refl))
             eq_refl eq_refl eq_refl).
Defined.

Lemma get_db_adds_to_the_handler_witness :
  exists s r,
    get_db (fun _ _ => None)
      (mkModule "u" "u" (Some 0%nat) (Some (mkSessionmaker 0 "AsyncSession" false))
         true [mkEngine "u" false 20 10 true 3600 [] 0])
      (fun s => call (fun _ _ => None) Commit s)
    = Yielded s r
    /\ count_occ SessionCall_eq_dec (calls s) Commit = 2%nat.
Proof.
  destruct (get_db_adds_to_the_handler (fun _ _ => None)
              (mkModule "u" "u" (Some 0%nat)
                 (Some (mkSessionmaker 0 "AsyncSession" false))
                 true [mkEngine "u" false 20 10 true 3600 [] 0])
              (mkSessionmaker 0 "AsyncSession" false)
              (fun s => call (fun _ _ => None) Commit s) _ _ eq_refl eq_refl)
    as (s & r & Hget & Hcommit & _).
  exists s, r. split; [exact Hget | exact Hcommit].
Defined.

End SessionsMoreExamples.

(** ** The tables, continued *)

Section EntityMore.
Import Models.
Local Open Scope list_scope.
Local Open Scope Z_scope.

(** X13. A value that does not fit its column comes first: an insert into
    [bookings] with such a value is refused with the data error, even when
    a required column is missing. When the values fit, a booking needs
    [ride_id], [passenger_id] and [seats_reserved]: an insert that leaves one
    of them unset is refused with the NOT NULL violation of the first one
    missing, whatever the database holds. The other four columns are never
    missing: [id], [amount_paid], [status] and [booked_at] take the value
    given, as the column holds it, or else the server default. *)
Theorem booking_required_columns :
  forall (srv : Server) (db : Database) (b : Booking.Instance),
    match Booking.as_sent b with
    | inl e => insert_booking srv db b = inl e /\ is_data_error e = true
    | inr sent =>
        match Booking.ride_id b, Booking.passenger_id b,
              Booking.seats_reserved b with
        | None, _, _ => insert_booking srv db b = inl (NotNullViolation "ride_id")
        | Some _, None, _ =>
            insert_booking srv db b = inl (NotNullViolation "passenger_id")
        | Some _, Some _, None =>
            insert_booking srv db b = inl (NotNullViolation "seats_reserved")
        | Some ride, Some passenger, Some seats =>
            Booking.to_row srv b
            = inr (Booking.mk (F := fun T => T)
                     (match Booking.id b with
                      | Some v => v
                      | None => gen_random_uuid srv
                      end)
                     ride passenger seats
                     (match Booking.amount_paid sent with
                      | Some v => v
                      | None => cents 0
                      end)
                     (match Booking.status sent with
                      | Some v => v
                      | None => "pending"%string
                      end)
                     (match Booking.booked_at b with
                      | Some v => v
                      | None => now srv
                      end))
        end
    end.
Proof.
  intros srv db b. unfold insert_booking, Booking.to_row.
  destruct (Booking.as_sent b) as [e|sent] eqn:Hs.
  - split; [reflexivity | now apply booking_as_sent_inl in Hs].
  - apply booking_as_sent_inr in Hs as (E1 & E2 & E3 & E4 & E5 & _).
    destruct sent as [i r p s a st t].
    cbn [Booking.id Booking.ride_id Booking.passenger_id Booking.seats_reserved
         Booking.amount_paid Booking.status Booking.booked_at] in *.
    subst i r p s t.
    destruct (Booking.ride_id b) as [ride|], (Booking.passenger_id b) as [passenger|],
      (Booking.seats_reserved b) as [seats|], (Booking.id b), a, st,
      (Booking.booked_at b); reflexivity.
Qed.

Lemma booking_required_columns_witness :
  insert_booking (mkServer 7%N 1000) (mkDatabase [1%N] [2%N] [] [])
    (Booking.mk (F := option) None None (Some 2%N) (Some 2147483648) None None None)
  = inl (DataError "seats_reserved")
  /\ insert_booking (mkServer 7%N 1000) (mkDatabase [1%N] [2%N] [] [])
       (Booking.mk (F := option) None None (Some 2%N) (Some 1) None None None)
     = inl (NotNullViolation "ride_id").
Proof.
  split.
  - exact (proj1 (booking_required_columns (mkServer 7%N 1000)
                    (mkDatabase [1%N] [2%N] [] [])
                    (Booking.mk (F := option) None None (Some 2%N)
                       (Some 2147483648) None None None))).
  - exact (booking_required_columns (mkServer 7%N 1000)
             (mkDatabase [1%N] [2%N] [] [])
             (Booking.mk (F := option) None None (Some 2%N) (Some 1)
                None None None)).
Defined.

(** X14. A rating that is not a 32-bit integer comes first: an insert into
    [reviews] with such a rating is refused with the data error, even when a
    required column is missing. Otherwise a review needs [ride_id],
    [reviewer_id], [reviewee_id] and [rating]: an insert that leaves one of
    them unset is refused with the NOT NULL violation of the first one
    missing. [comment] is optional: unset, or set to [None], it is stored as
    NULL; [id] and [created_at] take the value given or else the server
    default. *)
Theorem review_required_columns :
  forall (srv : Server) (db : Database) (r : Review.Instance),
    match Review.as_sent r with
    | inl e => insert_review srv db r = inl e /\ e = DataError "rating"
    | inr _ =>
        match Review.ride_id r, Review.reviewer_id r, Review.reviewee_id r,
              Review.rating r with
        | None, _, _, _ => insert_review srv db r = inl (NotNullViolation "ride_id")
        | Some _, None, _, _ =>
            insert_review srv db r = inl (NotNullViolation "reviewer_id")
        | Some _, Some _, None, _ =>
            insert_review srv db r = inl (NotNullViolation "reviewee_id")
        | Some _, Some _, Some _, None =>
            insert_review srv db r = inl (NotNullViolation "rating")
        | Some ride, Some reviewer, Some reviewee, Some rating =>
            Review.to_row srv r
            = inr (Review.mk (F := fun T => T)
                     (match Review.id r with
                      | Some v => v
                      | None => gen_random_uuid srv
                      end)
                     ride reviewer reviewee rating
                     (match Review.comment r with
                      | Some text => text
                      | None => None
                      end)
                     (match Review.created_at r with
                      | Some v => v
                      | None => now srv
                      end))
        end
    end.
Proof.
  intros srv db r. unfold insert_review, Review.to_row.
  destruct (Review.as_sent r) as [e|sent] eqn:Hs.
  - split; [reflexivity|]. rewrite review_as_sent in Hs.
    destruct (Review.rating r) as [z|]; [|discriminate].
    destruct (as_Integer z); [discriminate|]. now injection Hs as <-.
  - apply review_as_sent_inr in Hs as [-> _].
    destruct r as [i rd er ee ra c t]. cbn [Review.ride_id Review.reviewer_id
      Review.reviewee_id Review.rating Review.id Review.comment Review.created_at].
    destruct rd, er, ee, ra, i, c as [[text|]|], t; reflexivity.
Qed.

Lemma review_required_columns_witness :
  insert_review (mkServer 9%N 2000) (mkDatabase [1%N] [2%N; 3%N] [] [])
    (Review.mk (F := option) None None (Some 2%N) (Some 3%N) (Some 2147483648)
       None None)
  = inl (DataError "rating")
  /\ insert_review (mkServer 9%N 2000) (mkDatabase [1%N] [2%N; 3%N] [] [])
       (Review.mk (F := option) None None (Some 2%N) (Some 3%N) (Some 5)
          None None)
     = inl (NotNullViolation "ride_id").
Proof.
  split.
  - exact (proj1 (review_required_columns (mkServer 9%N 2000)
                    (mkDatabase [1%N] [2%N; 3%N] [] [])
                    (Review.mk (F := option) None None (Some 2%N) (Some 3%N)
                       (Some 2147483648) None None))).
  - exact (review_required_columns (mkServer 9%N 2000)
             (mkDatabase [1%N] [2%N; 3%N] [] [])
             (Review.mk (F := option) None None (Some 2%N) (Some 3%N) (Some 5)
                None None)).
Defined.

(** When an insert into [bookings] is accepted. *)
Lemma insert_booking_inr_iff :
  forall (srv : Server) (db db' : Database) (b : Booking.Instance),
    insert_booking srv db b = inr db' <->
    exists row,
      Booking.to_row srv b = inr row
      /\ 0 < Booking.seats_reserved row
      /\ 0 <= coefficient (Booking.amount_paid row)
      /\ In (Booking.status row)
           ["pending"; "confirmed"; "cancelled"; "completed"]%string
      /\ ~ In (Booking.id row) (map Booking.id (bookings db))
      /\ In (Booking.ride_id row) (rides db)
      /\ In (Booking.passenger_id row) (users db)
      /\ db' = mkDatabase (rides db) (users db) (bookings db ++ [row]) (reviews db).
Proof.
  intros srv db db' b. unfold insert_booking, insert_row.
  destruct (Booking.to_row srv b) as [e|row].
  - split; [discriminate | intros (row & H & _); discriminate].
  - destruct (violation Booking.table (parent_exists db) (bookings db) row) eqn:Hv;
      cbn [with_bookings].
    + split; [discriminate|]. intros (row' & Hrow & H1 & H2 & H3 & H4 & H5 & H6 & _).
      injection Hrow as <-.
      assert (violation Booking.table (parent_exists db) (bookings db) row = None)
        as C; [|congruence].
      apply violation_None. split; [|split; [|split]].
      * apply booking_checks. auto.
      * now apply pkey_violation_None.
      * reflexivity.
      * apply booking_references. auto.
    + apply violation_None in Hv as (Vc & Vp & _ & Vf).
      apply booking_checks in Vc as (H1 & H2 & H3).
      apply pkey_violation_None in Vp.
      apply booking_references in Vf as (H5 & H6).
      split.
      * intros H. injection H as <-. exists row. repeat split; assumption.
      * intros (row' & Hrow & _ & _ & _ & _ & _ & _ & ->). now injection Hrow as <-.
Qed.

(** When an insert into [reviews] is accepted. *)
Lemma insert_review_inr_iff :
  forall (srv : Server) (db db' : Database) (r : Review.Instance),
    insert_review srv db r = inr db' <->
    exists row,
      Review.to_row srv r = inr row
      /\ 1 <= Review.rating row <= 5
      /\ ~ In (Review.id row) (map Review.id (reviews db))
      /\ ~ In [Review.ride_id row; Review.reviewer_id row; Review.reviewee_id row]
              (map (fun x => [Review.ride_id x; Review.reviewer_id x;
                              Review.reviewee_id x]) (reviews db))
      /\ In (Review.ride_id row) (rides db)
      /\ In (Review.reviewer_id row) (users db)
      /\ In (Review.reviewee_id row) (users db)
      /\ db' = mkDatabase (rides db) (users db) (bookings db) (reviews db ++ [row]).
Proof.
  intros srv db db' r. unfold insert_review, insert_row.
  assert (forall row,
            unique_violation (table_args Review.table) (reviews db) row = None <->
            ~ In [Review.ride_id row; Review.reviewer_id row; Review.reviewee_id row]
                 (map (fun x => [Review.ride_id x; Review.reviewer_id x;
                                 Review.reviewee_id x]) (reviews db))) as Hu.
  { intros row. rewrite unique_violation_None.
    cbn [table_args Review.table Review.__table_args__]. split.
    - intros H. inversion H as [|? ? _ H']; subst. now inversion H'; subst.
    - intros H. repeat constructor. exact H. }
  destruct (Review.to_row srv r) as [e|row].
  - split; [discriminate | intros (row & H & _); discriminate].
  - destruct (violation Review.table (parent_exists db) (reviews db) row) eqn:Hv;
      cbn [with_reviews].
    + split; [discriminate|].
      intros (row' & Hrow & H1 & H2 & H3 & H4 & H5 & H6 & _).
      injection Hrow as <-.
      assert (violation Review.table (parent_exists db) (reviews db) row = None)
        as C; [|congruence].
      apply violation_None. split; [|split; [|split]].
      * now apply review_checks.
      * now apply pkey_violation_None.
      * now apply Hu.
      * apply review_references. auto.
    + apply violation_None in Hv as (Vc & Vp & Vu & Vf).
      apply review_checks in Vc. apply pkey_violation_None in Vp.
      apply Hu in Vu. apply review_references in Vf as (H4 & H5 & H6).
      split.
      * intros H. injection H as <-. exists row. repeat split; tauto.
      * intros (row' & Hrow & _ & _ & _ & _ & _ & _ & ->). now injection Hrow as <-.
Qed.

(** X15. An insert into [bookings] is accepted exactly when its values fit
    their column types and the row they make, with the amount rounded to two
    decimals, has [seats_reserved > 0], [amount_paid >= 0], one of the four
    statuses, an [id] that no booking has, and an existing ride and
    passenger; the row is then added at the end and nothing else changes.
    What is stored is within the column types: fewer than [2 ^ 31] seats and
    an amount of two decimals below [10000]. Nothing forbids several bookings
    of one passenger on one ride. *)
Theorem insert_booking_accepted_iff :
  forall (srv : Server) (db db' : Database) (b : Booking.Instance),
    insert_booking srv db b = inr db' <->
    exists sent row,
      Booking.as_sent b = inr sent
      /\ Booking.fill srv sent = inr row
      /\ 0 < Booking.seats_reserved row < 2 ^ 31
      /\ 0 <= coefficient (Booking.amount_paid row) < 10 ^ 6
      /\ exponent (Booking.amount_paid row) = -2
      /\ In (Booking.status row)
           ["pending"; "confirmed"; "cancelled"; "completed"]%string
      /\ ~ In (Booking.id row) (map Booking.id (bookings db))
      /\ In (Booking.ride_id row) (rides db)
      /\ In (Booking.passenger_id row) (users db)
      /\ db' = mkDatabase (rides db) (users db) (bookings db ++ [row]) (reviews db).
Proof.
  intros srv db db' b. rewrite insert_booking_inr_iff. split.
  - intros (row & Hrow & H1 & H2 & H3 & H4 & H5 & H6 & H7).
    destruct (booking_to_row_inr _ _ _ Hrow) as (sent & Hs & Hf).
    apply booking_to_row_fields in Hrow
      as (_ & _ & _ & _ & _ & _ & T1 & T2 & T3 & _).
    exists sent, row. repeat split; try assumption; lia.
  - intros (sent & row & Hs & Hf & H1 & H2 & _ & H3 & H4 & H5 & H6 & H7).
    exists row. unfold Booking.to_row. rewrite Hs.
    repeat split; try assumption; lia.
Qed.

Lemma insert_booking_accepted_iff_witness :
  exists sent row,
    Booking.as_sent
      (Booking.mk (F := option) None (Some 1%N) (Some 2%N) (Some 2)
         (Some (mkDecimal 31 0)) (Some "confirmed"%string) None)
    = inr sent
    /\ Booking.fill (mkServer 8%N 1001) sent = inr row
    /\ Booking.amount_paid row = cents 3100
    /\ ~ In (Booking.id row) [7%N].
Proof.
  destruct (proj1 (insert_booking_accepted_iff (mkServer 8%N 1001)
                     (mkDatabase [1%N] [2%N]
                        [Booking.mk (F := fun T => T) 7%N 1%N 2%N 1 (cents 0)
                           "pending"%string 1000] [])
                     _
                     (Booking.mk (F := option) None (Some 1%N) (Some 2%N) (Some 2)
                        (Some (mkDecimal 31 0)) (Some "confirmed"%string) None))
                eq_refl)
    as (sent & row & Hs & Hf & _ & _ & _ & _ & Hfresh & _).
  exists sent, row. split; [exact Hs|]. split; [exact Hf|]. split; [|exact Hfresh].
  injection Hs as <-. injection Hf as <-. reflexivity.
Defined.

(** X16. An insert into [reviews] is accepted exactly when the row it
    makes has a rating from 1 to 5, an [id] that no review has, a
    [(ride_id, reviewer_id, reviewee_id)] that no review has, and an existing
    ride, reviewer and reviewee; the row is then added at the end and nothing
    else changes. Nothing requires the reviewer and the reviewee to differ. *)
Theorem insert_review_accepted_iff :
  forall (srv : Server) (db db' : Database) (r : Review.Instance),
    insert_review srv db r = inr db' <->
    exists row,
      Review.to_row srv r = inr row
      /\ 1 <= Review.rating row <= 5
      /\ ~ In (Review.id row) (map Review.id (reviews db))
      /\ ~ In [Review.ride_id row; Review.reviewer_id row; Review.reviewee_id row]
              (map (fun x => [Review.ride_id x; Review.reviewer_id x;
                              Review.reviewee_id x]) (reviews db))
      /\ In (Review.ride_id row) (rides db)
      /\ In (Review.reviewer_id row) (users db)
      /\ In (Review.reviewee_id row) (users db)
      /\ db' = mkDatabase (rides db) (users db) (bookings db) (reviews db ++ [row]).
Proof. exact insert_review_inr_iff. Qed.

Lemma insert_review_accepted_iff_witness :
  exists row,
    Review.to_row (mkServer 9%N 2000)
      (Review.mk (F := option) None (Some 1%N) (Some 2%N) (Some 2%N) (Some 3)
         None None)
    = inr row
    /\ Review.reviewer_id row = Review.reviewee_id row.
Proof.
  destruct (proj1 (insert_review_accepted_iff (mkServer 9%N 2000)
                     (mkDatabase [1%N] [2%N] [] [])
                     _
                     (Review.mk (F := option) None (Some 1%N) (Some 2%N) (Some 2%N)
                        (Some 3) None None))
                eq_refl)
    as (row & Hrow & _).
  exists row. split; [exact Hrow|].
  injection Hrow as <-. reflexivity.
Defined.

End EntityMore.

Section EntityComposition.
Import Models.
Local Open Scope list_scope.
Local Open Scope Z_scope.

Lemma not_mem (k : UUID) (l : list UUID) : ~ In k l -> mem k l = false.
Proof.
  intros H. destruct (mem k l) eqn:E; [|reflexivity].
  apply mem_In in E. contradiction.
Qed.

(** X17. A booking must refer to an existing ride and an existing user: an
    insert whose values fit their column types and that is in order except
    that its ride does not exist is refused with the foreign-key violation of
    [ride_id], and one that is in order except that its passenger does not
    exist with that of [passenger_id]. *)
Theorem booking_needs_existing_parents :
  forall (srv : Server) (db : Database) (b : Booking.Instance) (row : Booking.Row),
    Booking.to_row srv b = inr row ->
    0 < Booking.seats_reserved row ->
    0 <= coefficient (Booking.amount_paid row) ->
    In (Booking.status row) ["pending"; "confirmed"; "cancelled"; "completed"]%string ->
    ~ In (Booking.id row) (map Booking.id (bookings db)) ->
    (~ In (Booking.ride_id row) (rides db) ->
     In (Booking.passenger_id row) (users db) ->
     insert_booking srv db b = inl (ForeignKeyViolation "ride_id"))
    /\ (In (Booking.ride_id row) (rides db) ->
        ~ In (Booking.passenger_id row) (users db) ->
        insert_booking srv db b = inl (ForeignKeyViolation "passenger_id")).
Proof.
  intros srv db b row Hrow H1 H2 H3 Hfresh.
  assert (check_violation (table_args Booking.table) row = None) as Hc
    by (apply booking_checks; auto).
  assert (pkey_violation Booking.table (bookings db) row = None) as Hp
    by (now apply pkey_violation_None).
  unfold insert_booking, insert_row, violation. rewrite Hrow, Hc, Hp.
  split; intros Hr Hu.
  - apply not_mem in Hr. cbn. now rewrite Hr.
  - apply mem_In in Hr. apply not_mem in Hu. cbn. now rewrite Hr, Hu.
Qed.

Lemma booking_needs_existing_parents_witness :
  insert_booking (mkServer 7%N 1000) (mkDatabase [1%N] [2%N] [] [])
    (Booking.mk (F := option) None (Some 5%N) (Some 2%N) (Some 1) None None None)
  = inl (ForeignKeyViolation "ride_id")
  /\ insert_booking (mkServer 7%N 1000) (mkDatabase [1%N] [2%N] [] [])
       (Booking.mk (F := option) None (Some 1%N) (Some 6%N) (Some 1) None None None)
     = inl (ForeignKeyViolation "passenger_id").
Proof.
  split.
  - apply (booking_needs_existing_parents (mkServer 7%N 1000)
             (mkDatabase [1%N] [2%N] [] [])
             (Booking.mk (F := option) None (Some 5%N) (Some 2%N) (Some 1)
                None None None)
             (Booking.mk (F := fun T => T) 7%N 5%N 2%N 1 (cents 0) "pending"%string 1000)
             eq_refl); cbn; try lia; try tauto.
  - apply (booking_needs_existing_parents (mkServer 7%N 1000)
             (mkDatabase [1%N] [2%N] [] [])
             (Booking.mk (F := option) None (Some 1%N) (Some 6%N) (Some 1)
                None None None)
             (Booking.mk (F := fun T => T) 7%N 1%N 6%N 1 (cents 0) "pending"%string 1000)
             eq_refl); cbn; try lia; try tauto.
Defined.

(** X18. Once a ride or a user has been deleted, no insert that refers to
    it is accepted: a booking or review of a deleted ride, a booking by a
    deleted passenger, a review by or about a deleted user. *)
Theorem deleted_parent_cannot_be_referenced :
  forall (srv : Server) (db db' : Database) (k : UUID),
    (delete_ride db k = inr db' ->
     (forall b, Booking.ride_id b = Some k ->
        exists e, insert_booking srv db' b = inl e)
     /\ (forall r, Review.ride_id r = Some k ->
           exists e, insert_review srv db' r = inl e))
    /\ (delete_user db k = inr db' ->
        (forall b, Booking.passenger_id b = Some k ->
           exists e, insert_booking srv db' b = inl e)
        /\ (forall r, Review.reviewer_id r = Some k \/ Review.reviewee_id r = Some k ->
              exists e, insert_review srv db' r = inl e)).
Proof.
  intros srv db db' k. split; intros Hdel.
  - rewrite delete_ride_eq in Hdel. injection Hdel as <-. split.
    + intros b Hb.
      destruct (insert_booking srv _ b) as [e|db''] eqn:Hins; [eauto|].
      exfalso. apply insert_booking_inr_iff in Hins
        as (row & Hrow & _ & _ & _ & _ & Hride & _).
      apply booking_to_row_fields in Hrow as (E & _).
      cbn [rides] in Hride. apply In_remove_key in Hride as [_ Hne].
      congruence.
    + intros r Hr.
      destruct (insert_review srv _ r) as [e|db''] eqn:Hins; [eauto|].
      exfalso. apply insert_review_inr_iff in Hins
        as (row & Hrow & _ & _ & _ & Hride & _).
      apply review_to_row_fields in Hrow as (E & _).
      cbn [rides] in Hride. apply In_remove_key in Hride as [_ Hne].
      congruence.
  - rewrite delete_user_eq in Hdel. injection Hdel as <-. split.
    + intros b Hb.
      destruct (insert_booking srv _ b) as [e|db''] eqn:Hins; [eauto|].
      exfalso. apply insert_booking_inr_iff in Hins
        as (row & Hrow & _ & _ & _ & _ & _ & Hu & _).
      apply booking_to_row_fields in Hrow as (_ & E & _).
      cbn [users] in Hu. apply In_remove_key in Hu as [_ Hne].
      congruence.
    + intros r Hr.
      destruct (insert_review srv _ r) as [e|db''] eqn:Hins; [eauto|].
      exfalso. apply insert_review_inr_iff in Hins
        as (row & Hrow & _ & _ & _ & _ & Her & Hee & _).
      apply review_to_row_fields in Hrow as (_ & E1 & E2 & _).
      cbn [users] in Her, Hee.
      apply In_remove_key in Her as [_ Hne1]. apply In_remove_key in Hee as [_ Hne2].
      destruct Hr; congruence.
Qed.

Lemma deleted_parent_cannot_be_referenced_witness :
  exists e,
    insert_booking (mkServer 8%N 1001)
      (mkDatabase [4%N] [2%N; 3%N] [] [])
      (Booking.mk (F := option) None (Some 1%N) (Some 2%N) (Some 1) None None None)
    = inl e.
Proof.
  apply (proj1 (proj1 (deleted_parent_cannot_be_referenced (mkServer 8%N 1001)
                         (mkDatabase [1%N; 4%N] [2%N; 3%N] [] [])
                         (mkDatabase [4%N] [2%N; 3%N] [] []) 1%N) eq_refl)).
  reflexivity.
Defined.

(** X19. No uniqueness is declared on [bookings]: the same object inserted
    twice, with two generated keys, is stored twice, so a passenger can hold
    several bookings on one ride. *)
Theorem booking_can_be_repeated :
  forall (srv1 srv2 : Server) (db db1 : Database) (b : Booking.Instance),
    Booking.id b = None ->
    insert_booking srv1 db b = inr db1 ->
    ~ In (gen_random_uuid srv2) (map Booking.id (bookings db1)) ->
    exists db2 row1 row2,
      insert_booking srv2 db1 b = inr db2
      /\ bookings db2 = bookings db ++ [row1; row2]
      /\ Booking.ride_id row1 = Booking.ride_id row2
      /\ Booking.passenger_id row1 = Booking.passenger_id row2
      /\ Booking.id row1 <> Booking.id row2.
Proof.
  intros srv1 srv2 db db1 b Hid H1 Hfresh.
  apply insert_booking_inr_iff in H1
    as (row1 & Hrow1 & C1 & C2 & C3 & F1 & R1 & R2 & ->).
  destruct (booking_to_row_again srv1 srv2 b row1 Hid Hrow1)
    as (row2 & Hrow2 & I1 & I2 & E1 & E2 & E3 & E4 & E5).
  cbn [bookings rides users] in *.
  exists (mkDatabase (rides db) (users db) ((bookings db ++ [row1]) ++ [row2])
            (reviews db)), row1, row2.
  split.
  - apply insert_booking_inr_iff. exists row2. split; [exact Hrow2|].
    cbn [bookings rides users reviews].
    rewrite E1, E2, E3, E4, E5, I2. repeat split; assumption.
  - cbn [bookings]. rewrite <- app_assoc. cbn [app].
    split; [reflexivity|]. split; [congruence|]. split; [congruence|].
    rewrite I2. intros E. apply Hfresh. rewrite map_app. apply in_or_app.
    right. cbn. left. exact E.
Qed.

Lemma booking_can_be_repeated_witness :
  exists db2,
    insert_booking (mkServer 8%N 1001)
      (mkDatabase [1%N] [2%N]
         [Booking.mk (F := fun T => T) 7%N 1%N 2%N 1 (cents 0) "pending"%string 1000] [])
      (Booking.mk (F := option) None (Some 1%N) (Some 2%N) (Some 1) None None None)
    = inr db2
    /\ List.length (bookings db2) = 2%nat.
Proof.
  destruct (booking_can_be_repeated (mkServer 7%N 1000) (mkServer 8%N 1001)
              (mkDatabase [1%N] [2%N] [] [])
              (mkDatabase [1%N] [2%N]
                 [Booking.mk (F := fun T => T) 7%N 1%N 2%N 1 (cents 0) "pending"%string 1000] [])
              (Booking.mk (F := option) None (Some 1%N) (Some 2%N) (Some 1)
                 None None None)
              eq_refl eq_refl)
    as (db2 & row1 & row2 & Hins & Hb & _).
  - cbn. lia.
  - exists db2. split; [exact Hins|]. rewrite Hb. reflexivity.
Defined.

(** X20. The uniqueness of reviews is directional: after the review of [b]
    by [a] for a ride has been stored, the review of [a] by [b] for the same
    ride is still accepted (unless it exists already). *)
Theorem review_both_directions :
  forall (srv1 srv2 : Server) (db db1 : Database) (ride a b : UUID)
         (z1 z2 : Z) (c1 c2 : option (option string)),
    a <> b ->
    insert_review srv1 db
      (Review.mk (F := option) None (Some ride) (Some a) (Some b) (Some z1) c1 None)
    = inr db1 ->
    1 <= z2 <= 5 ->
    ~ In [ride; b; a]
         (map (fun x => [Review.ride_id x; Review.reviewer_id x; Review.reviewee_id x])
              (reviews db)) ->
    ~ In (gen_random_uuid srv2) (map Review.id (reviews db1)) ->
    exists db2,
      insert_review srv2 db1
        (Review.mk (F := option) None (Some ride) (Some b) (Some a) (Some z2) c2 None)
      = inr db2
      /\ List.length (reviews db2) = S (S (List.length (reviews db))).
Proof.
  intros srv1 srv2 db db1 ride a b z1 z2 c1 c2 Hab H1 Hz Hnew Hfresh.
  apply insert_review_inr_iff in H1
    as (row1 & Hrow1 & _ & _ & _ & R1 & R2 & R3 & ->).
  apply review_to_row_fill in Hrow1 as [Hrow1 _].
  injection Hrow1 as <-.
  cbn [Review.ride_id Review.reviewer_id Review.reviewee_id reviews rides users] in *.
  eexists. split.
  - apply insert_review_inr_iff. eexists.
    rewrite review_to_row_fits
      by (cbn [Review.rating]; intros z Ez; injection Ez as <-; lia).
    split; [reflexivity|].
    cbn [Review.ride_id Review.reviewer_id Review.reviewee_id Review.rating
         Review.id reviews rides users bookings].
    split; [exact Hz|]. split; [exact Hfresh|]. split.
    + rewrite map_app. intros Hin. apply in_app_or in Hin as [Hin|Hin];
        [now apply Hnew|].
      cbn in Hin. destruct Hin as [E|[]]. injection E as E1 E2. congruence.
    + repeat split; assumption || reflexivity.
  - cbn [reviews]. rewrite !length_app. cbn. lia.
Qed.

Lemma review_both_directions_witness :
  exists db2,
    insert_review (mkServer 10%N 2001)
      (mkDatabase [1%N] [2%N; 3%N] []
         [Review.mk (F := fun T => T) 9%N 1%N 2%N 3%N 5 None 2000])
      (Review.mk (F := option) None (Some 1%N) (Some 3%N) (Some 2%N) (Some 5)
         None None)
    = inr db2
    /\ List.length (reviews db2) = 2%nat.
Proof.
  apply (review_both_directions (mkServer 9%N 2000) (mkServer 10%N 2001)
           (mkDatabase [1%N] [2%N; 3%N] [] [])
           (mkDatabase [1%N] [2%N; 3%N] []
              [Review.mk (F := fun T => T) 9%N 1%N 2%N 3%N 5 None 2000])
           1%N 2%N 3%N 5 5 None None); cbn; try lia; try tauto.
Defined.

End EntityComposition.

Section RowsInPlace.
Import Models.
Local Open Scope list_scope.

Variable Row : Type.
Variable T : Table Row.

Lemma find_snoc (f : Row -> bool) (rows : list Row) (row : Row) :
  find f (rows ++ [row])
  = match find f rows with
    | Some x => Some x
    | None => if f row then Some row else None
    end.
Proof.
  induction rows as [|r rows IH]; simpl; [reflexivity|].
  destruct (f r); [reflexivity | exact IH].
Qed.

Lemma find_fresh (k : UUID) (rows : list Row) :
  ~ In k (map (pkey T) rows) ->
  find (fun r => N.eqb (pkey T r) k) rows = None.
Proof.
  induction rows as [|r rows IH]; simpl; intros H; [reflexivity|].
  destruct (N.eqb (pkey T r) k) eqn:E.
  - apply N.eqb_eq in E. exfalso. apply H. now left.
  - apply IH. intros Hin. apply H. now right.
Qed.

Lemma find_replace_same (k : UUID) (old new : Row) (rows : list Row) :
  find (fun r => N.eqb (pkey T r) k) rows = Some old ->
  pkey T new = k ->
  find (fun r => N.eqb (pkey T r) k) (replace_row T k new rows) = Some new.
Proof.
  intros Hf Hk. induction rows as [|r rows IH]; simpl in *; [discriminate|].
  destruct (N.eqb (pkey T r) k) eqn:E.
  - simpl. now rewrite Hk, N.eqb_refl.
  - simpl. rewrite E. now apply IH.
Qed.

Lemma find_replace_other (j k : UUID) (new : Row) (rows : list Row) :
  j <> k ->
  pkey T new = k ->
  find (fun r => N.eqb (pkey T r) j) (replace_row T k new rows)
  = find (fun r => N.eqb (pkey T r) j) rows.
Proof.
  intros Hjk Hk. induction rows as [|r rows IH]; simpl; [reflexivity|].
  destruct (N.eqb (pkey T r) k) eqn:E.
  - apply N.eqb_eq in E. simpl. rewrite Hk, E.
    assert (N.eqb k j = false) as -> by (apply N.eqb_neq; congruence).
    reflexivity.
  - simpl. destruct (N.eqb (pkey T r) j); [reflexivity | exact IH].
Qed.

(** A row that keeps its keys, passes the CHECK constraints and refers to
    existing rows may replace the one it comes from. *)
Lemma update_in_place (db : Database) (rows : list Row) (k : UUID)
  (old new : Row) :
  table_ok T db rows ->
  find (fun r => N.eqb (pkey T r) k) rows = Some old ->
  pkey T new = pkey T old ->
  Forall (fun a => match a with
                   | UniqueConstraint _ key _ => key new = key old
                   | CheckConstraint _ _ _ => True
                   end) (table_args T) ->
  check_violation (table_args T) new = None ->
  fk_violation (parent_exists db) (foreign_keys T) new = None ->
  violation T (parent_exists db) (without T k rows) new = None.
Proof.
  intros (Hc & Hp & Hu & Hr) Hf Hpk Hkeys Vc Vf.
  destruct (find_row_split _ T k new rows old Hp Hf) as (l1 & l2 & E & _ & Hw & _).
  rewrite Hw. apply violation_None. split; [exact Vc|]. split; [|split; [|exact Vf]].
  - apply pkey_violation_None. rewrite Hpk.
    unfold pkey_unique in Hp. rewrite E, map_app in Hp. cbn [map] in Hp.
    apply NoDup_remove_2 in Hp. now rewrite map_app.
  - apply unique_violation_None. unfold uniques_hold in Hu. rewrite E in Hu.
    revert Hu Hkeys. generalize (table_args T) as args.
    induction args as [|a args IH]; intros Hu Hkeys; [constructor|].
    inversion Hu as [|? ? Hd Hu']; inversion Hkeys as [|? ? Hk Hkeys']; subst.
    constructor; [|now apply IH].
    destruct a as [sql holds name | cols key name]; [exact I|].
    cbn [unique_arg] in Hd. rewrite Hk.
    rewrite map_app in Hd. cbn [map] in Hd.
    apply NoDup_remove_2 in Hd. now rewrite map_app.
Qed.

End RowsInPlace.

Section EntityUpdates.
Import Models.
Local Open Scope list_scope.
Local Open Scope Z_scope.

(** X21. Nothing in the schema orders the statuses of a booking: in a
    database within its constraints, setting the status of an existing
    booking to any of the four values is accepted whatever the status was
    (a completed booking can go back to pending). The booking keeps its other
    columns and the other bookings are untouched. *)
Theorem booking_status_update_unconstrained :
  forall (db : Database) (k : UUID) (old : Booking.Row) (s : string),
    consistent db ->
    find (fun r => N.eqb (Booking.id r) k) (bookings db) = Some old ->
    In s ["pending"; "confirmed"; "cancelled"; "completed"]%string ->
    exists db',
      update_booking db k
        (Booking.mk (F := option) None None None None None (Some s) None)
      = inr db'
      /\ find (fun r => N.eqb (Booking.id r) k) (bookings db')
         = Some (Booking.mk (F := fun T => T) (Booking.id old) (Booking.ride_id old)
                   (Booking.passenger_id old) (Booking.seats_reserved old)
                   (Booking.amount_paid old) s (Booking.booked_at old))
      /\ (forall j, j <> k ->
            find (fun r => N.eqb (Booking.id r) j) (bookings db')
            = find (fun r => N.eqb (Booking.id r) j) (bookings db))
      /\ reviews db' = reviews db.
Proof.
  intros db k old s [Hb _] Hfind Hs.
  set (new := Booking.mk (F := fun T => T) (Booking.id old) (Booking.ride_id old)
                (Booking.passenger_id old) (Booking.seats_reserved old)
                (Booking.amount_paid old) s (Booking.booked_at old)).
  assert (Booking.id old = k) as Hk.
  { apply find_some in Hfind as [_ E]. now apply N.eqb_eq in E. }
  assert (In old (bookings db)) as Hin by (apply find_some in Hfind; tauto).
  destruct Hb as (Hc & Hp & Hu & Hr).
  pose proof (proj1 (Forall_forall _ _) Hc old Hin) as Hcold.
  pose proof (proj1 (Forall_forall _ _) Hr old Hin) as Hrold.
  apply booking_checks in Hcold as (C1 & C2 & _).
  assert (violation Booking.table (parent_exists db)
            (without Booking.table k (bookings db)) new = None) as Hv.
  { apply (update_in_place _ Booking.table db (bookings db) k old new).
    - repeat split; assumption.
    - exact Hfind.
    - reflexivity.
    - cbn. repeat constructor.
    - apply booking_checks. cbn. auto.
    - apply booking_references. apply booking_references in Hrold. exact Hrold. }
  exists (mkDatabase (rides db) (users db)
            (replace_row Booking.table k new (bookings db)) (reviews db)).
  split; [|split; [|split]].
  - unfold update_booking, update_row. rewrite (booking_status_as_sent s Hs).
    change (find (fun r => N.eqb (pkey Booking.table r) k) (bookings db) = Some old)
      in Hfind.
    rewrite Hfind.
    change (Booking.updated old
              (Booking.mk (F := option) None None None None None (Some s) None))
      with new.
    now rewrite Hv.
  - cbn [bookings].
    now apply (find_replace_same _ Booking.table k old new (bookings db)).
  - intros j Hj. cbn [bookings].
    now apply (find_replace_other _ Booking.table j k new (bookings db)).
  - reflexivity.
Qed.

(** X22. In a database within its constraints, changing the rating of an
    existing review to a value from 1 to 5 is always accepted: the review
    does not collide with itself on its [(ride_id, reviewer_id, reviewee_id)].
    The review keeps its other columns and the other reviews are
    untouched. *)
Theorem review_rating_update_accepted :
  forall (db : Database) (k : UUID) (old : Review.Row) (z : Z),
    consistent db ->
    find (fun r => N.eqb (Review.id r) k) (reviews db) = Some old ->
    1 <= z <= 5 ->
    exists db',
      update_review db k
        (Review.mk (F := option) None None None None (Some z) None None)
      = inr db'
      /\ find (fun r => N.eqb (Review.id r) k) (reviews db')
         = Some (Review.mk (F := fun T => T) (Review.id old) (Review.ride_id old)
                   (Review.reviewer_id old) (Review.reviewee_id old) z
                   (Review.comment old) (Review.created_at old))
      /\ (forall j, j <> k ->
            find (fun r => N.eqb (Review.id r) j) (reviews db')
            = find (fun r => N.eqb (Review.id r) j) (reviews db))
      /\ bookings db' = bookings db.
Proof.
  intros db k old z [_ Hrv] Hfind Hz.
  set (new := Review.mk (F := fun T => T) (Review.id old) (Review.ride_id old)
                (Review.reviewer_id old) (Review.reviewee_id old) z
                (Review.comment old) (Review.created_at old)).
  assert (Review.id old = k) as Hk.
  { apply find_some in Hfind as [_ E]. now apply N.eqb_eq in E. }
  assert (In old (reviews db)) as Hin by (apply find_some in Hfind; tauto).
  destruct Hrv as (Hc & Hp & Hu & Hr).
  pose proof (proj1 (Forall_forall _ _) Hr old Hin) as Hrold.
  assert (violation Review.table (parent_exists db)
            (without Review.table k (reviews db)) new = None) as Hv.
  { apply (update_in_place _ Review.table db (reviews db) k old new).
    - repeat split; assumption.
    - exact Hfind.
    - reflexivity.
    - cbn. repeat constructor.
    - apply review_checks. exact Hz.
    - apply review_references. apply review_references in Hrold. exact Hrold. }
  exists (mkDatabase (rides db) (users db) (bookings db)
            (replace_row Review.table k new (reviews db))).
  split; [|split; [|split]].
  - unfold update_review, update_row.
    rewrite review_as_sent_fits
      by (cbn [Review.rating]; intros z' Ez; injection Ez as <-; lia).
    change (find (fun r => N.eqb (pkey Review.table r) k) (reviews db) = Some old)
      in Hfind.
    rewrite Hfind.
    change (Review.updated old
              (Review.mk (F := option) None None None None (Some z) None None))
      with new.
    now rewrite Hv.
  - cbn [reviews].
    now apply (find_replace_same _ Review.table k old new (reviews db)).
  - intros j Hj. cbn [reviews].
    now apply (find_replace_other _ Review.table j k new (reviews db)).
  - reflexivity.
Qed.

(** X23. Whatever statements are run from the empty database, refused
    ones included, no booking or review is ever an orphan and no two bookings
    or two reviews ever share an [id]. *)
Theorem reachable_database_is_sound :
  forall sts : list Statement,
    no_orphans (run sts empty)
    /\ NoDup (map Booking.id (bookings (run sts empty)))
    /\ NoDup (map Review.id (reviews (run sts empty))).
Proof.
  intros sts.
  destruct (consistent_run sts empty consistent_empty)
    as [(_ & Hpb & _ & Hrb) (_ & Hpr & _ & Hrr)].
  split; [split|split; assumption].
  - intros b Hin. apply booking_references. revert b Hin. now apply Forall_forall.
  - intros r Hin. apply review_references. revert r Hin. now apply Forall_forall.
Qed.

(** X24. What has been inserted can be read back: after an accepted insert
    the new row is the one found under its [id], and every row that could be
    found before is still found, in [bookings] and in [reviews] alike. *)
Theorem inserted_row_is_found :
  forall (srv : Server) (db db' : Database),
    (forall b,
       insert_booking srv db b = inr db' ->
       exists row,
         Booking.to_row srv b = inr row
         /\ find (fun r => N.eqb (Booking.id r) (Booking.id row)) (bookings db')
            = Some row
         /\ forall j old,
              find (fun r => N.eqb (Booking.id r) j) (bookings db) = Some old ->
              find (fun r => N.eqb (Booking.id r) j) (bookings db') = Some old)
    /\ (forall r,
          insert_review srv db r = inr db' ->
          exists row,
            Review.to_row srv r = inr row
            /\ find (fun x => N.eqb (Review.id x) (Review.id row)) (reviews db')
               = Some row
            /\ forall j old,
                 find (fun x => N.eqb (Review.id x) j) (reviews db) = Some old ->
                 find (fun x => N.eqb (Review.id x) j) (reviews db') = Some old).
Proof.
  intros srv db db'. split.
  - intros b H. apply insert_booking_inr_iff in H
      as (row & Hrow & _ & _ & _ & Hfresh & _ & _ & ->).
    exists row. split; [exact Hrow|]. cbn [bookings]. split.
    + rewrite find_snoc.
      destruct (find _ (bookings db)) as [x|] eqn:Hf.
      * exfalso. assert (Some x = None) as C; [|discriminate].
        rewrite <- Hf. exact (find_fresh _ Booking.table _ _ Hfresh).
      * now rewrite N.eqb_refl.
    + intros j old Hf. rewrite find_snoc.
      destruct (find _ (bookings db)) as [x|] eqn:E.
      * rewrite <- E. exact Hf.
      * exfalso. assert (@None Booking.Row = Some old) as C; [|discriminate].
        rewrite <- E. exact Hf.
  - intros r H. apply insert_review_inr_iff in H
      as (row & Hrow & _ & Hfresh & _ & _ & _ & _ & ->).
    exists row. split; [exact Hrow|]. cbn [reviews]. split.
    + rewrite find_snoc.
      destruct (find _ (reviews db)) as [x|] eqn:Hf.
      * exfalso. assert (Some x = None) as C; [|discriminate].
        rewrite <- Hf. exact (find_fresh _ Review.table _ _ Hfresh).
      * now rewrite N.eqb_refl.
    + intros j old Hf. rewrite find_snoc.
      destruct (find _ (reviews db)) as [x|] eqn:E.
      * rewrite <- E. exact Hf.
      * exfalso. assert (@None Review.Row = Some old) as C; [|discriminate].
        rewrite <- E. exact Hf.
Qed.

End EntityUpdates.

Section EntityUpdatesExamples.
Import Models.
Local Open Scope list_scope.
Local Open Scope Z_scope.

Lemma booking_status_update_unconstrained_witness :
  exists db',
    update_booking
      (mkDatabase [1%N] [2%N]
         [Booking.mk (F := fun T => T) 7%N 1%N 2%N 1 (cents 1550) "completed"%string 1000]
         [])
      7%N
      (Booking.mk (F := option) None None None None None (Some "pending"%string) None)
    = inr db'
    /\ bookings db'
       = [Booking.mk (F := fun T => T) 7%N 1%N 2%N 1 (cents 1550) "pending"%string 1000].
Proof.
  destruct (booking_status_update_unconstrained
              (mkDatabase [1%N] [2%N]
                 [Booking.mk (F := fun T => T) 7%N 1%N 2%N 1 (cents 1550)
                    "completed"%string 1000] [])
              7%N
              (Booking.mk (F := fun T => T) 7%N 1%N 2%N 1 (cents 1550) "completed"%string 1000)
              "pending"%string)
    as (db' & Hup & _).
  - split; repeat split; cbn;
      repeat (constructor; try reflexivity); cbn; intuition discriminate.
  - reflexivity.
  - cbn. auto.
  - exists db'. split; [exact Hup|].
    cbv in Hup. injection Hup as <-. reflexivity.
Defined.

Lemma review_rating_update_accepted_witness :
  exists db',
    update_review
      (mkDatabase [1%N] [2%N; 3%N] []
         [Review.mk (F := fun T => T) 9%N 1%N 2%N 3%N 5 None 2000])
      9%N
      (Review.mk (F := option) None None None None (Some 2) None None)
    = inr db'
    /\ reviews db' = [Review.mk (F := fun T => T) 9%N 1%N 2%N 3%N 2 None 2000].
Proof.
  destruct (review_rating_update_accepted
              (mkDatabase [1%N] [2%N; 3%N] []
                 [Review.mk (F := fun T => T) 9%N 1%N 2%N 3%N 5 None 2000])
              9%N
              (Review.mk (F := fun T => T) 9%N 1%N 2%N 3%N 5 None 2000) 2)
    as (db' & Hup & _).
  - split; repeat split; cbn;
      repeat (constructor; try reflexivity); cbn; intuition discriminate.
  - reflexivity.
  - lia.
  - exists db'. split; [exact Hup|].
    cbv in Hup. injection Hup as <-. reflexivity.
Defined.

Lemma inserted_row_is_found_witness :
  exists row,
    find (fun r => N.eqb (Booking.id r) 8%N)
      [Booking.mk (F := fun T => T) 7%N 1%N 2%N 1 (cents 0) "pending"%string 1000;
       Booking.mk (F := fun T => T) 8%N 1%N 2%N 3 (cents 4650) "pending"%string 1001]
    = Some row
    /\ Booking.seats_reserved row = 3.
Proof.
  destruct (proj1 (inserted_row_is_found (mkServer 8%N 1001)
                     (mkDatabase [1%N] [2%N]
                        [Booking.mk (F := fun T => T) 7%N 1%N 2%N 1 (cents 0)
                           "pending"%string 1000] [])
                     (mkDatabase [1%N] [2%N]
                        [Booking.mk (F := fun T => T) 7%N 1%N 2%N 1 (cents 0)
                           "pending"%string 1000;
                         Booking.mk (F := fun T => T) 8%N 1%N 2%N 3 (cents 4650)
                           "pending"%string 1001] []))
              (Booking.mk (F := option) None (Some 1%N) (Some 2%N) (Some 3)
                 (Some (cents 4650)) None None)
              eq_refl)
    as (row & Hrow & Hfind & _).
  exists row. injection Hrow as <-. split; [exact Hfind | reflexivity].
Defined.

End EntityUpdatesExamples.

(** ** Column types and the order of the CHECK constraints *)

Section ColumnsAndChecks.
Import Models.
Local Open Scope list_scope.
Local Open Scope Z_scope.

(** X25. When a booking fails several CHECK constraints, the violation
    reported is that of the first by name, which is not the order of
    [__table_args__]: a negative amount is reported before anything else,
    then a status outside the four values, and [seats_reserved <= 0] only
    when the other two constraints hold. *)
Theorem booking_check_reported_by_name :
  forall (srv : Server) (db : Database) (b : Booking.Instance) (row : Booking.Row),
    Booking.to_row srv b = inr row ->
    (coefficient (Booking.amount_paid row) < 0 ->
     insert_booking srv db b = inl (CheckViolation "check_amount_positive"))
    /\ (0 <= coefficient (Booking.amount_paid row) ->
        ~ In (Booking.status row)
            ["pending"; "confirmed"; "cancelled"; "completed"]%string ->
        insert_booking srv db b = inl (CheckViolation "check_booking_status"))
    /\ (0 <= coefficient (Booking.amount_paid row) ->
        In (Booking.status row)
          ["pending"; "confirmed"; "cancelled"; "completed"]%string ->
        Booking.seats_reserved row <= 0 ->
        insert_booking srv db b
        = inl (CheckViolation "check_seats_reserved_positive")).
Proof.
  intros srv db b row Hrow.
  assert (forall e, check_violation (table_args Booking.table) row = Some e ->
            insert_booking srv db b = inl e) as Hins.
  { intros e Hc. unfold insert_booking, insert_row. rewrite Hrow.
    now rewrite (violation_of_check _ _ _ _ _ _ Hc). }
  destruct (booking_check_failure row) as (B1 & B2 & B3).
  split; [|split].
  - intros H. apply Hins. now apply B1.
  - intros H1 H2. apply Hins. now apply B2.
  - intros H1 H2 H3. apply Hins. now apply B3.
Qed.

Lemma booking_check_reported_by_name_witness :
  insert_booking (mkServer 7%N 1000) (mkDatabase [1%N] [2%N] [] [])
    (Booking.mk (F := option) None (Some 1%N) (Some 2%N) (Some 0)
       (Some (cents (-500))) (Some "paid"%string) None)
  = inl (CheckViolation "check_amount_positive")
  /\ insert_booking (mkServer 7%N 1000) (mkDatabase [1%N] [2%N] [] [])
       (Booking.mk (F := option) None (Some 1%N) (Some 2%N) (Some 0)
          None (Some "paid"%string) None)
     = inl (CheckViolation "check_booking_status").
Proof.
  split.
  - apply (proj1 (booking_check_reported_by_name (mkServer 7%N 1000)
                    (mkDatabase [1%N] [2%N] [] [])
                    (Booking.mk (F := option) None (Some 1%N) (Some 2%N) (Some 0)
                       (Some (cents (-500))) (Some "paid"%string) None)
                    (Booking.mk (F := fun T => T) 7%N 1%N 2%N 0 (cents (-500))
                       "paid"%string 1000)
                    eq_refl)).
    cbn. lia.
  - apply (proj1 (proj2 (booking_check_reported_by_name (mkServer 7%N 1000)
                    (mkDatabase [1%N] [2%N] [] [])
                    (Booking.mk (F := option) None (Some 1%N) (Some 2%N) (Some 0)
                       None (Some "paid"%string) None)
                    (Booking.mk (F := fun T => T) 7%N 1%N 2%N 0 (cents 0)
                       "paid"%string 1000)
                    eq_refl))).
    + cbn. lia.
    + cbn. intuition discriminate.
Defined.

Lemma Forall_filter_keeps (A : Type) (P : A -> Prop) (keep : A -> bool)
  (l : list A) :
  Forall P l -> Forall P (filter keep l).
Proof.
  intros H. apply Forall_forall. intros x Hx. apply filter_In in Hx as [Hx _].
  revert x Hx. now apply Forall_forall.
Qed.

Lemma Forall_replace_row (Row : Type) (T : Table Row) (P : Row -> Prop)
  (k : UUID) (new : Row) (rows : list Row) :
  Forall P rows -> P new -> Forall P (replace_row T k new rows).
Proof.
  intros H Hn. induction H as [|r rows Hr H IH]; cbn; [constructor|].
  destruct (N.eqb (pkey T r) k); constructor; assumption.
Qed.

(** What an assignment that fits makes of a row within its columns. *)
Lemma within_columns_updated (b sent : Booking.Instance) (old : Booking.Row) :
  Booking.as_sent b = inr sent ->
  Booking.within_columns old ->
  Booking.within_columns (Booking.updated old sent).
Proof.
  intros Hs (O1 & O2 & O3 & O4).
  apply booking_as_sent_inr in Hs as (_ & _ & _ & E4 & _ & Hz & Ha & Hst).
  unfold Booking.within_columns, Booking.updated.
  cbn [Booking.seats_reserved Booking.amount_paid Booking.status].
  split; [|split; [|split]].
  - rewrite E4. destruct (Booking.seats_reserved b) as [z|]; cbn [assign];
      [now apply Hz | exact O1].
  - destruct (Booking.amount_paid b) as [d|].
    + destruct Ha as [-> _]. reflexivity.
    + rewrite Ha. exact O2.
  - destruct (Booking.amount_paid b) as [d|].
    + destruct Ha as [-> Hd]. exact Hd.
    + rewrite Ha. exact O3.
  - destruct (Booking.status b) as [s|].
    + destruct Hst as [-> Hne]. destruct (as_String 20 s) as [y|] eqn:Es;
        [|contradiction]. cbn [assign]. now apply as_String_Some in Es.
    + rewrite Hst. exact O4.
Qed.

(** Every statement, accepted or refused, leaves the bookings within the
    types of their columns. *)
Lemma within_columns_apply (db : Database) (st : Statement) :
  Forall Booking.within_columns (bookings db) ->
  Forall Booking.within_columns (bookings (apply db st)).
Proof.
  intros H. unfold apply.
  destruct (execute db st) as [e|db'] eqn:Hex; [exact H|].
  destruct st as [k|k|k|k|srv b|k b|k|srv r|k r|k]; cbn [execute] in Hex.
  - unfold insert_ride in Hex. destruct (mem k (rides db)); [discriminate|].
    now injection Hex as <-.
  - unfold insert_user in Hex. destruct (mem k (users db)); [discriminate|].
    now injection Hex as <-.
  - rewrite delete_ride_eq in Hex. injection Hex as <-. cbn [bookings].
    now apply Forall_filter_keeps.
  - rewrite delete_user_eq in Hex. injection Hex as <-. cbn [bookings].
    now apply Forall_filter_keeps.
  - unfold insert_booking in Hex.
    destruct (Booking.to_row srv b) as [e|row] eqn:Hrow; [discriminate|].
    unfold insert_row in Hex.
    destruct (violation Booking.table (parent_exists db) (bookings db) row);
      [discriminate|].
    injection Hex as <-. cbn [bookings]. apply Forall_app. split; [exact H|].
    constructor; [|constructor].
    apply booking_to_row_fields in Hrow
      as (_ & _ & _ & _ & _ & _ & T1 & T2 & T3 & T4).
    repeat split; assumption || lia.
  - unfold update_booking in Hex.
    destruct (Booking.as_sent b) as [e|sent] eqn:Hs; [discriminate|].
    unfold update_row in Hex.
    destruct (find (fun r => N.eqb (pkey Booking.table r) k) (bookings db))
      as [old|] eqn:Hf.
    + destruct (violation Booking.table (parent_exists db)
                  (without Booking.table k (bookings db))
                  (Booking.updated old sent)); [discriminate|].
      injection Hex as <-. cbn [bookings].
      apply Forall_replace_row; [exact H|].
      apply (within_columns_updated b sent old Hs).
      apply find_some in Hf as [Hin _].
      revert old Hin. now apply Forall_forall.
    + now injection Hex as <-.
  - injection Hex as <-. cbn [bookings]. now apply Forall_filter_keeps.
  - unfold insert_review in Hex.
    destruct (Review.to_row srv r) as [e|row]; [discriminate|].
    destruct (insert_row Review.table (parent_exists db) (reviews db) row);
      [discriminate|].
    now injection Hex as <-.
  - unfold update_review in Hex.
    destruct (Review.as_sent r) as [e|sent]; [discriminate|].
    destruct (update_row Review.table (parent_exists db) (reviews db) k _);
      [discriminate|].
    now injection Hex as <-.
  - now injection Hex as <-.
Qed.

Lemma within_columns_run (sts : list Statement) (db : Database) :
  Forall Booking.within_columns (bookings db) ->
  Forall Booking.within_columns (bookings (run sts db)).
Proof.
  revert db; induction sts as [|st sts IH]; intros db H; [exact H|].
  unfold run. cbn [fold_left]. apply IH. now apply within_columns_apply.
Qed.

(** X26. Whatever statements are run from the empty database, every stored
    booking is within the types of its columns and within its CHECK
    constraints: it reserves from 1 to [2 ^ 31 - 1] seats and its amount is a
    number of cents from [0.00] to [9999.99]. *)
Theorem stored_bookings_within_columns :
  forall sts : list Statement,
    Forall (fun row =>
              Booking.within_columns row
              /\ 0 < Booking.seats_reserved row < 2 ^ 31
              /\ exists h,
                   Booking.amount_paid row = cents h /\ 0 <= h <= 999999)
           (bookings (run sts empty)).
Proof.
  intros sts.
  destruct (consistent_run sts empty consistent_empty) as [(Hc & _) _].
  pose proof (within_columns_run sts empty (Forall_nil _)) as Ht.
  apply Forall_forall. intros row Hin.
  pose proof (proj1 (Forall_forall _ _) Hc row Hin) as C.
  pose proof (proj1 (Forall_forall _ _) Ht row Hin) as (T1 & T2 & T3 & T4).
  apply booking_checks in C as (C1 & C2 & _).
  split; [repeat split; assumption || lia|]. split; [lia|].
  destruct (Booking.amount_paid row) as [c e]. cbn in *. subst e.
  exists c. split; [reflexivity | lia].
Qed.

End ColumnsAndChecks.
